(** * Stream lifecycle of the livestream backend

    A shallow embedding of
    - the class [StreamManager] (services/streamManager, in [rtmp.ts]),
    - the ingest callbacks [/publish] and [/unpublish] (routes/rtmp, in
      [rtmp.ts]),
    - the class [WebSocketManager] ([websocket.ts]),
    - the routes of [streamRoutes] (routes/streams, in [streams.ts]),
    - the class [StorageService] (services/storage, in [rtmp.ts]) and the
      routes [/register], [/login] and [/verify] (routes/auth, in
      [rtmp.ts]),
    - the tables [streams] and [stream_events] with their defaults,
      constraints and trigger ([initializeDatabase]),
    together with the properties of the lifecycle specification that can be
    settled on that code.

    Every [async] method is written once, as a program of atomic primitive
    operations ([Prog]).  A primitive is either synchronous JavaScript
    ([Sync]: map updates, [fs.*Sync], [spawn], [kill], [ws.send]) or an
    awaited request to PostgreSQL or to the storage service ([Await]).
    [run] executes a program alone, from its call to its return; [step]
    executes one scheduling unit of it, so that several handlers can be
    interleaved at their [await]s.

    What the environment decides is a field of the world: the two clocks
    ([Date.now()] of the Node process, NOW() of the database), the values
    of [gen_random_uuid()], the files that exist and the paths that cannot
    be modified, whether the [ffmpeg] binary is there, whether the upload
    works, and what [send] does on each WebSocket.

    Conventions.  Stream ids are values of the UUID column; time stamps
    are integers, in milliseconds; a path is the list of its segments and
    a stored path is never the empty string; the sizes of the columns
    ([INTEGER], [VARCHAR(n)]) and the reference of [streams.user_id] to
    the table [users] are left out; what is written to the console is
    left out. *)

From Stdlib Require Import ZArith List String Bool Lia.
From stdpp Require Import gmap strings list.
From stdpp Require Import sorting pretty.

(* [set_solver] clears hypotheses that may not be there. *)
#[local] Set Warnings "-clear-no-such-hyp".

Local Open Scope string_scope.
Local Open Scope list_scope.
Local Open Scope Z_scope.

(** ** Data model *)

(** [status VARCHAR(50) CHECK (status IN ('created','live','ended','error'))] *)
Inductive Status : Type := created | live | ended | error.

#[global] Instance Status_eq_dec : EqDecision Status.
Proof. solve_decision. Defined.

(** JSON values: [metadata JSONB], [event_data JSONB], WebSocket payloads. *)
#[local] Unset Elimination Schemes.
Inductive Json : Type :=
| JNull
| JBool (b : bool)
| JNum (n : Z)
| JStr (s : string)
| JArr (items : list Json)
| JObj (members : list (string * Json)).
#[local] Set Elimination Schemes.

(** A normalised file-system path, as its segments: [path.join] appends a
    segment and [path.dirname] drops the last one. *)
Definition Path : Type := list string.

Definition path_join (dir : Path) (name : string) : Path := dir ++ [name].
Definition path_dirname (p : Path) : Path := removelast p.

(** Time stamps ([TIMESTAMP WITH TIME ZONE], [Date]) in milliseconds since
    the epoch. *)
Definition Timestamp : Type := Z.

(** A row of table [streams] (interface [Stream]).  The column [id] is
    called [Stream_id] here, [id] being the identity function of the
    library. *)
Record Stream : Type := mkStream {
  Stream_id : string;
  user_id : string;
  title : string;
  description : option string;
  ingest_key : string;
  status : Status;
  start_time : option Timestamp;
  end_time : option Timestamp;
  duration : option Z;
  viewer_count : Z;
  max_viewers : Z;
  recording_path : option Path;
  hls_path : option Path;
  thumbnail_path : option Path;
  metadata : Json;
  created_at : Timestamp;
  updated_at : Timestamp
}.

(** Interface [StreamData], the argument of [createStream]. *)
Record StreamData : Type := mkStreamData {
  sd_userId : string;
  sd_title : string;
  sd_description : option string;
  sd_ingestKey : string;
  sd_metadata : option Json
}.

(** A row of table [stream_events]. *)
Record StreamEvent : Type := mkStreamEvent {
  ev_stream_id : string;
  event_type : string;
  event_data : Json;
  ev_timestamp : Timestamp
}.

(** The child processes started with [spawn('ffmpeg', ffmpegArgs)].  A
    process is identified by its position in the table.  [child_stream] is
    the [streamId] captured by the closures registered with
    [ffmpeg.on('close', ..)] and [ffmpeg.on('error', ..)]. *)
Inductive ChildState : Type :=
| Running            (* spawned, not signalled *)
| Terminating        (* SIGTERM sent, exit not yet observed *)
| SpawnFailed        (* spawn failed (ENOENT), 'error' not yet delivered *)
| Exited.            (* 'close' or 'error' delivered *)

#[global] Instance ChildState_eq_dec : EqDecision ChildState.
Proof. solve_decision. Defined.

Record ChildProcess : Type := mkChild {
  child_stream : string;
  child_input : string;        (* -i rtmp://localhost:1935/live/<ingest_key> *)
  child_hls : Path;            (* <hlsDir>/index.m3u8 *)
  child_recording : Path;      (* <recordings>/<id>.mp4 *)
  child_state : ChildState
}.

(** WebSocket connections.  [link] is what [ws.send] does on the
    connection: it hands the frame over, it fails later through the
    connection's 'error' event, or it throws. *)
Inductive ReadyState : Type := CONNECTING | OPEN | CLOSING | CLOSED.

#[global] Instance ReadyState_eq_dec : EqDecision ReadyState.
Proof. solve_decision. Defined.

Inductive SendOutcome : Type := Delivers | ErrorEvent | Throws.

#[global] Instance SendOutcome_eq_dec : EqDecision SendOutcome.
Proof. solve_decision. Defined.

(** Interface [WebSocketMessage]. *)
Record WebSocketMessage : Type := mkMessage {
  msg_type : string;
  msg_data : Json;
  msg_timestamp : Timestamp
}.

Record WebSocket : Type := mkSocket {
  ws_id : nat;                          (* object identity *)
  readyState : ReadyState;
  link : SendOutcome;
  received : list WebSocketMessage;     (* frames handed to the peer *)
  error_pending : bool                  (* an 'error' event is queued *)
}.

(** What the process reads from its environment. *)
Record Config : Type := mkConfig {
  HLS_PATH : Path;          (* process.env.HLS_PATH || './storage/hls' *)
  RECORDINGS_PATH : Path;   (* .. RECORDINGS_PATH || './storage/recordings' *)
  S3_BUCKET : option string;
  MINIO_ENDPOINT : option string
}.

(** Observable effects, in the order they happen. *)
Inductive Effect : Type :=
| SqlUpdate (id : string) (columns : list string)
| SqlInsertStream (id : string)
| SqlInsertEvent (id : string) (type : string)
| SqlDelete (id : string)
| Spawn (pid : nat) (id : string)
| Kill (pid : nat)
| Mkdir (p : Path)
| Unlink (p : Path)
| Rm (p : Path)
| Upload (p : Path) (id : string).

#[global] Instance Effect_eq_dec : EqDecision Effect.
Proof. solve_decision. Defined.

(** Exceptions. *)
Inductive Exn : Type :=
| Error (message : string)              (* new Error(message) *)
| FsError (code : string) (p : Path)    (* thrown by fs.*Sync *)
| SqlError (message : string)           (* rejected db.query *)
| UploadError
| SendError (ws : nat).                 (* thrown by ws.send *)

#[global] Instance Exn_eq_dec : EqDecision Exn.
Proof. solve_decision. Defined.

Definition NotFound : Exn := Error "Stream not found".
Definition AlreadyLive : Exn := Error "Stream is already live".

(** ** The world: the database, the Node process and the operating system *)

Record World : Type := mkWorld {
  (* PostgreSQL *)
  streams : list Stream;
  stream_events : list StreamEvent;
  db_now : Timestamp;                     (* NOW() *)
  gen_random_uuid : nat → string;         (* the values it will return *)
  uuid_calls : nat;                       (* how many have been drawn *)
  (* the Node process *)
  js_now : Timestamp;                     (* Date.now() *)
  recordingProcesses : gmap string nat;   (* Map<string, ChildProcess> *)
  clients : list WebSocket;               (* Set<WebSocket>, insertion order *)
  cfg : Config;
  (* the operating system *)
  children : list ChildProcess;
  spawn_enoent : bool;                    (* the ffmpeg binary is missing *)
  files : gset Path;                      (* existing files and directories *)
  denied : gset Path;                     (* paths that cannot be modified *)
  upload_fails : bool;
  trace : list Effect
}.

(** Field updates. *)
Definition with_streams (f : list Stream → list Stream) (w : World) : World :=
  mkWorld (f (streams w)) (stream_events w) (db_now w) (gen_random_uuid w)
    (uuid_calls w) (js_now w) (recordingProcesses w) (clients w) (cfg w)
    (children w) (spawn_enoent w) (files w) (denied w) (upload_fails w)
    (trace w).

Definition with_stream_events (f : list StreamEvent → list StreamEvent)
    (w : World) : World :=
  mkWorld (streams w) (f (stream_events w)) (db_now w) (gen_random_uuid w)
    (uuid_calls w) (js_now w) (recordingProcesses w) (clients w) (cfg w)
    (children w) (spawn_enoent w) (files w) (denied w) (upload_fails w)
    (trace w).

Definition with_recordingProcesses (f : gmap string nat → gmap string nat)
    (w : World) : World :=
  mkWorld (streams w) (stream_events w) (db_now w) (gen_random_uuid w)
    (uuid_calls w) (js_now w) (f (recordingProcesses w)) (clients w) (cfg w)
    (children w) (spawn_enoent w) (files w) (denied w) (upload_fails w)
    (trace w).

Definition with_clients (f : list WebSocket → list WebSocket) (w : World)
    : World :=
  mkWorld (streams w) (stream_events w) (db_now w) (gen_random_uuid w)
    (uuid_calls w) (js_now w) (recordingProcesses w) (f (clients w)) (cfg w)
    (children w) (spawn_enoent w) (files w) (denied w) (upload_fails w)
    (trace w).

Definition with_children (f : list ChildProcess → list ChildProcess)
    (w : World) : World :=
  mkWorld (streams w) (stream_events w) (db_now w) (gen_random_uuid w)
    (uuid_calls w) (js_now w) (recordingProcesses w) (clients w) (cfg w)
    (f (children w)) (spawn_enoent w) (files w) (denied w) (upload_fails w)
    (trace w).

Definition with_files (f : gset Path → gset Path) (w : World) : World :=
  mkWorld (streams w) (stream_events w) (db_now w) (gen_random_uuid w)
    (uuid_calls w) (js_now w) (recordingProcesses w) (clients w) (cfg w)
    (children w) (spawn_enoent w) (f (files w)) (denied w) (upload_fails w)
    (trace w).

Definition with_denied (f : gset Path → gset Path) (w : World) : World :=
  mkWorld (streams w) (stream_events w) (db_now w) (gen_random_uuid w)
    (uuid_calls w) (js_now w) (recordingProcesses w) (clients w) (cfg w)
    (children w) (spawn_enoent w) (files w) (f (denied w)) (upload_fails w)
    (trace w).

Definition with_spawn_enoent (b : bool) (w : World) : World :=
  mkWorld (streams w) (stream_events w) (db_now w) (gen_random_uuid w)
    (uuid_calls w) (js_now w) (recordingProcesses w) (clients w) (cfg w)
    (children w) b (files w) (denied w) (upload_fails w) (trace w).

Definition with_uuid_calls (f : nat → nat) (w : World) : World :=
  mkWorld (streams w) (stream_events w) (db_now w) (gen_random_uuid w)
    (f (uuid_calls w)) (js_now w) (recordingProcesses w) (clients w) (cfg w)
    (children w) (spawn_enoent w) (files w) (denied w) (upload_fails w)
    (trace w).

(** Time passes: the two clocks are read anew. *)
Definition with_clocks (js db : Timestamp) (w : World) : World :=
  mkWorld (streams w) (stream_events w) db (gen_random_uuid w)
    (uuid_calls w) js (recordingProcesses w) (clients w) (cfg w)
    (children w) (spawn_enoent w) (files w) (denied w) (upload_fails w)
    (trace w).

(** [emit e] appends [e] to the trace. *)
Definition emit (e : Effect) (w : World) : World :=
  mkWorld (streams w) (stream_events w) (db_now w) (gen_random_uuid w)
    (uuid_calls w) (js_now w) (recordingProcesses w) (clients w) (cfg w)
    (children w) (spawn_enoent w) (files w) (denied w) (upload_fails w)
    (trace w ++ [e]).

(** ** Programs *)

Inductive Result (A : Type) : Type :=
| Ok (a : A)
| Err (e : Exn).
Arguments Ok {A} a.
Arguments Err {A} e.

(** A primitive operation: it changes the world and returns or throws.
    What it changed before throwing stays changed. *)
Definition Prim (X : Type) : Type := World → Result X * World.

Inductive Prog (A : Type) : Type :=
| Ret (a : A)
| Throw (e : Exn)
| Sync {X : Type} (m : Prim X) (k : X → Prog A)
| Await {X : Type} (m : Prim X) (k : X → Prog A).
Arguments Ret {A} a.
Arguments Throw {A} e.
Arguments Sync {A X} m k.
Arguments Await {A X} m k.

Fixpoint bind {A B : Type} (p : Prog A) (f : A → Prog B) : Prog B :=
  match p with
  | Ret a => f a
  | Throw e => Throw e
  | Sync m k => Sync m (λ x, bind (k x) f)
  | Await m k => Await m (λ x, bind (k x) f)
  end.

Notation "'let*' x := p 'in' q" := (bind p (λ x, q))
  (at level 10, x name, p at level 100, q at level 200, only parsing).
Notation "'let*' ' x := p 'in' q" := (bind p (λ x, q))
  (at level 10, x strict pattern, p at level 100, q at level 200, only parsing).

Definition sync {X : Type} (m : Prim X) : Prog X := Sync m Ret.
Definition await {X : Type} (m : Prim X) : Prog X := Await m Ret.

(** [run p w]: the call runs alone, to its return or its exception. *)
Fixpoint run {A : Type} (p : Prog A) (w : World) : Result A * World :=
  match p with
  | Ret a => (Ok a, w)
  | Throw e => (Err e, w)
  | Sync m k | Await m k =>
      match m w with
      | (Ok x, w') => run (k x) w'
      | (Err e, w') => (Err e, w')
      end
  end.

(** A handler in flight.  [Sent m k]: the request [m] is on its way and
    [k] waits for the answer.  [Ready p]: the answer is there (or the
    handler has just been called) and [p] is the JavaScript to run. *)
Inductive Task (A : Type) : Type :=
| Ready (p : Prog A)
| Sent {X : Type} (m : Prim X) (k : X → Prog A)
| Done (r : Result A).
Arguments Ready {A} p.
Arguments Sent {A X} m k.
Arguments Done {A} r.

(** The synchronous code up to the next [await], which sends its request. *)
Fixpoint resume {A : Type} (p : Prog A) (w : World) : Task A * World :=
  match p with
  | Ret a => (Done (Ok a), w)
  | Throw e => (Done (Err e), w)
  | Sync m k =>
      match m w with
      | (Ok x, w') => resume (k x) w'
      | (Err e, w') => (Done (Err e), w')
      end
  | Await m k => (Sent m k, w)
  end.

(** One scheduling unit: a pending request is served, or the JavaScript
    that was waiting runs up to its next request. *)
Definition step {A : Type} (t : Task A) (w : World) : Task A * World :=
  match t with
  | Ready p => resume p w
  | Sent m k =>
      match m w with
      | (Ok x, w') => (Ready (k x), w')
      | (Err e, w') => (Ready (Throw e), w')
      end
  | Done r => (Done r, w)
  end.

(** Two handlers in flight; the schedule says which one moves next
    ([false] the first, [true] the second). *)
Fixpoint interleave {A B : Type} (schedule : list bool)
    (t1 : Task A) (t2 : Task B) (w : World) : Task A * Task B * World :=
  match schedule with
  | [] => (t1, t2, w)
  | false :: rest => let '(t1', w') := step t1 w in interleave rest t1' t2 w'
  | true :: rest => let '(t2', w') := step t2 w in interleave rest t1 t2' w'
  end.

(** ** PostgreSQL *)

Definition has_id (streamId : string) (s : Stream) : bool :=
  String.eqb (Stream_id s) streamId.

Definition has_ingest_key (ingestKey : string) (s : Stream) : bool :=
  String.eqb (ingest_key s) ingestKey.

(** Trigger [update_streams_updated_at]: [BEFORE UPDATE ON streams FOR EACH
    ROW], [NEW.updated_at = NOW()]. *)
Definition update_updated_at_column (now : Timestamp) (s : Stream) : Stream :=
  mkStream (Stream_id s) (user_id s) (title s) (description s) (ingest_key s)
    (status s) (start_time s) (end_time s) (duration s) (viewer_count s)
    (max_viewers s) (recording_path s) (hls_path s) (thumbnail_path s)
    (metadata s) (created_at s) now.

(** [SET status = 'live', start_time = NOW()] *)
Definition set_live (now : Timestamp) (s : Stream) : Stream :=
  mkStream (Stream_id s) (user_id s) (title s) (description s) (ingest_key s)
    live (Some now) (end_time s) (duration s) (viewer_count s)
    (max_viewers s) (recording_path s) (hls_path s) (thumbnail_path s)
    (metadata s) (created_at s) (updated_at s).

(** [SET status = 'ended', end_time = NOW(), duration = $2] *)
Definition set_ended (d : Z) (now : Timestamp) (s : Stream) : Stream :=
  mkStream (Stream_id s) (user_id s) (title s) (description s) (ingest_key s)
    ended (start_time s) (Some now) (Some d) (viewer_count s)
    (max_viewers s) (recording_path s) (hls_path s) (thumbnail_path s)
    (metadata s) (created_at s) (updated_at s).

(** [SET recording_path = $1, hls_path = $2] *)
Definition set_paths (rec hls : Path) (now : Timestamp) (s : Stream) : Stream :=
  mkStream (Stream_id s) (user_id s) (title s) (description s) (ingest_key s)
    (status s) (start_time s) (end_time s) (duration s) (viewer_count s)
    (max_viewers s) (Some rec) (Some hls) (thumbnail_path s)
    (metadata s) (created_at s) (updated_at s).

(** [SET metadata = $1] *)
Definition set_metadata (m : Json) (now : Timestamp) (s : Stream) : Stream :=
  mkStream (Stream_id s) (user_id s) (title s) (description s) (ingest_key s)
    (status s) (start_time s) (end_time s) (duration s) (viewer_count s)
    (max_viewers s) (recording_path s) (hls_path s) (thumbnail_path s)
    m (created_at s) (updated_at s).

(** [SELECT * FROM streams WHERE id = $1] *)
Definition select_by_id (streamId : string) : Prim (list Stream) :=
  λ w, (Ok (List.filter (has_id streamId) (streams w)), w).

(** [SELECT .. FROM streams WHERE ingest_key = $1] *)
Definition select_by_ingest_key (ingestKey : string) : Prim (list Stream) :=
  λ w, (Ok (List.filter (has_ingest_key ingestKey) (streams w)), w).

(** [UPDATE streams SET .. WHERE id = $n]: every row with that id gets the
    assignment, then the trigger.  [columns] names what is assigned. *)
Definition update_row (streamId : string) (assign : Timestamp → Stream → Stream)
    (now : Timestamp) (s : Stream) : Stream :=
  if has_id streamId s then update_updated_at_column now (assign now s) else s.

Definition update_streams (streamId : string) (columns : list string)
    (assign : Timestamp → Stream → Stream) : Prim unit :=
  λ w, (Ok tt,
        emit (SqlUpdate streamId columns)
          (with_streams (map (update_row streamId assign (db_now w))) w)).

(** [INSERT INTO stream_events (stream_id, event_type, event_data)]:
    [stream_id] references [streams(id)], [timestamp] defaults to NOW(). *)
Definition insert_stream_event (streamId eventType : string) (eventData : Json)
    : Prim unit :=
  λ w, if existsb (has_id streamId) (streams w)
       then (Ok tt,
             emit (SqlInsertEvent streamId eventType)
               (with_stream_events
                  (λ l, l ++ [mkStreamEvent streamId eventType eventData
                                (db_now w)]) w))
       else (Err (SqlError "stream_events_stream_id_fkey"), w).

(** [DELETE FROM streams WHERE id = $1]; the events of the stream go with
    it ([ON DELETE CASCADE]). *)
Definition delete_from_streams (streamId : string) : Prim unit :=
  λ w, (Ok tt,
        emit (SqlDelete streamId)
          (with_stream_events
             (List.filter (λ e, negb (String.eqb (ev_stream_id e) streamId)))
             (with_streams (List.filter (λ s, negb (has_id streamId s))) w))).

(** [INSERT INTO streams (user_id, title, description, ingest_key, metadata)
    .. RETURNING *]: the other columns take their defaults; [id] is the
    primary key and [ingest_key] is unique. *)
Definition insert_into_streams (d : StreamData) (meta : Json) : Prim Stream :=
  λ w, let row :=
         mkStream (gen_random_uuid w (uuid_calls w)) (sd_userId d) (sd_title d)
           (sd_description d) (sd_ingestKey d) created None None None 0 0
           None None None meta (db_now w) (db_now w) in
       let w' := with_uuid_calls S w in
       if existsb (has_id (Stream_id row)) (streams w)
       then (Err (SqlError "streams_pkey"), w')
       else if existsb (has_ingest_key (ingest_key row)) (streams w)
       then (Err (SqlError "streams_ingest_key_key"), w')
       else (Ok row,
             emit (SqlInsertStream (Stream_id row))
               (with_streams (λ l, l ++ [row]) w')).

(** ** The Node process and the operating system *)

Definition Date_now : Prim Timestamp := λ w, (Ok (js_now w), w).

Definition process_env : Prim Config := λ w, (Ok (cfg w), w).

Definition recordingProcesses_get (streamId : string) : Prim (option nat) :=
  λ w, (Ok (recordingProcesses w !! streamId), w).

Definition recordingProcesses_set (streamId : string) (pid : nat) : Prim unit :=
  λ w, (Ok tt, with_recordingProcesses (insert streamId pid) w).

Definition recordingProcesses_delete (streamId : string) : Prim unit :=
  λ w, (Ok tt, with_recordingProcesses (delete streamId) w).

Definition existsSync (p : Path) : Prim bool :=
  λ w, (Ok (bool_decide (p ∈ files w)), w).

(** [fs.mkdirSync(p, { recursive: true })] *)
Definition mkdirSync (p : Path) : Prim unit :=
  λ w, if bool_decide (p ∈ denied w)
       then (Err (FsError "EACCES" p), w)
       else (Ok tt, emit (Mkdir p) (with_files (λ fsys, {[p]} ∪ fsys) w)).

(** [fs.unlinkSync(p)] *)
Definition unlinkSync (p : Path) : Prim unit :=
  λ w, if bool_decide (p ∈ denied w)
       then (Err (FsError "EACCES" p), w)
       else if bool_decide (p ∈ files w)
       then (Ok tt, emit (Unlink p) (with_files (λ fsys, fsys ∖ {[p]}) w))
       else (Err (FsError "ENOENT" p), w).

(** [fs.rmSync(p, { recursive: true, force: true })] *)
Definition rmSync (p : Path) : Prim unit :=
  λ w, if bool_decide (p ∈ denied w)
       then (Err (FsError "EACCES" p), w)
       else (Ok tt,
             emit (Rm p)
               (with_files (filter (λ q, ¬ (p `prefix_of` q))) w)).

Definition set_child_state (st : ChildState) (c : ChildProcess) : ChildProcess :=
  mkChild (child_stream c) (child_input c) (child_hls c) (child_recording c) st.

(** [spawn('ffmpeg', ffmpegArgs)] followed by the registration of the
    'close' and 'error' listeners, which capture [streamId].  A missing
    binary does not make [spawn] throw: the child object is returned and
    its 'error' event follows. *)
Definition spawn_ffmpeg (streamId input : string) (hls rec : Path) : Prim nat :=
  λ w, let pid := length (children w) in
       let st := if spawn_enoent w then SpawnFailed else Running in
       (Ok pid,
        emit (Spawn pid streamId)
          (with_children (λ l, l ++ [mkChild streamId input hls rec st]) w)).

(** [process.kill('SIGTERM')] *)
Definition kill (pid : nat) : Prim unit :=
  λ w, (Ok tt,
        emit (Kill pid)
          (with_children
             (λ l, match l !! pid with
                   | Some c =>
                       match child_state c with
                       | Running => <[pid := set_child_state Terminating c]> l
                       | _ => l
                       end
                   | None => l
                   end) w)).

(** The listeners of [startRecording]:
    [ffmpeg.on('close', ..)] and [ffmpeg.on('error', ..)]. *)
Definition ffmpeg_on_close (streamId : string) (w : World) : World :=
  with_recordingProcesses (delete streamId) w.

Definition ffmpeg_on_error (streamId : string) (w : World) : World :=
  with_recordingProcesses (delete streamId) w.

(** The child [pid] ends (it exits, is killed, or could not be spawned) and
    Node delivers the event to the listener. *)
Definition child_exits (pid : nat) (w : World) : World :=
  match children w !! pid with
  | Some c =>
      let w' := with_children (<[pid := set_child_state Exited c]>) w in
      match child_state c with
      | Exited => w
      | SpawnFailed => ffmpeg_on_error (child_stream c) w'
      | Running | Terminating => ffmpeg_on_close (child_stream c) w'
      end
  | None => w
  end.

(** [StorageService.uploadRecording(localPath, streamId)]; the trace keeps
    the call. *)
Definition uploadRecording (localPath : Path) (streamId : string) : Prim unit :=
  λ w, (if bool_decide (localPath ∈ files w)
        then if upload_fails w then Err UploadError else Ok tt
        else Err (Error "Recording file not found"),
        emit (Upload localPath streamId) w).

(** [try { await m } catch (error) { console.error(..) }] *)
Definition try_catch {X : Type} (m : Prim X) : Prim unit :=
  λ w, (Ok tt, snd (m w)).

(** ** WebSocketManager *)

Definition set_received (msgs : list WebSocketMessage) (c : WebSocket) : WebSocket :=
  mkSocket (ws_id c) (readyState c) (link c) msgs (error_pending c).

Definition set_error_pending (c : WebSocket) : WebSocket :=
  mkSocket (ws_id c) (readyState c) (link c) (received c) true.

(** [client.send(messageStr)] *)
Definition ws_send (message : WebSocketMessage) (c : WebSocket) : Result WebSocket :=
  match link c with
  | Delivers => Ok (set_received (received c ++ [message]) c)
  | ErrorEvent => Ok (set_error_pending c)
  | Throws => Err (SendError (ws_id c))
  end.

(** [this.clients.forEach(client => { if (client.readyState ===
    WebSocket.OPEN) client.send(messageStr) })]: an exception leaves the
    loop. *)
Fixpoint forEach_send (message : WebSocketMessage) (cs : list WebSocket)
    : Result unit * list WebSocket :=
  match cs with
  | [] => (Ok tt, [])
  | c :: rest =>
      if bool_decide (readyState c = OPEN)
      then match ws_send message c with
           | Ok c' =>
               let '(r, rest') := forEach_send message rest in (r, c' :: rest')
           | Err e => (Err e, c :: rest)
           end
      else let '(r, rest') := forEach_send message rest in (r, c :: rest')
  end.

Definition broadcast (type : string) (data : Json) : Prim unit :=
  λ w, let message := mkMessage type data (js_now w) in
       let '(r, cs) := forEach_send message (clients w) in
       (r, with_clients (λ _, cs) w).

Definition clients_delete (ws : nat) (w : World) : World :=
  with_clients (List.filter (λ c, negb (Nat.eqb (ws_id c) ws))) w.

Definition ws_on_error (ws : nat) (w : World) : World := clients_delete ws w.

(** The queued 'error' events are delivered to their listeners. *)
Definition deliver_error_events (w : World) : World :=
  fold_left (λ w' c, if error_pending c then ws_on_error (ws_id c) w' else w')
    (clients w) w.


(** ** StreamManager *)

(** JavaScript truthiness of an environment variable. *)
Definition env_set (v : option string) : bool :=
  match v with
  | Some s => negb (String.eqb s "")
  | None => false
  end.

Definition getStream (streamId : string) : Prog (option Stream) :=
  let* rows := await (select_by_id streamId) in
  Ret (match rows with r :: _ => Some r | [] => None end).

(** JavaScript truthiness of a JSON value. *)
Definition truthy (v : Json) : bool :=
  match v with
  | JNull | JBool false | JNum 0 | JStr "" => false
  | _ => true
  end.

(** [streamData.metadata || {}] *)
Definition metadata_or_empty (v : option Json) : Json :=
  match v with
  | Some m => if truthy m then m else JObj []
  | None => JObj []
  end.

Definition createStream (streamData : StreamData) : Prog Stream :=
  await (insert_into_streams streamData
           (metadata_or_empty (sd_metadata streamData))).

Definition logStreamEvent (streamId eventType : string) (eventData : Json)
    : Prog unit :=
  await (insert_stream_event streamId eventType eventData).

Definition startRecording (stream : Stream) : Prog unit :=
  let streamId := Stream_id stream in
  let* env := sync process_env in
  let hlsDir := path_join (HLS_PATH env) streamId in
  let recordingPath := path_join (RECORDINGS_PATH env) (streamId +:+ ".mp4") in
  let* present := sync (existsSync hlsDir) in
  let* _ := (if present : bool then Ret tt else sync (mkdirSync hlsDir)) in
  let* ffmpeg :=
    sync (spawn_ffmpeg streamId
            ("rtmp://localhost:1935/live/" +:+ ingest_key stream)
            (path_join hlsDir "index.m3u8") recordingPath) in
  let* _ := sync (recordingProcesses_set streamId ffmpeg) in
  await (update_streams streamId ["recording_path"; "hls_path"]
           (set_paths recordingPath (path_join hlsDir "index.m3u8"))).

Definition stopRecording (streamId : string) : Prog unit :=
  let* process := sync (recordingProcesses_get streamId) in
  match process with
  | Some pid =>
      let* _ := sync (kill pid) in
      sync (recordingProcesses_delete streamId)
  | None => Ret tt
  end.

Definition startStream (streamId : string) : Prog unit :=
  let* found := getStream streamId in
  match found with
  | None => Throw NotFound
  | Some stream =>
      if bool_decide (status stream = live) then Throw AlreadyLive
      else
        let* _ := await (update_streams streamId ["status"; "start_time"] set_live) in
        let* _ := startRecording stream in
        let* _ :=
          logStreamEvent streamId "stream_started"
            (JObj [("title", JStr (title stream));
                   ("ingest_key", JStr (ingest_key stream))]) in
        sync (broadcast "stream_started"
                (JObj [("streamId", JStr streamId);
                       ("title", JStr (title stream));
                       ("status", JStr "live")]))
  end.

(** [stream.start_time ? Math.floor((Date.now() - new
    Date(stream.start_time).getTime()) / 1000) : 0] *)
Definition elapsed_seconds (started : option Timestamp) (now : Timestamp) : Z :=
  match started with
  | Some t => (now - t) / 1000
  | None => 0
  end.

Definition stopStream (streamId : string) : Prog unit :=
  let* found := getStream streamId in
  match found with
  | None => Throw NotFound
  | Some stream =>
      let* _ := stopRecording streamId in
      let* now := sync Date_now in
      let duration := elapsed_seconds (start_time stream) now in
      let* _ :=
        await (update_streams streamId ["status"; "end_time"; "duration"]
                 (set_ended duration)) in
      let* env := sync process_env in
      let* _ :=
        match recording_path stream with
        | Some recording =>
            if env_set (S3_BUCKET env) || env_set (MINIO_ENDPOINT env)
            then await (try_catch (uploadRecording recording streamId))
            else Ret tt
        | None => Ret tt
        end in
      let* _ :=
        logStreamEvent streamId "stream_ended"
          (JObj [("duration", JNum duration);
                 ("max_viewers", JNum (max_viewers stream))]) in
      sync (broadcast "stream_ended"
              (JObj [("streamId", JStr streamId);
                     ("duration", JNum duration);
                     ("status", JStr "ended")]))
  end.

Definition updateStreamMetadata (streamId : string) (meta : Json) : Prog unit :=
  await (update_streams streamId ["metadata"] (set_metadata meta)).

Definition deleteStream (streamId : string) : Prog unit :=
  let* found := getStream streamId in
  match found with
  | None => Throw NotFound
  | Some stream =>
      let* _ := stopRecording streamId in
      let* _ :=
        match recording_path stream with
        | Some recording =>
            let* present := sync (existsSync recording) in
            if present : bool then sync (unlinkSync recording) else Ret tt
        | None => Ret tt
        end in
      let* _ :=
        match hls_path stream with
        | Some manifest =>
            let hlsDir := path_dirname manifest in
            let* present := sync (existsSync hlsDir) in
            if present : bool then sync (rmSync hlsDir) else Ret tt
        | None => Ret tt
        end in
      await (delete_from_streams streamId)
  end.

(** ** routes/rtmp.ts *)

Record Response : Type := mkResponse {
  res_status : nat;
  res_body : string
}.

(** [router.post('/publish', ..)] with [req.body.name = ingestKey] *)
Definition publish (ingestKey : string) : Prog Response :=
  let* rows := await (select_by_ingest_key ingestKey) in
  match rows with
  | [] => Ret (mkResponse 403 "Invalid ingest key")
  | row :: _ =>
      let streamId := Stream_id row in
      let* _ := await (update_streams streamId ["status"; "start_time"] set_live) in
      let* _ :=
        await (insert_stream_event streamId "rtmp_publish_started"
                 (JObj [("ingestKey", JStr ingestKey)])) in
      Ret (mkResponse 200 "OK")
  end.

(** [router.post('/unpublish', ..)] with [req.body.name = ingestKey] *)
Definition unpublish (ingestKey : string) : Prog Response :=
  let* rows := await (select_by_ingest_key ingestKey) in
  match rows with
  | [] => Ret (mkResponse 200 "OK")
  | stream :: _ =>
      let* now := sync Date_now in
      let duration := elapsed_seconds (start_time stream) now in
      let* _ :=
        await (update_streams (Stream_id stream) ["status"; "end_time"; "duration"]
                 (set_ended duration)) in
      let* _ :=
        await (insert_stream_event (Stream_id stream) "rtmp_publish_stopped"
                 (JObj [("ingestKey", JStr ingestKey);
                        ("duration", JNum duration)])) in
      Ret (mkResponse 200 "OK")
  end.

(** ** Triggers

    The five triggers of the lifecycle, with the passing of time: what the
    persisted state and the handle map are after each, when the handlers
    run one after the other. *)

Inductive Trigger : Type :=
| start (streamId : string)           (* control API: startStream *)
| stop (streamId : string)            (* control API: stopStream *)
| ingest_begun (ingestKey : string)   (* POST /publish *)
| ingest_ended (ingestKey : string)   (* POST /unpublish *)
| process_exited (pid : nat)          (* the child ends by itself *)
| time_passes (js db : Timestamp).

Definition fire (t : Trigger) (w : World) : World :=
  match t with
  | start streamId => snd (run (startStream streamId) w)
  | stop streamId => snd (run (stopStream streamId) w)
  | ingest_begun ingestKey => snd (run (publish ingestKey) w)
  | ingest_ended ingestKey => snd (run (unpublish ingestKey) w)
  | process_exited pid => child_exits pid w
  | time_passes js db => with_clocks js db w
  end.

Definition fire_all (ts : list Trigger) (w : World) : World :=
  fold_left (λ w' t, fire t w') ts w.

(** ** Observations *)

(** The row [getStream] returns. *)
Definition find_stream (streamId : string) (w : World) : option Stream :=
  List.find (has_id streamId) (streams w).

Definition status_of (streamId : string) (w : World) : option Status :=
  status <$> find_stream streamId w.

(** The subprocesses spawned so far for a stream. *)
Definition is_spawn_for (streamId : string) (e : Effect) : bool :=
  match e with
  | Spawn _ id => String.eqb id streamId
  | _ => false
  end.

Definition spawned (streamId : string) (w : World) : nat :=
  length (List.filter (is_spawn_for streamId) (trace w)).

(** The statements that assigned a column of a stream so far. *)
Definition writes_column (streamId column : string) (e : Effect) : bool :=
  match e with
  | SqlUpdate id columns =>
      String.eqb id streamId && existsb (String.eqb column) columns
  | _ => false
  end.

Definition written (streamId column : string) (w : World) : nat :=
  length (List.filter (writes_column streamId column) (trace w)).

(** The children of a stream that have not ended. *)
Definition alive_for (streamId : string) (c : ChildProcess) : bool :=
  String.eqb (child_stream c) streamId
  && bool_decide (child_state c = Running ∨ child_state c = Terminating).

Definition alive (streamId : string) (w : World) : nat :=
  length (List.filter (alive_for streamId) (children w)).

(** The lifecycle events logged for a stream. *)
Definition events_of (streamId : string) (w : World) : list StreamEvent :=
  List.filter (λ e, String.eqb (ev_stream_id e) streamId) (stream_events w).

(** The artifact directory of a stream, and whether the durable archive is
    configured. *)
Definition hlsDir_of (streamId : string) (w : World) : Path :=
  path_join (HLS_PATH (cfg w)) streamId.

Definition offload_configured (w : World) : bool :=
  env_set (S3_BUCKET (cfg w)) || env_set (MINIO_ENDPOINT (cfg w)).

(** The row the ingest callbacks resolve a key to. *)
Definition find_by_ingest_key (ingestKey : string) (w : World) : option Stream :=
  List.find (has_ingest_key ingestKey) (streams w).

(** The files that are left after [deleteStream] has looked for the
    recording and removed it. *)
Definition files_after_unlink (s : Stream) (w : World) : gset Path :=
  match recording_path s with
  | Some p => if bool_decide (p ∈ files w) then files w ∖ {[p]} else files w
  | None => files w
  end.

(** No [send] of the set throws. *)
Definition can_send (c : WebSocket) : Prop :=
  readyState c = OPEN → link c ≠ Throws.

Definition sends_ok (w : World) : Prop := Forall can_send (clients w).

(** ** Predicates on programs *)

(** [steps n t w]: the handler [t] is scheduled [n] times in a row. *)
Fixpoint steps {A : Type} (n : nat) (t : Task A) (w : World) : Task A * World :=
  match n with
  | O => (t, w)
  | S n' => let '(t', w') := step t w in steps n' t' w'
  end.

(** [μ] counts something in the world (subprocesses spawned, children
    alive).  A primitive adds [c] when it raises the count by [c] at most;
    a program is within [n] when the primitives on any of its paths add at
    most [n] between them. *)
Definition adds {X : Type} (μ : World → nat) (c : nat) (m : Prim X) : Prop :=
  ∀ w, (μ (snd (m w)) ≤ μ w + c)%nat.

Inductive within (μ : World → nat) {A : Type} : nat → Prog A → Prop :=
| within_Ret n a : within μ n (Ret a)
| within_Throw n e : within μ n (Throw e)
| within_Sync c n X (m : Prim X) k :
    adds μ c m → (∀ x, within μ n (k x)) → within μ (c + n) (Sync m k)
| within_Await c n X (m : Prim X) k :
    adds μ c m → (∀ x, within μ n (k x)) → within μ (c + n) (Await m k).

Inductive task_within (μ : World → nat) {A : Type} : nat → Task A → Prop :=
| tw_Ready n p : within μ n p → task_within μ n (Ready p)
| tw_Sent c n X (m : Prim X) k :
    adds μ c m → (∀ x, within μ n (k x)) → task_within μ (c + n) (Sent m k)
| tw_Done n r : task_within μ n (Done r).

(** [R] relates the world before and after.  A primitive keeps [R] when
    [R] holds across it; a program respects [R] when all its primitives
    keep it. *)
Definition keeps {X : Type} (R : World → World → Prop) (m : Prim X) : Prop :=
  ∀ w, R w (snd (m w)).

Inductive respects (R : World → World → Prop) {A : Type} : Prog A → Prop :=
| respects_Ret a : respects R (Ret a)
| respects_Throw e : respects R (Throw e)
| respects_Sync X (m : Prim X) k :
    keeps R m → (∀ x, respects R (k x)) → respects R (Sync m k)
| respects_Await X (m : Prim X) k :
    keeps R m → (∀ x, respects R (k x)) → respects R (Await m k).

(** An assignment of an UPDATE leaves the primary key alone. *)
Definition keeps_id (assign : Timestamp → Stream → Stream) : Prop :=
  ∀ now s, Stream_id (assign now s) = Stream_id s.

(** What the UPDATEs of the handlers can do to a state: leave it, or set
    'live' or 'ended'. *)
Definition status_step (a b : Status) : Prop := b = a ∨ b = live ∨ b = ended.

Definition row_step (s s' : Stream) : Prop :=
  Stream_id s' = Stream_id s ∧ status_step (status s) (status s').

Definition table_step (w w' : World) : Prop :=
  Forall2 row_step (streams w) (streams w').

Definition steps_status (assign : Timestamp → Stream → Stream) : Prop :=
  ∀ now s, row_step s (assign now s).

(** ** Example worlds *)

Definition example_config : Config :=
  mkConfig ["storage"; "hls"] ["storage"; "recordings"] None None.

(** An empty database at time 1000, no observer, no file. *)
Definition world_empty : World :=
  mkWorld [] [] 1000 (λ n, match n with O => "s1" | _ => "s2" end) O 1000
    ∅ [] example_config [] false ∅ ∅ false [].

(** The row [createStream] inserts. *)
Definition example_stream : Stream :=
  mkStream "s1" "u1" "Launch" None "k1" created None None None 0 0
    None None None (JObj []) 1000 1000.

Definition world_created : World :=
  snd (run (createStream (mkStreamData "u1" "Launch" None "k1" None))
         world_empty).

(** [startStream] at time 1000, then four seconds pass. *)
Definition world_live : World :=
  with_clocks 5000 5000 (snd (run (startStream "s1") world_created)).

(** [stopStream] at time 5000, then four seconds pass. *)
Definition world_ended : World :=
  with_clocks 9000 9000 (snd (run (stopStream "s1") world_live)).

(** The stream is created on a volume where its HLS directory cannot be
    created. *)
Definition world_readonly : World :=
  with_denied (λ _, {[ ["storage"; "hls"; "s1"] ]}) world_created.

(** The stream is created on a host without the [ffmpeg] binary. *)
Definition world_no_ffmpeg : World := with_spawn_enoent true world_created.

(** The stream is live, its recording exists and cannot be removed. *)
Definition world_protected : World :=
  with_denied (λ _, {[ ["storage"; "recordings"; "s1.mp4"] ]})
    (with_files (λ fsys, {[ ["storage"; "recordings"; "s1.mp4"] ]} ∪ fsys)
       world_live).

Definition example_observer (ws : nat) (l : SendOutcome) : WebSocket :=
  mkSocket ws OPEN l [] false.

(** Three connected observers; [send] throws on the second one. *)
Definition world_observed : World :=
  with_clients
    (λ _, [example_observer 1 Delivers; example_observer 2 Throws;
           example_observer 3 Delivers]) world_created.

(** Three connected observers; the connection of the second one is broken
    and reports it through its 'error' event. *)
Definition world_broken_link : World :=
  with_clients
    (λ _, [example_observer 1 Delivers; example_observer 2 ErrorEvent;
           example_observer 3 Delivers]) world_created.

(** ** StreamManager: directories, listings, analytics and shutdown *)

(** [list.forEach(x => { .. })]: an exception leaves the loop. *)
Fixpoint forEach {X : Type} (l : list X) (body : X → Prog unit) : Prog unit :=
  match l with
  | [] => Ret tt
  | x :: rest => let* _ := body x in forEach rest body
  end.




(** [ORDER BY created_at DESC] *)
Definition newest_first (a b : Stream) : Prop := created_at b ≤ created_at a.

#[global] Instance newest_first_dec : RelDecision newest_first :=
  λ a b, Z_le_dec (created_at b) (created_at a).





(** [SELECT event_type, COUNT( * ) as count FROM stream_events WHERE
    stream_id = $1 GROUP BY event_type] *)
Definition has_event_type (eventType : string) (e : StreamEvent) : bool :=
  String.eqb (event_type e) eventType.

Definition select_event_counts (streamId : string) : Prim (list (string * Z)) :=
  λ w, let evs :=
         List.filter (λ e, String.eqb (ev_stream_id e) streamId)
           (stream_events w) in
       (Ok (map (λ t, (t, Z.of_nat (length (List.filter (has_event_type t) evs))))
              (remove_dups (map event_type evs))), w).

(** [SELECT duration, max_viewers, viewer_count FROM streams WHERE id = $1] *)
Definition select_counters (streamId : string) : Prim (list (option Z * Z * Z)) :=
  λ w, (Ok (map (λ s, (duration s, max_viewers s, viewer_count s))
              (List.filter (has_id streamId) (streams w))), w).

Record Analytics : Type := mkAnalytics {
  an_duration : Z;
  an_maxViewers : Z;
  an_currentViewers : Z;
  an_events : gmap string Z
}.

(** [getStreamAnalytics(streamId)]: [events] is the [reduce] of the rows
    into an object, and [stream?.duration || 0] reads a missing row or a
    NULL as 0. *)
Definition getStreamAnalytics (streamId : string) : Prog Analytics :=
  let* eventsResult := await (select_event_counts streamId) in
  let* streamResult := await (select_counters streamId) in
  let events :=
    fold_left (λ (acc : gmap string Z) row, <[fst row := snd row]> acc)
      eventsResult ∅ in
  Ret (match streamResult with
       | (duration, max_viewers, viewer_count) :: _ =>
           mkAnalytics (default 0 duration) max_viewers viewer_count events
       | [] => mkAnalytics 0 0 0 events
       end).

(** [StreamManager.cleanup()]: every child that has a handle is sent
    SIGTERM, then the map is cleared.  The handles are visited in the
    order of the keys. *)
Definition recordingProcesses_entries : Prim (list (string * nat)) :=
  λ w, (Ok (map_to_list (recordingProcesses w)), w).

Definition recordingProcesses_clear : Prim unit :=
  λ w, (Ok tt, with_recordingProcesses (λ _, ∅) w).

Definition streamManager_cleanup : Prog unit :=
  let* entries := sync recordingProcesses_entries in
  let* _ := forEach entries (λ entry, sync (kill (snd entry))) in
  sync recordingProcesses_clear.

(** ** WebSocketManager: connections and client messages

    A socket is known by its entry in [clients]; the listeners below are
    those of the sockets in the set. *)

Definition has_ws_id (ws : nat) (c : WebSocket) : bool := Nat.eqb (ws_id c) ws.


(** [if (ws.readyState === WebSocket.OPEN) ws.send(..)] on the socket
    [ws] of the set. *)
Fixpoint send_to (ws : nat) (message : WebSocketMessage) (cs : list WebSocket)
    : Result unit * list WebSocket :=
  match cs with
  | [] => (Ok tt, [])
  | c :: rest =>
      if has_ws_id ws c
      then if bool_decide (readyState c = OPEN)
           then match ws_send message c with
                | Ok c' => (Ok tt, c' :: rest)
                | Err e => (Err e, c :: rest)
                end
           else (Ok tt, c :: rest)
      else let '(r, rest') := send_to ws message rest in (r, c :: rest')
  end.

Definition sendToClient (ws : nat) (type : string) (data : Json) : Prim unit :=
  λ w, let message := mkMessage type data (js_now w) in
       let '(r, cs) := send_to ws message (clients w) in
       (r, with_clients (λ _, cs) w).


(** The first member of an object with the given key.  The members of an
    object have distinct keys. *)
Definition get_property (key : string) (members : list (string * Json))
    : option Json :=
  snd <$> List.find (λ member, String.eqb (fst member) key) members.

(** [message.type]: reading a property of [null] throws a TypeError;
    numbers, booleans, strings and arrays have no property [type]. *)
Definition message_type (message : Json) : Result (option Json) :=
  match message with
  | JNull => Err (Error "Cannot read properties of null (reading 'type')")
  | JObj members => Ok (get_property "type" members)
  | _ => Ok None
  end.

(** [value === text] *)
Definition is_string (text : string) (value : option Json) : bool :=
  match value with
  | Some (JStr s) => String.eqb s text
  | _ => false
  end.

(** [switch (message.type)]: the cases other than ['ping'] only write to
    the console. *)
Definition handleClientMessage (ws : nat) (message : Json) : Prim unit :=
  λ w, match message_type message with
       | Err e => (Err e, w)
       | Ok type =>
           if is_string "ping" type
           then sendToClient ws "pong" (JObj [("timestamp", JNum (js_now w))]) w
           else (Ok tt, w)
       end.

(** [ws.on('message', data => { try { handleClientMessage(ws,
    JSON.parse(data.toString())) } catch (error) { console.error(..) } })];
    [parsed] is [None] when [JSON.parse] throws. *)
Definition ws_on_message (ws : nat) (parsed : option Json) (w : World) : World :=
  match parsed with
  | Some message => snd (try_catch (handleClientMessage ws message) w)
  | None => w
  end.

(** A parsed message whose [type] is the string ['ping']. *)
Definition is_ping (parsed : option Json) : bool :=
  match parsed with
  | Some (JObj members) => is_string "ping" (get_property "type" members)
  | _ => false
  end.


Definition pong (now : Timestamp) : WebSocketMessage :=
  mkMessage "pong" (JObj [("timestamp", JNum now)]) now.

(** ** routes/streams.ts

    The handlers of [streamRoutes(streamManager)].  [user] is
    [req.user.id], set by the authentication middleware; an exception of
    a handler goes to the error handler of the application.  The two Joi
    schemas are given by their [validate] functions. *)

Record CreateStreamBody : Type := mkCreateStreamBody {
  cb_title : string;
  cb_description : option string;
  cb_metadata : option Json
}.

Record Joi : Type := mkJoi {
  (* createStreamSchema.validate(req.body): error.details[0].message, or value *)
  createStreamSchema : Json → string + CreateStreamBody;
  (* updateQuizSchema.validate(req.body): .. or value.questions *)
  updateQuizSchema : Json → string + list Json
}.

Inductive Body : Type :=
| error_body (error : string)
| created_body (message : string) (stream : Stream)
    (ingestUrl playbackUrl : string)
| status_body (message streamId status : string)
| streams_body (streams : list Stream) (page limit total pages : Z)
| stream_body (stream : Stream)
| quiz_body (message streamId : string) (questionsCount : Z)
    (quizEnabled : bool)
| deleted_body (message streamId : string)
| analytics_body (analytics : Analytics).

Record HttpResponse : Type := mkHttpResponse {
  http_status : nat;
  http_body : Body
}.

(** [router.post('/', ..)]; [ingestKey] is the value of [uuidv4()] and
    [PORT] is [process.env.PORT]. *)
Definition post_streams (joi : Joi) (PORT : option string) (user : string)
    (body : Json) (ingestKey : string) : Prog HttpResponse :=
  match createStreamSchema joi body with
  | inl message => Ret (mkHttpResponse 400 (error_body message))
  | inr value =>
      let* result :=
        createStream (mkStreamData user (cb_title value) (cb_description value)
                        ingestKey (cb_metadata value)) in
      Ret (mkHttpResponse 201
             (created_body "Stream created successfully" result
                ("rtmp://localhost:1935/live/" +:+ ingestKey)
                ("http://localhost:"
                 +:+ (match PORT with
                      | Some p => if env_set PORT then p else "3001"
                      | None => "3001"
                      end)
                 +:+ "/hls/" +:+ Stream_id result +:+ "/index.m3u8")))
  end.

(** [router.post('/:id/start', ..)] *)
Definition post_start (user streamId : string) : Prog HttpResponse :=
  let* stream := getStream streamId in
  match stream with
  | None => Ret (mkHttpResponse 404 (error_body "Stream not found"))
  | Some stream =>
      if negb (String.eqb (user_id stream) user)
      then Ret (mkHttpResponse 403 (error_body "Access denied"))
      else
        let* _ := startStream streamId in
        Ret (mkHttpResponse 200
               (status_body "Stream started successfully" streamId "live"))
  end.

(** [router.post('/:id/stop', ..)] *)
Definition post_stop (user streamId : string) : Prog HttpResponse :=
  let* stream := getStream streamId in
  match stream with
  | None => Ret (mkHttpResponse 404 (error_body "Stream not found"))
  | Some stream =>
      if negb (String.eqb (user_id stream) user)
      then Ret (mkHttpResponse 403 (error_body "Access denied"))
      else
        let* _ := stopStream streamId in
        Ret (mkHttpResponse 200
               (status_body "Stream stopped successfully" streamId "ended"))
  end.




(** [router.get('/:id', ..)] *)
Definition get_stream (user streamId : string) : Prog HttpResponse :=
  let* stream := getStream streamId in
  match stream with
  | None => Ret (mkHttpResponse 404 (error_body "Stream not found"))
  | Some stream =>
      if negb (String.eqb (user_id stream) user)
      then Ret (mkHttpResponse 403 (error_body "Access denied"))
      else Ret (mkHttpResponse 200 (stream_body stream))
  end.

(** The own properties of a value, as the spread [{ ...value }] copies
    them: the members of an object, the items of an array and the
    characters of a string under their indices. *)
Definition own_properties (v : Json) : list (string * Json) :=
  match v with
  | JObj members => members
  | JArr items => imap (λ i item, (pretty i, item)) items
  | JStr s =>
      imap (λ i c, (pretty i, JStr (String c EmptyString)))
        (list_ascii_of_string s)
  | _ => []
  end.

(** [key: value] in an object literal, after a spread: the value of an
    existing key is replaced where it is, a new key comes last. *)
Fixpoint set_property (key : string) (value : Json)
    (members : list (string * Json)) : list (string * Json) :=
  match members with
  | [] => [(key, value)]
  | (k, v) :: rest =>
      if String.eqb k key then (k, value) :: rest
      else (k, v) :: set_property key value rest
  end.

(** [router.put('/:id/quiz-questions', ..)] *)
Definition put_quiz_questions (joi : Joi) (user streamId : string) (body : Json)
    : Prog HttpResponse :=
  match updateQuizSchema joi body with
  | inl message => Ret (mkHttpResponse 400 (error_body message))
  | inr questions =>
      let* stream := getStream streamId in
      match stream with
      | None => Ret (mkHttpResponse 404 (error_body "Stream not found"))
      | Some stream =>
          if negb (String.eqb (user_id stream) user)
          then Ret (mkHttpResponse 403 (error_body "Access denied"))
          else
            let quizEnabled := (0 <? length questions)%nat in
            let* now := sync Date_now in
            let updatedMetadata :=
              JObj (set_property "quizUpdatedAt" (JNum now)
                      (set_property "quizEnabled" (JBool quizEnabled)
                         (set_property "quizQuestions" (JArr questions)
                            (own_properties (metadata stream))))) in
            let* _ := updateStreamMetadata streamId updatedMetadata in
            Ret (mkHttpResponse 200
                   (quiz_body "Quiz questions updated successfully" streamId
                      (Z.of_nat (length questions)) quizEnabled))
      end
  end.

(** [router.delete('/:id', ..)] *)
Definition delete_stream (user streamId : string) : Prog HttpResponse :=
  let* stream := getStream streamId in
  match stream with
  | None => Ret (mkHttpResponse 404 (error_body "Stream not found"))
  | Some stream =>
      if negb (String.eqb (user_id stream) user)
      then Ret (mkHttpResponse 403 (error_body "Access denied"))
      else
        let* _ := deleteStream streamId in
        Ret (mkHttpResponse 200
               (deleted_body "Stream deleted successfully" streamId))
  end.

(** [router.get('/:id/analytics', ..)] *)
Definition get_analytics (user streamId : string) : Prog HttpResponse :=
  let* stream := getStream streamId in
  match stream with
  | None => Ret (mkHttpResponse 404 (error_body "Stream not found"))
  | Some stream =>
      if negb (String.eqb (user_id stream) user)
      then Ret (mkHttpResponse 403 (error_body "Access denied"))
      else
        let* analytics := getStreamAnalytics streamId in
        Ret (mkHttpResponse 200 (analytics_body analytics))
  end.

(** ** Further observations *)

(** The primary key and the UNIQUE constraint of table [streams]. *)
Definition unique_streams (w : World) : Prop :=
  NoDup (map Stream_id (streams w)) ∧ NoDup (map ingest_key (streams w)).

(** The ids and the ingest keys of the table are what they were. *)
Definition keys_kept (w w' : World) : Prop :=
  map Stream_id (streams w') = map Stream_id (streams w)
  ∧ map ingest_key (streams w') = map ingest_key (streams w).

Definition keeps_key (assign : Timestamp → Stream → Stream) : Prop :=
  ∀ now s, ingest_key (assign now s) = ingest_key s.

(** The two tables are what they were. *)
Definition same_tables (w w' : World) : Prop :=
  streams w' = streams w ∧ stream_events w' = stream_events w.

(** The handle map and the children are what they were. *)
Definition same_processes (w w' : World) : Prop :=
  recordingProcesses w' = recordingProcesses w ∧ children w' = children w.

(** A handle refers to a child of its stream that has neither been
    signalled nor ended. *)
Definition handle_ok (w : World) (streamId : string) (pid : nat) : Prop :=
  ∃ c, children w !! pid = Some c
       ∧ child_stream c = streamId
       ∧ (child_state c = Running ∨ child_state c = SpawnFailed).

Definition handles_ok (w : World) : Prop :=
  ∀ streamId pid,
    recordingProcesses w !! streamId = Some pid → handle_ok w streamId pid.

(** What is outside the database: the handle map, the children, the files
    and the observers. *)
Definition outside_kept (w w' : World) : Prop :=
  recordingProcesses w' = recordingProcesses w
  ∧ children w' = children w
  ∧ files w' = files w
  ∧ clients w' = clients w.

(** The signals sent and the subprocesses spawned so far. *)
Definition is_process_effect (e : Effect) : bool :=
  match e with
  | Spawn _ _ | Kill _ => true
  | _ => false
  end.

Definition process_effects (w : World) : list Effect :=
  List.filter is_process_effect (trace w).

(** The row, the handle and the events of every stream other than
    [streamId] are what they were. *)
Definition others_kept (streamId : string) (w w' : World) : Prop :=
  ∀ other, other ≠ streamId →
    find_stream other w' = find_stream other w
    ∧ recordingProcesses w' !! other = recordingProcesses w !! other
    ∧ events_of other w' = events_of other w.

(** The uploads to the storage service attempted so far. *)
Definition is_upload (e : Effect) : bool :=
  match e with
  | Upload _ _ => true
  | _ => false
  end.

Definition uploads (w : World) : list Effect := List.filter is_upload (trace w).

Definition same_files (w w' : World) : Prop := files w' = files w.

(** [world_live] with the durable archive configured and out of reach:
    every upload fails. *)
Definition world_archive_down : World :=
  mkWorld (streams world_live) (stream_events world_live) (db_now world_live)
    (gen_random_uuid world_live) (uuid_calls world_live) (js_now world_live)
    (recordingProcesses world_live) (clients world_live)
    (mkConfig ["storage"; "hls"] ["storage"; "recordings"] (Some "archive") None)
    (children world_live) (spawn_enoent world_live) (files world_live)
    (denied world_live) true (trace world_live).


(** A validator that accepts the bodies that are objects: a title taken
    from the member [title], no description, the member [metadata]; the
    questions are the items of the member [questions]. *)
Definition example_joi : Joi :=
  mkJoi
    (λ body, match body with
             | JObj members =>
                 match get_property "title" members with
                 | Some (JStr t) =>
                     inr (mkCreateStreamBody t None
                            (get_property "metadata" members))
                 | _ => inl "'title' is required"
                 end
             | _ => inl "'value' must be of type object"
             end)
    (λ body, match body with
             | JObj members =>
                 match get_property "questions" members with
                 | Some (JArr items) => inr items
                 | _ => inl "'questions' is required"
                 end
             | _ => inl "'value' must be of type object"
             end).

(** A recorder that runs without a handle: no operation of the manager
    can reach it. *)
Definition orphan (pid : nat) (w : World) : Prop :=
  (∃ c, children w !! pid = Some c ∧ child_state c = Running)
  ∧ ∀ streamId, recordingProcesses w !! streamId ≠ Some pid.

(** ** StorageService (services/storage, in [rtmp.ts])

    The service and the object stores it talks to.  The stores either
    work or fail every request ([cloud_down]). *)

Record StorageEnv : Type := mkStorageEnv {
  AWS_ACCESS_KEY_ID : option string;
  AWS_SECRET_ACCESS_KEY : option string;
  env_S3_BUCKET : option string;
  env_MINIO_ENDPOINT : option string;
  MINIO_ACCESS_KEY : option string;
  MINIO_SECRET_KEY : option string;
  MINIO_PORT : option string;
  MINIO_BUCKET : option string
}.

(** The two flags the constructor computes. *)
Definition useS3 (env : StorageEnv) : bool :=
  env_set (AWS_ACCESS_KEY_ID env) && env_set (AWS_SECRET_ACCESS_KEY env)
  && env_set (env_S3_BUCKET env).

Definition useMinio (env : StorageEnv) : bool :=
  env_set (env_MINIO_ENDPOINT env) && env_set (MINIO_ACCESS_KEY env)
  && env_set (MINIO_SECRET_KEY env).

(** [process.env.X || fallback] *)
Definition env_or (v : option string) (fallback : string) : string :=
  match v with
  | Some s => if env_set v then s else fallback
  | None => fallback
  end.

Record Cloud : Type := mkCloud {
  s3_objects : gset (string * string);      (* bucket, key *)
  s3_location : string → string → string;   (* the Location of an upload *)
  minio_buckets : gset string;
  minio_objects : gset (string * string);   (* bucket, object name *)
  cloud_down : bool
}.

Definition s3_put (bucket key : string) (c : Cloud) : Cloud :=
  mkCloud ({[(bucket, key)]} ∪ s3_objects c) (s3_location c) (minio_buckets c)
    (minio_objects c) (cloud_down c).

Definition s3_deleteObject (bucket key : string) (c : Cloud) : Cloud :=
  mkCloud (s3_objects c ∖ {[(bucket, key)]}) (s3_location c) (minio_buckets c)
    (minio_objects c) (cloud_down c).

Definition minio_makeBucket (bucket : string) (c : Cloud) : Cloud :=
  mkCloud (s3_objects c) (s3_location c) ({[bucket]} ∪ minio_buckets c)
    (minio_objects c) (cloud_down c).

(** [minio.fPutObject(bucket, name, ..)]: the bucket has to exist. *)
Definition minio_fPutObject (bucket name : string) (c : Cloud)
    : Result unit * Cloud :=
  if cloud_down c then (Err UploadError, c)
  else if bool_decide (bucket ∈ minio_buckets c)
  then (Ok tt,
        mkCloud (s3_objects c) (s3_location c) (minio_buckets c)
          ({[(bucket, name)]} ∪ minio_objects c) (cloud_down c))
  else (Err (Error "NoSuchBucket"), c).

Definition minio_removeObject (bucket name : string) (c : Cloud) : Cloud :=
  mkCloud (s3_objects c) (s3_location c) (minio_buckets c)
    (minio_objects c ∖ {[(bucket, name)]}) (cloud_down c).

(** [path.basename(localPath)] *)
Definition path_basename (p : Path) : string := List.last p "".

(** [`<folder>/${streamId}/${path.basename(localPath)}`] *)
Definition object_name (folder streamId : string) (localPath : Path) : string :=
  folder +:+ "/" +:+ streamId +:+ "/" +:+ path_basename localPath.

(** [`${process.env.MINIO_ENDPOINT}:${process.env.MINIO_PORT || 9000}/
    ${bucketName}/${fileName}`] *)
Definition minio_url (env : StorageEnv) (bucketName fileName : string) : string :=
  default "undefined" (env_MINIO_ENDPOINT env) +:+ ":"
  +:+ env_or (MINIO_PORT env) "9000" +:+ "/" +:+ bucketName +:+ "/" +:+ fileName.

(** [uploadRecording(localPath, streamId)]; [fsys] is the file system. *)
Definition storage_uploadRecording (env : StorageEnv) (fsys : gset Path)
    (localPath : Path) (streamId : string) (c : Cloud)
    : Result (option string) * Cloud :=
  if negb (bool_decide (localPath ∈ fsys))
  then (Err (Error "Recording file not found"), c)
  else
    let fileName := object_name "recordings" streamId localPath in
    if useS3 env then
      let bucket := default "undefined" (env_S3_BUCKET env) in
      if cloud_down c then (Err UploadError, c)
      else (Ok (Some (s3_location c bucket fileName)), s3_put bucket fileName c)
    else if useMinio env then
      let bucketName := env_or (MINIO_BUCKET env) "livestreams" in
      if cloud_down c then (Err UploadError, c)
      else
        let c1 := if bool_decide (bucketName ∈ minio_buckets c) then c
                  else minio_makeBucket bucketName c in
        match minio_fPutObject bucketName fileName c1 with
        | (Ok _, c2) => (Ok (Some (minio_url env bucketName fileName)), c2)
        | (Err e, c2) => (Err e, c2)
        end
    else (Ok None, c).

(** [uploadThumbnail(localPath, streamId)]: a missing file and a failed
    upload give [null]. *)
Definition storage_uploadThumbnail (env : StorageEnv) (fsys : gset Path)
    (localPath : Path) (streamId : string) (c : Cloud)
    : Result (option string) * Cloud :=
  if negb (bool_decide (localPath ∈ fsys)) then (Ok None, c)
  else
    let fileName := object_name "thumbnails" streamId localPath in
    if useS3 env then
      let bucket := default "undefined" (env_S3_BUCKET env) in
      if cloud_down c then (Ok None, c)
      else (Ok (Some (s3_location c bucket fileName)), s3_put bucket fileName c)
    else if useMinio env then
      let bucketName := env_or (MINIO_BUCKET env) "livestreams" in
      match minio_fPutObject bucketName fileName c with
      | (Ok _, c1) => (Ok (Some (minio_url env bucketName fileName)), c1)
      | (Err _, c1) => (Ok None, c1)
      end
    else (Ok None, c).

(** [text.includes(part)] *)
Definition includes (text part : string) : bool :=
  match String.index 0 part text with
  | Some _ => true
  | None => false
  end.

Definition is_slash (c : Ascii.ascii) : bool :=
  String.eqb (String c EmptyString) "/".

(** [text.split('/')] *)
Fixpoint split_slash (text : string) : list string :=
  match text with
  | EmptyString => [EmptyString]
  | String c rest =>
      if is_slash c then EmptyString :: split_slash rest
      else match split_slash rest with
           | piece :: pieces => String c piece :: pieces
           | [] => [String c EmptyString]
           end
  end.

(** [cloudUrl.split('/').slice(-2).join('/')] *)
Definition last_two_segments (cloudUrl : string) : string :=
  let pieces := split_slash cloudUrl in
  String.concat "/" (drop (length pieces - 2) pieces).

(** [deleteFile(cloudUrl)]: the two removals are in one [try]; an
    exception is logged and swallowed. *)
Definition storage_deleteFile (env : StorageEnv) (cloudUrl : string) (c : Cloud)
    : Cloud :=
  let after_s3 : Result unit * Cloud :=
    if useS3 env && includes cloudUrl "amazonaws.com"
    then if cloud_down c then (Err UploadError, c)
         else (Ok tt,
               s3_deleteObject (default "undefined" (env_S3_BUCKET env))
                 (last_two_segments cloudUrl) c)
    else (Ok tt, c) in
  match after_s3 with
  | (Err _, c1) => c1
  | (Ok _, c1) =>
      if useMinio env
         && includes cloudUrl (default "undefined" (env_MINIO_ENDPOINT env))
      then if cloud_down c1 then c1
           else minio_removeObject (env_or (MINIO_BUCKET env) "livestreams")
                  (last_two_segments cloudUrl) c1
      else c1
  end.

(** The number of ['/'] in a text. *)
Fixpoint count_slash (text : string) : nat :=
  match text with
  | EmptyString => O
  | String c rest =>
      ((if is_slash c then 1 else 0) + count_slash rest)%nat
  end.

(** A MinIO configuration, and an empty cloud that works. *)
Definition example_storage_env : StorageEnv :=
  mkStorageEnv None None None (Some "http://minio") (Some "key") (Some "secret")
    None None.

Definition example_cloud : Cloud :=
  mkCloud ∅ (λ bucket key, "https://" +:+ bucket +:+ ".s3.amazonaws.com/" +:+ key)
    ∅ ∅ false.

(** ** routes/auth.ts (in [rtmp.ts])

    Table [users], the handlers [/register], [/login] and [/verify].
    [bcryptjs] and [jsonwebtoken] are given by what they return, the Joi
    schemas by their [validate] functions. *)

Record User : Type := mkUser {
  User_id : string;
  username : string;
  email : string;
  password_hash : string;
  user_created_at : Timestamp
}.

Record AuthDb : Type := mkAuthDb {
  users : list User;
  users_uuid : nat → string;      (* the values of gen_random_uuid() *)
  users_uuid_calls : nat;
  salts_drawn : nat;              (* the salts bcrypt has generated *)
  auth_now : Timestamp
}.

Record Crypto : Type := mkCrypto {
  (* bcrypt.hash(password, 12), with the n-th salt *)
  bcrypt_hash : string → nat → string;
  (* bcrypt.compare(password, hash) *)
  bcrypt_compare : string → string → bool;
  (* jwt.sign({ userId, username }, secret, { expiresIn: '7d' }), at a time *)
  jwt_sign : string → string → Timestamp → string;
  (* decoded.userId of jwt.verify(token, secret) at a time; None: it throws *)
  jwt_verify : string → Timestamp → option string
}.

Record AuthJoi : Type := mkAuthJoi {
  (* registerSchema.validate(req.body): message, or username, email, password *)
  registerSchema : Json → string + (string * string * string);
  (* loginSchema.validate(req.body): message, or email, password *)
  loginSchema : Json → string + (string * string)
}.

Inductive AuthBody : Type :=
| auth_error (error : string)
| registered_body (message id username email : string) (createdAt : Timestamp)
    (token : string)
| login_body (message id username email token : string)
| verified_body (valid : bool) (id username email : string).

Record AuthResponse : Type := mkAuthResponse {
  auth_status : nat;
  auth_body : AuthBody
}.

(** [INSERT INTO users (username, email, password_hash) .. RETURNING ..] *)
Definition insert_into_users (name mail hash : string) (db : AuthDb)
    : Result User * AuthDb :=
  let row := mkUser (users_uuid db (users_uuid_calls db)) name mail hash
               (auth_now db) in
  let db' := mkAuthDb (users db) (users_uuid db) (S (users_uuid_calls db))
               (salts_drawn db) (auth_now db) in
  if existsb (λ u, String.eqb (User_id u) (User_id row)) (users db)
  then (Err (SqlError "users_pkey"), db')
  else if existsb (λ u, String.eqb (username u) name) (users db)
  then (Err (SqlError "users_username_key"), db')
  else if existsb (λ u, String.eqb (email u) mail) (users db)
  then (Err (SqlError "users_email_key"), db')
  else (Ok row,
        mkAuthDb (users db ++ [row]) (users_uuid db) (S (users_uuid_calls db))
          (salts_drawn db) (auth_now db)).

(** [router.post('/register', ..)] *)
Definition register (crypto : Crypto) (joi : AuthJoi) (body : Json) (db : AuthDb)
    : Result AuthResponse * AuthDb :=
  match registerSchema joi body with
  | inl message => (Ok (mkAuthResponse 400 (auth_error message)), db)
  | inr (name, mail, password) =>
      if existsb (λ u, String.eqb (email u) mail || String.eqb (username u) name)
           (users db)
      then (Ok (mkAuthResponse 409 (auth_error "User already exists")), db)
      else
        let passwordHash := bcrypt_hash crypto password (salts_drawn db) in
        let db1 := mkAuthDb (users db) (users_uuid db) (users_uuid_calls db)
                     (S (salts_drawn db)) (auth_now db) in
        match insert_into_users name mail passwordHash db1 with
        | (Err e, db2) => (Err e, db2)
        | (Ok user, db2) =>
            let token :=
              jwt_sign crypto (User_id user) (username user) (auth_now db2) in
            (Ok (mkAuthResponse 201
                   (registered_body "User created successfully" (User_id user)
                      (username user) (email user) (user_created_at user)
                      token)), db2)
        end
  end.

(** [router.post('/login', ..)] *)
Definition login (crypto : Crypto) (joi : AuthJoi) (body : Json) (db : AuthDb)
    : Result AuthResponse * AuthDb :=
  match loginSchema joi body with
  | inl message => (Ok (mkAuthResponse 400 (auth_error message)), db)
  | inr (mail, password) =>
      match List.filter (λ u, String.eqb (email u) mail) (users db) with
      | [] => (Ok (mkAuthResponse 401 (auth_error "Invalid credentials")), db)
      | user :: _ =>
          if bcrypt_compare crypto password (password_hash user)
          then (Ok (mkAuthResponse 200
                      (login_body "Login successful" (User_id user)
                         (username user) (email user)
                         (jwt_sign crypto (User_id user) (username user)
                            (auth_now db)))), db)
          else (Ok (mkAuthResponse 401 (auth_error "Invalid credentials")), db)
      end
  end.

Fixpoint drop_string (n : nat) (text : string) : string :=
  match n, text with
  | O, _ => text
  | S n', String _ rest => drop_string n' rest
  | S _, EmptyString => EmptyString
  end.

(** [text.replace(pattern, replacement)] with a string pattern: the first
    occurrence is replaced. *)
Fixpoint replace_first (pattern replacement text : string) : string :=
  if String.prefix pattern text
  then replacement +:+ drop_string (String.length pattern) text
  else match text with
       | EmptyString => EmptyString
       | String c rest => String c (replace_first pattern replacement rest)
       end.

(** [router.get('/verify', ..)]; [authorization] is
    [req.header('Authorization')]. *)
Definition verify (crypto : Crypto) (authorization : option string) (db : AuthDb)
    : Result AuthResponse * AuthDb :=
  let token := replace_first "Bearer " "" <$> authorization in
  if negb (env_set token)
  then (Ok (mkAuthResponse 401 (auth_error "No token provided")), db)
  else
    match jwt_verify crypto (default "" token) (auth_now db) with
    | None => (Ok (mkAuthResponse 401 (auth_error "Invalid token")), db)
    | Some userId =>
        match List.filter (λ u, String.eqb (User_id u) userId) (users db) with
        | [] => (Ok (mkAuthResponse 401 (auth_error "User not found")), db)
        | user :: _ =>
            (Ok (mkAuthResponse 200
                   (verified_body true (User_id user) (username user)
                      (email user))), db)
        end
    end.

(** The constraints of table [users]. *)
Definition unique_users (db : AuthDb) : Prop :=
  NoDup (map User_id (users db)) ∧ NoDup (map username (users db))
  ∧ NoDup (map email (users db)).

(** Time passes. *)
Definition auth_later (now : Timestamp) (db : AuthDb) : AuthDb :=
  mkAuthDb (users db) (users_uuid db) (users_uuid_calls db) (salts_drawn db) now.

(** What the callers rely on: a password matches its hash, and a token is
    accepted for seven days. *)
Definition bcrypt_ok (crypto : Crypto) : Prop :=
  ∀ password salt,
    bcrypt_compare crypto password (bcrypt_hash crypto password salt) = true.

Definition jwt_ok (crypto : Crypto) : Prop :=
  ∀ userId name issued now,
    issued ≤ now → now < issued + 7 * 24 * 60 * 60 * 1000 →
    jwt_verify crypto (jwt_sign crypto userId name issued) now = Some userId.

(** A validator that takes the members of an object as they are, and a
    toy hash and token. *)
Definition member_string (key : string) (members : list (string * Json))
    : option string :=
  match get_property key members with
  | Some (JStr s) => Some s
  | _ => None
  end.

Definition example_auth_joi : AuthJoi :=
  mkAuthJoi
    (λ body, match body with
             | JObj members =>
                 match member_string "username" members,
                       member_string "email" members,
                       member_string "password" members with
                 | Some name, Some mail, Some password =>
                     inr (name, mail, password)
                 | _, _, _ => inl "missing field"
                 end
             | _ => inl "'value' must be of type object"
             end)
    (λ body, match body with
             | JObj members =>
                 match member_string "email" members,
                       member_string "password" members with
                 | Some mail, Some password => inr (mail, password)
                 | _, _ => inl "missing field"
                 end
             | _ => inl "'value' must be of type object"
             end).

Definition example_crypto : Crypto :=
  mkCrypto (λ password salt, "hash:" +:+ password)
    (λ password hash, String.eqb hash ("hash:" +:+ password))
    (λ userId name issued, "token:" +:+ userId)
    (λ token now, if String.prefix "token:" token
                  then Some (drop_string 6 token) else None).

Definition example_auth_db : AuthDb :=
  mkAuthDb [] (λ n, match n with O => "u1" | _ => "u2" end) O O 1000.

Definition example_credentials : Json :=
  JObj [("username", JStr "ada"); ("email", JStr "ada@example.org");
        ("password", JStr "secret1")].

(** * Properties *)

(** ** Programs and their runs *)

(** Closed facts about the example worlds, by evaluation. *)
Ltac evaluate :=
  cbv zeta;
  repeat match goal with |- _ ∧ _ => split end;
  vm_compute; reflexivity.


Lemma run_bind {A B : Type} (p : Prog A) (f : A → Prog B) (w : World) :
  run (bind p f) w =
  match run p w with
  | (Ok a, w') => run (f a) w'
  | (Err e, w') => (Err e, w')
  end.
Proof.
  revert w; induction p as [a | e | X m k IH | X m k IH]; intros w; simpl;
    try reflexivity; destruct (m w) as [[x | e] w']; auto.
Qed.

(** A handler that is scheduled alone ends where [run] says. *)
Lemma steps_reach_run {A : Type} (p : Prog A) (w : World) :
  ∃ n, steps (S n) (Ready p) w = (Done (fst (run p w)), snd (run p w)).
Proof.
  revert w; induction p as [a | e | X m k IH | X m k IH]; intros w.
  - exists O. reflexivity.
  - exists O. reflexivity.
  - destruct (m w) as [[x | e] w'] eqn:Hm.
    + destruct (IH x w') as [n Hn]. exists n.
      cbn [steps step resume run] in *. rewrite Hm. exact Hn.
    + exists O. cbn [steps step resume run]. rewrite Hm. reflexivity.
  - destruct (m w) as [[x | e] w'] eqn:Hm.
    + destruct (IH x w') as [n Hn]. exists (S (S n)).
      cbn [steps step resume run] in *. rewrite Hm. exact Hn.
    + exists (S (S O)). cbn [steps step resume run]. rewrite Hm. reflexivity.
Qed.

Lemma getStream_run (streamId : string) (w : World) :
  run (getStream streamId) w = (Ok (find_stream streamId w), w).
Proof.
  unfold getStream, find_stream. simpl.
  induction (streams w) as [| s l IH]; simpl; [reflexivity |].
  destruct (has_id streamId s); [reflexivity | exact IH].
Qed.


(** ** The table [streams] under UPDATE *)

Lemma set_live_keeps_id : keeps_id set_live.
Proof. intros now s; reflexivity. Qed.

Lemma set_ended_keeps_id d : keeps_id (set_ended d).
Proof. intros now s; reflexivity. Qed.

Lemma set_paths_keeps_id rec hls : keeps_id (set_paths rec hls).
Proof. intros now s; reflexivity. Qed.

Lemma set_metadata_keeps_id m : keeps_id (set_metadata m).
Proof. intros now s; reflexivity. Qed.

Create HintDb streams.
#[local] Hint Resolve set_live_keeps_id set_ended_keeps_id set_paths_keeps_id
  set_metadata_keeps_id : streams.

Lemma has_id_update_row id id' assign now s :
  keeps_id assign → has_id id (update_row id' assign now s) = has_id id s.
Proof.
  intros Hk. unfold update_row. destruct (has_id id' s); [| reflexivity].
  unfold has_id. simpl. rewrite Hk. reflexivity.
Qed.

Lemma update_row_hit id assign now s :
  has_id id s = true →
  update_row id assign now s = update_updated_at_column now (assign now s).
Proof. intros H. unfold update_row. rewrite H. reflexivity. Qed.

Lemma update_row_miss id assign now s :
  has_id id s = false → update_row id assign now s = s.
Proof. intros H. unfold update_row. rewrite H. reflexivity. Qed.

Lemma find_update_streams id id' assign now (l : list Stream) :
  keeps_id assign →
  List.find (has_id id) (map (update_row id' assign now) l)
  = update_row id' assign now <$> List.find (has_id id) l.
Proof.
  intros Hk. induction l as [| s l IH]; simpl; [reflexivity |].
  rewrite has_id_update_row by exact Hk.
  destruct (has_id id s); [reflexivity | exact IH].
Qed.

Lemma existsb_update_streams id id' assign now (l : list Stream) :
  keeps_id assign →
  existsb (has_id id) (map (update_row id' assign now) l) = existsb (has_id id) l.
Proof.
  intros Hk. induction l as [| s l IH]; simpl; [reflexivity |].
  rewrite has_id_update_row by exact Hk. rewrite IH. reflexivity.
Qed.

Lemma find_has_id id (l : list Stream) s :
  List.find (has_id id) l = Some s → has_id id s = true.
Proof. intros H. apply find_some in H. tauto. Qed.

Lemma find_existsb id (l : list Stream) s :
  List.find (has_id id) l = Some s → existsb (has_id id) l = true.
Proof.
  intros H. apply find_some in H. apply existsb_exists. exists s. tauto.
Qed.

Lemma has_id_eq id s : has_id id s = true → Stream_id s = id.
Proof. unfold has_id. apply String.eqb_eq. Qed.

Lemma has_id_refl s : has_id (Stream_id s) s = true.
Proof. unfold has_id. apply String.eqb_refl. Qed.

Lemma filter_head_find {A} (f : A → bool) (l : list A) :
  match List.filter f l with r :: _ => Some r | [] => None end = List.find f l.
Proof.
  induction l as [| a l IH]; simpl; [reflexivity |].
  destruct (f a); [reflexivity | exact IH].
Qed.

(** ** Running a handler symbolically *)

Lemma insert_stream_event_ok id type data w :
  existsb (has_id id) (streams w) = true →
  insert_stream_event id type data w
  = (Ok tt,
     emit (SqlInsertEvent id type)
       (with_stream_events
          (λ l, l ++ [mkStreamEvent id type data (db_now w)]) w)).
Proof. intros H. unfold insert_stream_event. rewrite H. reflexivity. Qed.

Lemma broadcast_eq type data w :
  broadcast type data w
  = (fst (forEach_send (mkMessage type data (js_now w)) (clients w)),
     with_clients
       (λ _, snd (forEach_send (mkMessage type data (js_now w)) (clients w))) w).
Proof.
  unfold broadcast.
  destruct (forEach_send (mkMessage type data (js_now w)) (clients w)).
  reflexivity.
Qed.

Lemma result_eta {A : Type} (r : Result A) (w : World) :
  match r with Ok x => (Ok x, w) | Err e => (Err e, w) end = (r, w).
Proof. destruct r; reflexivity. Qed.

(** The plumbing, and the primitives that cannot fail. *)
Ltac run_prog :=
  cbn [run bind sync await getStream logStreamEvent
       select_by_id select_by_ingest_key update_streams delete_from_streams
       Date_now process_env recordingProcesses_get recordingProcesses_set
       recordingProcesses_delete existsSync spawn_ffmpeg kill try_catch
       uploadRecording snd].

(** What is left of the world after the primitives, field by field. *)
Ltac fields :=
  cbn [fst snd streams stream_events db_now gen_random_uuid uuid_calls js_now
       recordingProcesses clients cfg children spawn_enoent files denied
       upload_fails trace
       with_streams with_stream_events with_recordingProcesses with_clients
       with_children with_files with_denied with_spawn_enoent with_uuid_calls
       with_clocks emit].


(** ** Bounds that hold under every interleaving *)

Section Budget.
Variable μ : World → nat.

Lemma within_weaken {A : Type} n n' (p : Prog A) :
  within μ n p → (n ≤ n')%nat → within μ n' p.
Proof.
  intros Hp. revert n'.
  induction Hp as [n a | n e | c n X m k Hm Hk IH | c n X m k Hm Hk IH];
    intros n' Hle; try constructor.
  - replace n' with (c + (n' - c))%nat by lia.
    apply within_Sync; [exact Hm |]. intros x. apply IH. lia.
  - replace n' with (c + (n' - c))%nat by lia.
    apply within_Await; [exact Hm |]. intros x. apply IH. lia.
Qed.

Lemma within_bind {A B : Type} n n' (p : Prog A) (f : A → Prog B) :
  within μ n p → (∀ a, within μ n' (f a)) → within μ (n + n') (bind p f).
Proof.
  intros Hp Hf.
  induction Hp as [n a | n e | c n X m k Hm Hk IH | c n X m k Hm Hk IH];
    simpl.
  - apply within_weaken with n'; [apply Hf | lia].
  - constructor.
  - rewrite <- Nat.add_assoc. apply within_Sync; assumption.
  - rewrite <- Nat.add_assoc. apply within_Await; assumption.
Qed.

Lemma run_within {A : Type} n (p : Prog A) (w : World) :
  within μ n p → (μ (snd (run p w)) ≤ μ w + n)%nat.
Proof.
  intros Hp. revert w.
  induction Hp as [n a | n e | c n X m k Hm Hk IH | c n X m k Hm Hk IH];
    intros w; simpl; try lia.
  - specialize (Hm w). destruct (m w) as [[x | e] w']; simpl in *.
    + specialize (IH x w'). lia.
    + lia.
  - specialize (Hm w). destruct (m w) as [[x | e] w']; simpl in *.
    + specialize (IH x w'). lia.
    + lia.
Qed.

Lemma resume_within {A : Type} n (p : Prog A) (w : World) :
  within μ n p →
  ∃ n', task_within μ n' (fst (resume p w))
        ∧ (μ (snd (resume p w)) + n' ≤ μ w + n)%nat.
Proof.
  intros Hp. revert w.
  induction Hp as [n a | n e | c n X m k Hm Hk IH | c n X m k Hm Hk IH];
    intros w; simpl.
  - exists O. split; [constructor | lia].
  - exists O. split; [constructor | lia].
  - specialize (Hm w). destruct (m w) as [[x | e] w']; simpl in *.
    + destruct (IH x w') as (n' & Ht & Hle). exists n'. split; [exact Ht | lia].
    + exists O. split; [constructor | lia].
  - exists (c + n)%nat. split; [| lia]. apply tw_Sent; assumption.
Qed.

Lemma step_within {A : Type} n (t : Task A) (w : World) :
  task_within μ n t →
  ∃ n', task_within μ n' (fst (step t w))
        ∧ (μ (snd (step t w)) + n' ≤ μ w + n)%nat.
Proof.
  intros Ht. destruct Ht as [n p Hp | c n X m k Hm Hk | n r]; simpl.
  - apply resume_within. exact Hp.
  - specialize (Hm w). destruct (m w) as [[x | e] w']; simpl in *.
    + exists n. split; [constructor; apply Hk | lia].
    + exists O. split; [repeat constructor | lia].
  - exists O. split; [constructor | lia].
Qed.

(** Whatever the schedule, two handlers add no more than their budgets. *)
Lemma interleave_within {A B : Type} (schedule : list bool) n1 n2
    (t1 : Task A) (t2 : Task B) (w : World) :
  task_within μ n1 t1 → task_within μ n2 t2 →
  (μ (snd (interleave schedule t1 t2 w)) ≤ μ w + n1 + n2)%nat.
Proof.
  revert n1 n2 t1 t2 w.
  induction schedule as [| b rest IH]; intros n1 n2 t1 t2 w H1 H2; simpl.
  - lia.
  - destruct b.
    + destruct (step_within _ _ w H2) as (n' & Ht & Hle).
      destruct (step t2 w) as [t2' w']; simpl in *.
      specialize (IH _ _ _ _ w' H1 Ht). lia.
    + destruct (step_within _ _ w H1) as (n' & Ht & Hle).
      destruct (step t1 w) as [t1' w']; simpl in *.
      specialize (IH _ _ _ _ w' Ht H2). lia.
Qed.

End Budget.

(** ** Relations that hold across a handler *)

Section Invariant.
Variable R : World → World → Prop.
Hypothesis R_refl : ∀ w, R w w.
Hypothesis R_trans : ∀ w1 w2 w3, R w1 w2 → R w2 w3 → R w1 w3.

Lemma respects_bind {A B : Type} (p : Prog A) (f : A → Prog B) :
  respects R p → (∀ a, respects R (f a)) → respects R (bind p f).
Proof.
  intros Hp Hf.
  induction Hp as [a | e | X m k Hm Hk IH | X m k Hm Hk IH]; simpl;
    try constructor; auto.
Qed.

Lemma run_respects {A : Type} (p : Prog A) (w : World) :
  respects R p → R w (snd (run p w)).
Proof.
  intros Hp. revert w.
  induction Hp as [a | e | X m k Hm Hk IH | X m k Hm Hk IH]; intros w;
    simpl; auto.
  - specialize (Hm w). destruct (m w) as [[x | e] w']; simpl in *; eauto.
  - specialize (Hm w). destruct (m w) as [[x | e] w']; simpl in *; eauto.
Qed.

End Invariant.

(** ** The persisted state under the triggers *)

Lemma status_step_refl a : status_step a a.
Proof. left; reflexivity. Qed.

Lemma status_step_trans a b c :
  status_step a b → status_step b c → status_step a c.
Proof. unfold status_step. intros [-> | [-> | ->]] [-> | [-> | ->]]; auto. Qed.

Lemma table_step_refl w : table_step w w.
Proof.
  unfold table_step. induction (streams w); constructor; auto.
  split; [reflexivity | apply status_step_refl].
Qed.

Lemma table_step_trans w1 w2 w3 :
  table_step w1 w2 → table_step w2 w3 → table_step w1 w3.
Proof.
  unfold table_step. generalize (streams w1) (streams w2) (streams w3).
  intros l1 l2 l3 H12. revert l3.
  induction H12 as [| a b l1 l2 [Hid Hst] _ IH]; intros l3 H23;
    inversion H23 as [| b' c l2' l3' [Hid' Hst'] Hrest]; subst; constructor.
  - split; [congruence | eapply status_step_trans; eauto].
  - apply IH. assumption.
Qed.

Lemma table_step_same (w w' : World) :
  streams w' = streams w → table_step w w'.
Proof. unfold table_step. intros ->. apply (table_step_refl w). Qed.

Lemma table_step_find id w w' s :
  table_step w w' → find_stream id w = Some s →
  ∃ s', find_stream id w' = Some s' ∧ status_step (status s) (status s').
Proof.
  unfold table_step, find_stream.
  generalize (streams w) (streams w'). intros l l' H.
  induction H as [| a b l l' [Hid Hst] _ IH]; simpl; [discriminate |].
  unfold has_id at 1 3. rewrite Hid. fold (has_id id a).
  destruct (has_id id a).
  - intros [= <-]. eauto.
  - exact IH.
Qed.

Lemma set_live_steps : steps_status set_live.
Proof. intros now s. split; [reflexivity | right; left; reflexivity]. Qed.
Lemma set_ended_steps d : steps_status (set_ended d).
Proof. intros now s. split; [reflexivity | right; right; reflexivity]. Qed.
Lemma set_paths_steps rec hls : steps_status (set_paths rec hls).
Proof. intros now s. split; [reflexivity | left; reflexivity]. Qed.
Lemma set_metadata_steps m : steps_status (set_metadata m).
Proof. intros now s. split; [reflexivity | left; reflexivity]. Qed.

Lemma update_streams_keeps id cols assign :
  steps_status assign → keeps table_step (update_streams id cols assign).
Proof.
  intros Ha w. unfold table_step. cbn.
  induction (streams w) as [| s l IH]; constructor; [| exact IH].
  unfold update_row. destruct (has_id id s).
  - destruct (Ha (db_now w) s) as [Hid Hst]. split; assumption.
  - split; [reflexivity | apply status_step_refl].
Qed.

Lemma same_streams_keeps {X : Type} (m : Prim X) :
  (∀ w, streams (snd (m w)) = streams w) → keeps table_step m.
Proof. intros H w. apply table_step_same, H. Qed.

Lemma insert_stream_event_streams id type data w :
  streams (snd (insert_stream_event id type data w)) = streams w.
Proof. unfold insert_stream_event. destruct (existsb _ _); reflexivity. Qed.

Lemma mkdirSync_streams p w : streams (snd (mkdirSync p w)) = streams w.
Proof. unfold mkdirSync. destruct (bool_decide _); reflexivity. Qed.

Lemma broadcast_streams type data w :
  streams (snd (broadcast type data w)) = streams w.
Proof. rewrite broadcast_eq. reflexivity. Qed.

Create HintDb keeps.
#[local] Hint Resolve set_live_steps set_ended_steps set_paths_steps
  set_metadata_steps update_streams_keeps : keeps.
#[local] Hint Extern 1 (keeps table_step _) =>
  apply same_streams_keeps; intros;
  first [ reflexivity | apply insert_stream_event_streams
        | apply mkdirSync_streams | apply broadcast_streams ] : keeps.

(** Walks a handler, primitive by primitive. *)
Ltac walk_respects :=
  repeat (unfold sync, await; cbn [bind];
          match goal with
          | |- respects _ (Ret _) => apply respects_Ret
          | |- respects _ (Throw _) => apply respects_Throw
          | |- respects _ (Sync _ _) =>
              apply respects_Sync; [solve [auto with keeps] | intros ?]
          | |- respects _ (Await _ _) =>
              apply respects_Await; [solve [auto with keeps] | intros ?]
          | |- respects _ (bind _ _) => apply respects_bind; [| intros ?]
          | |- respects _ (match ?x with _ => _ end) => destruct x
          end).

Lemma startStream_respects id : respects table_step (startStream id).
Proof.
  unfold startStream, getStream, startRecording, logStreamEvent.
  walk_respects.
Qed.

Lemma stopStream_respects id : respects table_step (stopStream id).
Proof.
  unfold stopStream, getStream, stopRecording, logStreamEvent.
  walk_respects.
Qed.

Lemma publish_respects key : respects table_step (publish key).
Proof. unfold publish. walk_respects. Qed.

Lemma unpublish_respects key : respects table_step (unpublish key).
Proof. unfold unpublish. walk_respects. Qed.

Lemma child_exits_streams pid w : streams (child_exits pid w) = streams w.
Proof.
  unfold child_exits. destruct (children w !! pid) as [c |]; [| reflexivity].
  destruct (child_state c); reflexivity.
Qed.

Lemma fire_table_step t w : table_step w (fire t w).
Proof.
  destruct t; cbn [fire].
  - apply run_respects;
      [apply table_step_refl | apply table_step_trans | apply startStream_respects].
  - apply run_respects;
      [apply table_step_refl | apply table_step_trans | apply stopStream_respects].
  - apply run_respects;
      [apply table_step_refl | apply table_step_trans | apply publish_respects].
  - apply run_respects;
      [apply table_step_refl | apply table_step_trans | apply unpublish_respects].
  - apply table_step_same, child_exits_streams.
  - apply table_step_same. reflexivity.
Qed.

Lemma fire_all_table_step ts w : table_step w (fire_all ts w).
Proof.
  revert w. induction ts as [| t ts IH]; intros w; cbn [fire_all fold_left].
  - apply table_step_refl.
  - eapply table_step_trans; [apply fire_table_step | apply IH].
Qed.

(** ** [startStream], step by step *)

Lemma forEach_send_ok message cs :
  Forall can_send cs →
  fst (forEach_send message cs) = Ok tt.
Proof.
  induction 1 as [| c cs Hc _ IH]; simpl; [reflexivity |].
  destruct (bool_decide (readyState c = OPEN)) eqn:Ho.
  - apply bool_decide_eq_true in Ho. specialize (Hc Ho).
    unfold ws_send. destruct (link c); try congruence;
      destruct (forEach_send message cs); simpl in *; assumption.
  - destruct (forEach_send message cs); simpl in *; assumption.
Qed.

Lemma forEach_send_keeps_links message cs :
  Forall can_send cs →
  Forall can_send (snd (forEach_send message cs)).
Proof.
  induction 1 as [| c cs Hc Hcs IH]; simpl; [constructor |].
  destruct (bool_decide (readyState c = OPEN)) eqn:Ho.
  - unfold ws_send. destruct (link c) eqn:Hl.
    + destruct (forEach_send message cs); simpl in *. constructor; [| exact IH].
      unfold can_send. simpl. intros _. congruence.
    + destruct (forEach_send message cs); simpl in *. constructor; [| exact IH].
      unfold can_send. simpl. intros _. congruence.
    + apply bool_decide_eq_true in Ho. destruct (Hc Ho). exact Hl.
  - destruct (forEach_send message cs); simpl in *. constructor; assumption.
Qed.

(** The run of [startStream] on a stream that is not live, up to the
    creation of the HLS directory. *)
Ltac start_exec Hs Hlive :=
  unfold startStream; rewrite run_bind, getStream_run, Hs;
  rewrite (bool_decide_eq_false_2 _ Hlive);
  unfold startRecording;
  rewrite (has_id_eq _ _ (find_has_id _ _ _ Hs));
  run_prog; fields.

(** The rest of the run, after the directory is there. *)
Ltac start_finish Hs :=
  run_prog; fields;
  rewrite insert_stream_event_ok
    by (fields; rewrite !existsb_update_streams by auto with streams;
        exact (find_existsb _ _ _ Hs));
  run_prog; rewrite broadcast_eq; run_prog; rewrite ?result_eta; fields.

Lemma startStream_mkdir_fails (streamId : string) (w : World) (s : Stream) :
  find_stream streamId w = Some s → status s ≠ live →
  hlsDir_of streamId w ∉ files w → hlsDir_of streamId w ∈ denied w →
  run (startStream streamId) w
  = (Err (FsError "EACCES" (hlsDir_of streamId w)),
     snd (update_streams streamId ["status"; "start_time"] set_live w)).
Proof.
  intros Hs Hlive Hnew Hden. unfold hlsDir_of in *.
  start_exec Hs Hlive.
  rewrite (bool_decide_eq_false_2 _ Hnew). run_prog.
  unfold mkdirSync. fields. rewrite (bool_decide_eq_true_2 _ Hden).
  reflexivity.
Qed.

(** The world after a [startStream] that gets through. *)
Lemma startStream_world (streamId : string) (w : World) (s : Stream) :
  find_stream streamId w = Some s → status s ≠ live →
  hlsDir_of streamId w ∈ files w ∨ hlsDir_of streamId w ∉ denied w →
  let w' := snd (run (startStream streamId) w) in
  streams w'
  = map (update_row streamId
           (set_paths (path_join (RECORDINGS_PATH (cfg w)) (streamId +:+ ".mp4"))
              (path_join (hlsDir_of streamId w) "index.m3u8")) (db_now w))
      (map (update_row streamId set_live (db_now w)) (streams w))
  ∧ recordingProcesses w'
    = <[streamId := length (children w)]> (recordingProcesses w)
  ∧ children w'
    = children w
      ++ [mkChild streamId ("rtmp://localhost:1935/live/" +:+ ingest_key s)
            (path_join (hlsDir_of streamId w) "index.m3u8")
            (path_join (RECORDINGS_PATH (cfg w)) (streamId +:+ ".mp4"))
            (if spawn_enoent w then SpawnFailed else Running)]
  ∧ trace w'
    = trace w
      ++ [SqlUpdate streamId ["status"; "start_time"]]
      ++ (if bool_decide (hlsDir_of streamId w ∈ files w) then []
          else [Mkdir (hlsDir_of streamId w)])
      ++ [Spawn (length (children w)) streamId;
          SqlUpdate streamId ["recording_path"; "hls_path"];
          SqlInsertEvent streamId "stream_started"]
  ∧ stream_events w'
    = stream_events w
      ++ [mkStreamEvent streamId "stream_started"
            (JObj [("title", JStr (title s));
                   ("ingest_key", JStr (ingest_key s))]) (db_now w)]
  ∧ (sends_ok w → fst (run (startStream streamId) w) = Ok tt).
Proof.
  intros Hs Hlive Hdir. unfold hlsDir_of in *.
  cbv zeta.
  start_exec Hs Hlive.
  destruct (bool_decide (path_join (HLS_PATH (cfg w)) streamId ∈ files w)) eqn:Hex.
  - start_finish Hs. rewrite <- !app_assoc. repeat split; try reflexivity.
    intros Hok. apply forEach_send_ok. exact Hok.
  - apply bool_decide_eq_false in Hex. destruct Hdir as [Hdir | Hdir]; [tauto |].
    run_prog. unfold mkdirSync. fields. rewrite (bool_decide_eq_false_2 _ Hdir).
    start_finish Hs. rewrite <- !app_assoc. repeat split; try reflexivity.
    intros Hok. apply forEach_send_ok. exact Hok.
Qed.

(** ** [stopStream], [publish] and [unpublish], step by step *)

(** The world after [stopStream] on a stream that exists. *)
Lemma stopStream_world (streamId : string) (w : World) (s : Stream) :
  find_stream streamId w = Some s →
  let w' := snd (run (stopStream streamId) w) in
  streams w'
  = map (update_row streamId
           (set_ended (elapsed_seconds (start_time s) (js_now w))) (db_now w))
      (streams w)
  ∧ recordingProcesses w' = delete streamId (recordingProcesses w)
  ∧ children w'
    = match recordingProcesses w !! streamId with
      | Some pid => children (snd (kill pid w))
      | None => children w
      end
  ∧ trace w'
    = trace w
      ++ match recordingProcesses w !! streamId with
         | Some pid => [Kill pid]
         | None => []
         end
      ++ [SqlUpdate streamId ["status"; "end_time"; "duration"]]
      ++ match recording_path s with
         | Some p => if offload_configured w then [Upload p streamId] else []
         | None => []
         end
      ++ [SqlInsertEvent streamId "stream_ended"]
  ∧ stream_events w'
    = stream_events w
      ++ [mkStreamEvent streamId "stream_ended"
            (JObj [("duration", JNum (elapsed_seconds (start_time s) (js_now w)));
                   ("max_viewers", JNum (max_viewers s))]) (db_now w)]
  ∧ (sends_ok w → fst (run (stopStream streamId) w) = Ok tt ∧ sends_ok w').
Proof.
  intros Hs. cbv zeta. unfold offload_configured.
  unfold stopStream. rewrite run_bind, getStream_run, Hs.
  unfold stopRecording. run_prog.
  destruct (recordingProcesses w !! streamId) as [pid |] eqn:Hh; run_prog; fields.
  all: destruct (recording_path s) as [p |]; run_prog; fields.
  all: try (destruct (env_set _ || env_set _); run_prog; fields).
  all: rewrite insert_stream_event_ok
    by (fields; rewrite existsb_update_streams by auto with streams;
        exact (find_existsb _ _ _ Hs)).
  all: run_prog; rewrite broadcast_eq; run_prog; rewrite ?result_eta; fields.
  all: rewrite <- ?app_assoc; cbn [app].
  all: repeat split; try reflexivity.
  all: try (symmetry; apply delete_id; exact Hh).
  all: try (apply forEach_send_ok; assumption).
  all: unfold sends_ok; fields; apply forEach_send_keeps_links; assumption.
Qed.

Lemma find_by_key_rows ingestKey w :
  match List.filter (has_ingest_key ingestKey) (streams w) with
  | r :: _ => Some r
  | [] => None
  end = find_by_ingest_key ingestKey w.
Proof. apply filter_head_find. Qed.

Lemma publish_unknown_key (ingestKey : string) (w : World) :
  find_by_ingest_key ingestKey w = None →
  run (publish ingestKey) w = (Ok (mkResponse 403 "Invalid ingest key"), w).
Proof.
  intros Hk. rewrite <- find_by_key_rows in Hk. unfold publish. run_prog.
  destruct (List.filter _ _); [reflexivity | discriminate].
Qed.

(** [publish] has no guard on the state: every known key is accepted. *)
Lemma publish_run (ingestKey : string) (w : World) (row : Stream) :
  find_by_ingest_key ingestKey w = Some row →
  run (publish ingestKey) w
  = (Ok (mkResponse 200 "OK"),
     emit (SqlInsertEvent (Stream_id row) "rtmp_publish_started")
       (with_stream_events
          (λ l, l ++ [mkStreamEvent (Stream_id row) "rtmp_publish_started"
                        (JObj [("ingestKey", JStr ingestKey)]) (db_now w)])
          (emit (SqlUpdate (Stream_id row) ["status"; "start_time"])
             (with_streams
                (map (update_row (Stream_id row) set_live (db_now w))) w)))).
Proof.
  intros Hk. rewrite <- find_by_key_rows in Hk. unfold publish. run_prog.
  destruct (List.filter _ _) as [| r rest] eqn:Hf; [discriminate |].
  injection Hk as ->. run_prog.
  assert (Hin : In row (streams w)).
  { apply (proj1 (filter_In (has_ingest_key ingestKey) row (streams w))).
    rewrite Hf. left; reflexivity. }
  rewrite insert_stream_event_ok; [reflexivity |].
  fields. rewrite existsb_update_streams by auto with streams.
  apply existsb_exists. exists row. split; [exact Hin | apply has_id_refl].
Qed.

Lemma unpublish_unknown_key (ingestKey : string) (w : World) :
  find_by_ingest_key ingestKey w = None →
  run (unpublish ingestKey) w = (Ok (mkResponse 200 "OK"), w).
Proof.
  intros Hk. rewrite <- find_by_key_rows in Hk. unfold unpublish. run_prog.
  destruct (List.filter _ _); [reflexivity | discriminate].
Qed.

Lemma unpublish_run (ingestKey : string) (w : World) (row : Stream) :
  find_by_ingest_key ingestKey w = Some row →
  run (unpublish ingestKey) w
  = (Ok (mkResponse 200 "OK"),
     emit (SqlInsertEvent (Stream_id row) "rtmp_publish_stopped")
       (with_stream_events
          (λ l, l ++ [mkStreamEvent (Stream_id row) "rtmp_publish_stopped"
                        (JObj [("ingestKey", JStr ingestKey);
                               ("duration",
                                JNum (elapsed_seconds (start_time row) (js_now w)))])
                        (db_now w)])
          (emit (SqlUpdate (Stream_id row) ["status"; "end_time"; "duration"])
             (with_streams
                (map (update_row (Stream_id row)
                        (set_ended (elapsed_seconds (start_time row) (js_now w)))
                        (db_now w))) w)))).
Proof.
  intros Hk. rewrite <- find_by_key_rows in Hk. unfold unpublish. run_prog.
  destruct (List.filter _ _) as [| r rest] eqn:Hf; [discriminate |].
  injection Hk as ->. run_prog.
  assert (Hin : In row (streams w)).
  { apply (proj1 (filter_In (has_ingest_key ingestKey) row (streams w))).
    rewrite Hf. left; reflexivity. }
  rewrite insert_stream_event_ok; [reflexivity |].
  fields. rewrite existsb_update_streams by auto with streams.
  apply existsb_exists. exists row. split; [exact Hin | apply has_id_refl].
Qed.

(** ** Subprocesses under the race of [startStream] and [publish] *)

Ltac unfold_prims :=
  unfold select_by_id, select_by_ingest_key, update_streams,
    insert_stream_event, delete_from_streams, Date_now, process_env,
    recordingProcesses_get, recordingProcesses_set, recordingProcesses_delete,
    existsSync, mkdirSync, unlinkSync, rmSync, spawn_ffmpeg, kill,
    uploadRecording, try_catch.

(** A primitive adds [c] to a count that is read off the trace or off the
    table of children. *)
Ltac count_prim :=
  intros ?w; unfold spawned, alive; try rewrite broadcast_eq; unfold_prims;
  repeat match goal with
         | |- context [if ?b then _ else _] => destruct b
         end;
  fields; rewrite ?List.filter_app, ?List.length_app;
  cbn [List.filter length is_spawn_for alive_for child_stream child_state];
  repeat match goal with
         | |- context [if ?b then _ else _] => destruct b
         end;
  cbn [length]; lia.

Ltac walk_within :=
  repeat (unfold sync, await; cbn [bind];
          match goal with
          | |- within _ _ (Ret _) => apply within_Ret
          | |- within _ _ (Throw _) => apply within_Throw
          | |- within ?μ ?n (Sync _ _) =>
              first
                [ apply (within_Sync μ 0 n); [solve [count_prim] |]
                | match n with
                  | S ?n' => apply (within_Sync μ 1 n'); [solve [count_prim] |]
                  end ];
              let x := fresh "x" in
              intros x;
              match type of x with bool => destruct x | _ => idtac end
          | |- within ?μ ?n (Await _ _) =>
              first
                [ apply (within_Await μ 0 n); [solve [count_prim] |]
                | match n with
                  | S ?n' => apply (within_Await μ 1 n'); [solve [count_prim] |]
                  end ];
              let x := fresh "x" in
              intros x;
              match type of x with bool => destruct x | _ => idtac end
          | |- within _ _ (match ?x with _ => _ end) => destruct x
          end).

Lemma startStream_spawns_once streamId x :
  within (spawned x) 1 (startStream streamId).
Proof.
  unfold startStream, getStream, startRecording, logStreamEvent. walk_within.
Qed.

Lemma publish_never_spawns ingestKey x :
  within (spawned x) 0 (publish ingestKey).
Proof. unfold publish. walk_within. Qed.

Lemma startStream_one_child streamId x :
  within (alive x) 1 (startStream streamId).
Proof.
  unfold startStream, getStream, startRecording, logStreamEvent. walk_within.
Qed.

Lemma publish_no_child ingestKey x :
  within (alive x) 0 (publish ingestKey).
Proof. unfold publish. walk_within. Qed.

(** ** [createStream] *)

(** A new stream is 'created', with no [start_time], [end_time] or
    [duration]. *)
Example createStream_row :
  run (createStream (mkStreamData "u1" "Launch" None "k1" None)) world_empty
  = (Ok example_stream, world_created)
  ∧ find_stream "s1" world_created = Some example_stream
  ∧ find_by_ingest_key "k1" world_created = Some example_stream.
Proof. repeat split; reflexivity. Qed.

(** The key of a stream is taken: a second stream cannot have it. *)
Example createStream_same_key :
  fst (run (createStream (mkStreamData "u2" "Other" None "k1" None))
         world_created)
  = Err (SqlError "streams_ingest_key_key").
Proof. reflexivity. Qed.

(** ** A start trigger on a live stream *)

Lemma startStream_live_rejected (streamId : string) (w : World) (s : Stream) :
  find_stream streamId w = Some s → status s = live →
  run (startStream streamId) w = (Err AlreadyLive, w).
Proof.
  intros Hs Hlive. unfold startStream. rewrite run_bind, getStream_run, Hs.
  rewrite bool_decide_eq_true_2 by exact Hlive. reflexivity.
Qed.

Lemma startStream_not_found (streamId : string) (w : World) :
  find_stream streamId w = None →
  run (startStream streamId) w = (Err NotFound, w).
Proof.
  intros Hs. unfold startStream. rewrite run_bind, getStream_run, Hs.
  reflexivity.
Qed.

(** C1.  On the live stream ["s1"] of [world_live], whose ingest key is
    ["k1"]: the control-API start is rejected with "Stream is already live"
    and changes nothing, but the ingest-side publish signal is answered
    [200 OK], writes [start_time] again (5000 instead of 1000) and logs
    an event.  The guard of [startStream] is missing from [/publish]. *)
Theorem publish_on_live_stream_is_accepted :
  status_of "s1" world_live = Some live
  ∧ run (startStream "s1") world_live = (Err AlreadyLive, world_live)
  ∧ fst (run (publish "k1") world_live) = Ok (mkResponse 200 "OK")
  ∧ start_time <$> find_stream "s1" world_live = Some (Some 1000)
  ∧ start_time <$> find_stream "s1" (snd (run (publish "k1") world_live))
    = Some (Some 5000)
  ∧ length (stream_events (snd (run (publish "k1") world_live)))
    = S (length (stream_events world_live)).
Proof.
  split; [reflexivity |]. split.
  - apply startStream_live_rejected with (s := set_paths
      ["storage"; "recordings"; "s1.mp4"] ["storage"; "hls"; "s1"; "index.m3u8"]
      1000 (update_updated_at_column 1000 (set_live 1000 example_stream)));
      reflexivity.
  - evaluate.
Qed.

(** ** The lifecycle state under sequences of triggers *)

Lemma startStream_status (streamId : string) (w : World) (s : Stream) :
  find_stream streamId w = Some s →
  status_of streamId (fire (start streamId) w) = Some live.
Proof.
  intros Hs. cbn [fire]. unfold status_of.
  destruct (decide (status s = live)) as [Hlive | Hlive].
  - rewrite (startStream_live_rejected _ _ _ Hs Hlive). cbn [snd].
    rewrite Hs. cbn. rewrite Hlive. reflexivity.
  - assert (Hrow : status <$> find_stream streamId
             (snd (update_streams streamId ["status"; "start_time"] set_live w))
             = Some live).
    { unfold find_stream. cbn [update_streams snd]. fields.
      rewrite find_update_streams by auto with streams.
      fold (find_stream streamId w). rewrite Hs. cbn.
      unfold update_row. rewrite (find_has_id _ _ _ Hs). reflexivity. }
    destruct (decide (hlsDir_of streamId w ∈ files w)) as [Hex | Hex].
    + destruct (startStream_world _ _ _ Hs Hlive (or_introl Hex)) as (Hst & _).
      unfold find_stream. rewrite Hst.
      rewrite !find_update_streams by auto with streams.
      fold (find_stream streamId w). rewrite Hs. cbn [fmap option_fmap option_map].
      rewrite !update_row_hit
        by (rewrite ?has_id_update_row by auto with streams;
            exact (find_has_id _ _ _ Hs)).
      reflexivity.
    + destruct (decide (hlsDir_of streamId w ∈ denied w)) as [Hden | Hden].
      * rewrite (startStream_mkdir_fails _ _ _ Hs Hlive Hex Hden). exact Hrow.
      * destruct (startStream_world _ _ _ Hs Hlive (or_intror Hden)) as (Hst & _).
        unfold find_stream. rewrite Hst.
        rewrite !find_update_streams by auto with streams.
        fold (find_stream streamId w). rewrite Hs. cbn [fmap option_fmap option_map].
        rewrite !update_row_hit
          by (rewrite ?has_id_update_row by auto with streams;
              exact (find_has_id _ _ _ Hs)).
        reflexivity.
Qed.

Lemma stopStream_status (streamId : string) (w : World) (s : Stream) :
  find_stream streamId w = Some s →
  status_of streamId (fire (stop streamId) w) = Some ended.
Proof.
  intros Hs. cbn [fire]. unfold status_of, find_stream.
  destruct (stopStream_world _ _ _ Hs) as (Hst & _). rewrite Hst.
  rewrite find_update_streams by auto with streams.
  fold (find_stream streamId w). rewrite Hs. cbn.
  unfold update_row. rewrite (find_has_id _ _ _ Hs). reflexivity.
Qed.

(** C2, as stated, fails: the stream ["s1"] of [world_ended] is in state
    'ended'; a start trigger is not rejected and the stream is 'live'
    again. *)
Lemma ended_stream_goes_live_again :
  status_of "s1" world_ended = Some ended
  ∧ fst (run (startStream "s1") world_ended) = Ok tt
  ∧ status_of "s1" (fire (start "s1") world_ended) = Some live.
Proof. evaluate. Qed.

(** C2, amended.  Whatever the sequence of triggers (start, stop,
    ingest_begun, ingest_ended, process exit, with time passing in
    between), the row of a stream stays in the table and its state is the
    one it had, 'live' or 'ended': no trigger takes a stream back to
    'created' and none sets 'error'.  A start on a 'live' stream is
    rejected and changes nothing.  No state is terminal: a start leaves
    the stream 'live' and a stop leaves it 'ended', whatever the state
    was. *)
Theorem lifecycle_state_under_triggers
    (ts : list Trigger) (w : World) (streamId : string) (s : Stream) :
  find_stream streamId w = Some s →
  (∃ s', find_stream streamId (fire_all ts w) = Some s'
         ∧ (status s' = status s ∨ status s' = live ∨ status s' = ended))
  ∧ (status s = live → run (startStream streamId) w = (Err AlreadyLive, w))
  ∧ status_of streamId (fire (start streamId) w) = Some live
  ∧ status_of streamId (fire (stop streamId) w) = Some ended.
Proof.
  intros Hs. repeat split.
  - apply (table_step_find streamId w _ s (fire_all_table_step ts w) Hs).
  - apply startStream_live_rejected. exact Hs.
  - apply (startStream_status _ _ _ Hs).
  - apply (stopStream_status _ _ _ Hs).
Qed.

Lemma lifecycle_state_under_triggers_witness :
  find_stream "s1" world_created = Some example_stream
  ∧ (∃ s', find_stream "s1"
             (fire_all [ingest_begun "k1"; start "s1"; process_exited 0;
                        time_passes 3000 3000; stop "s1"; ingest_ended "k1";
                        start "s1"] world_created) = Some s'
           ∧ (status s' = status example_stream ∨ status s' = live
              ∨ status s' = ended)).
Proof.
  split; [reflexivity |].
  apply (lifecycle_state_under_triggers _ world_created "s1" example_stream).
  reflexivity.
Defined.

(** ** The race of a control-API start and an ingest publish *)

Lemma publish_sets_live (ingestKey : string) (w : World) (row : Stream) :
  find_by_ingest_key ingestKey w = Some row →
  ∃ s', find_stream (Stream_id row) (snd (run (publish ingestKey) w)) = Some s'
        ∧ status s' = live.
Proof.
  intros Hk. rewrite (publish_run _ _ _ Hk). unfold find_stream. fields.
  rewrite find_update_streams by auto with streams.
  assert (Hin : In row (streams w)).
  { apply find_some in Hk. tauto. }
  destruct (List.find (has_id (Stream_id row)) (streams w)) as [s |] eqn:Hf.
  - exists (update_row (Stream_id row) set_live (db_now w) s). split; [reflexivity |].
    rewrite update_row_hit by exact (find_has_id _ _ _ Hf). reflexivity.
  - exfalso. apply (find_none _ _ Hf) in Hin. rewrite has_id_refl in Hin.
    discriminate.
Qed.

(** C3, as stated, fails on [world_created], where stream ["s1"] with
    ingest key ["k1"] is in state 'created'.  When the publish signal is
    handled first, the start is rejected and no subprocess is spawned at
    all; when the start has read the state before the publish commits,
    one subprocess is spawned and neither trigger is rejected. *)
Lemma race_winner_publish_spawns_nothing :
  (let '(t1, t2, w') :=
     interleave (replicate 7 true ++ replicate 3 false)
       (Ready (startStream "s1")) (Ready (publish "k1")) world_created in
   t1 = Done (Err AlreadyLive) ∧ t2 = Done (Ok (mkResponse 200 "OK"))
   ∧ spawned "s1" w' = O ∧ recordingProcesses w' !! "s1" = None)
  ∧ (let '(t1, t2, w') :=
       interleave (replicate 2 false ++ replicate 7 true ++ replicate 12 false)
         (Ready (startStream "s1")) (Ready (publish "k1")) world_created in
     t1 = Done (Ok tt) ∧ t2 = Done (Ok (mkResponse 200 "OK"))
     ∧ spawned "s1" w' = 1%nat).
Proof. split; vm_compute; repeat split; reflexivity. Qed.

(** C3, amended.  The handle map holds at most one handle per stream id,
    and at every instant of every interleaving of a control-API start and
    an ingest publish at most one subprocess has been spawned for the
    stream and at most one more child is alive: the publish handler never
    spawns.  When the publish has committed before the start reads the
    state, the start is rejected as already live and nothing is
    spawned. *)
Theorem start_publish_race
    (schedule : list bool) (w : World) (streamId ingestKey : string) :
  let w' := snd (interleave schedule (Ready (startStream streamId))
                   (Ready (publish ingestKey)) w) in
  (spawned streamId w' ≤ spawned streamId w + 1)%nat
  ∧ (alive streamId w' ≤ alive streamId w + 1)%nat
  ∧ (∀ pid pid', recordingProcesses w' !! streamId = Some pid →
                 recordingProcesses w' !! streamId = Some pid' → pid = pid')
  ∧ (∀ row, find_by_ingest_key ingestKey w = Some row →
            Stream_id row = streamId →
            let w1 := snd (run (publish ingestKey) w) in
            run (startStream streamId) w1 = (Err AlreadyLive, w1)
            ∧ spawned streamId w1 = spawned streamId w).
Proof.
  cbv zeta. repeat split.
  - rewrite <- Nat.add_0_r.
    apply (interleave_within (spawned streamId) schedule 1 0);
      constructor; [apply startStream_spawns_once | apply publish_never_spawns].
  - rewrite <- Nat.add_0_r.
    apply (interleave_within (alive streamId) schedule 1 0);
      constructor; [apply startStream_one_child | apply publish_no_child].
  - congruence.
  - destruct (publish_sets_live _ _ _ H) as (s' & Hs' & Hlive).
    rewrite H0 in Hs'. apply (startStream_live_rejected _ _ _ Hs' Hlive).
  - rewrite (publish_run _ _ _ H). unfold spawned. fields.
    rewrite !List.filter_app, !List.length_app. cbn. lia.
Qed.

Lemma start_publish_race_witness :
  find_by_ingest_key "k1" world_created = Some example_stream
  ∧ Stream_id example_stream = "s1"
  ∧ run (startStream "s1") (snd (run (publish "k1") world_created))
    = (Err AlreadyLive, snd (run (publish "k1") world_created))
  ∧ spawned "s1" (snd (run (publish "k1") world_created))
    = spawned "s1" world_created.
Proof.
  split; [reflexivity |]. split; [reflexivity |].
  destruct (start_publish_race [] world_created "s1" "k1") as (_ & _ & _ & H).
  apply (H example_stream); reflexivity.
Defined.

(** Two control-API starts do race: both read 'created' before either
    commits, both spawn, and the handle map keeps the second child only. *)
Example two_starts_race :
  let '(t1, t2, w') :=
    interleave [false; true; false; true; false; true; false; true;
                false; true; false; true; false; true; false; true;
                false; true; false; true; false; true]
      (Ready (startStream "s1")) (Ready (startStream "s1")) world_created in
  t1 = Done (Ok tt) ∧ t2 = Done (Ok tt)
  ∧ spawned "s1" w' = 2%nat ∧ alive "s1" w' = 2%nat
  ∧ recordingProcesses w' !! "s1" = Some 1%nat.
Proof. vm_compute. repeat split; reflexivity. Qed.

(** ** Resource failures during a start *)

Lemma update_live_row (streamId : string) (w : World) (s : Stream) :
  find_stream streamId w = Some s →
  find_stream streamId
    (snd (update_streams streamId ["status"; "start_time"] set_live w))
  = Some (update_updated_at_column (db_now w) (set_live (db_now w) s)).
Proof.
  intros Hs. unfold find_stream. cbn [update_streams snd]. fields.
  rewrite find_update_streams by auto with streams.
  fold (find_stream streamId w). rewrite Hs. cbn [fmap option_fmap option_map].
  rewrite update_row_hit by exact (find_has_id _ _ _ Hs). reflexivity.
Qed.

(** C4, as stated, fails on [world_readonly]: the HLS directory cannot be
    created, [startStream] throws, and the stream is left 'live'. *)
Lemma failed_start_leaves_stream_live :
  status_of "s1" world_readonly = Some created
  ∧ fst (run (startStream "s1") world_readonly)
    = Err (FsError "EACCES" ["storage"; "hls"; "s1"])
  ∧ status_of "s1" (snd (run (startStream "s1") world_readonly)) = Some live
  ∧ recordingProcesses (snd (run (startStream "s1") world_readonly)) !! "s1"
    = None.
Proof. evaluate. Qed.

(** C4, amended.  The state is set to 'live' before the recording is
    started and is not taken back.  If the creation of the artifact
    directory fails, [startStream] throws that error and the stream is
    'live' with its [start_time] set, while no handle is registered, no
    subprocess spawned and no event logged.  If the subprocess cannot be
    spawned, the handle is registered and the stream is 'live'; the
    child's 'error' event then removes the handle and the stream stays
    'live'. *)
Theorem start_resource_failure (streamId : string) (w : World) (s : Stream) :
  find_stream streamId w = Some s → status s ≠ live →
  (hlsDir_of streamId w ∉ files w → hlsDir_of streamId w ∈ denied w →
   let w' := snd (run (startStream streamId) w) in
   fst (run (startStream streamId) w)
   = Err (FsError "EACCES" (hlsDir_of streamId w))
   ∧ status_of streamId w' = Some live
   ∧ start_time <$> find_stream streamId w' = Some (Some (db_now w))
   ∧ recordingProcesses w' = recordingProcesses w
   ∧ children w' = children w
   ∧ stream_events w' = stream_events w)
  ∧ (hlsDir_of streamId w ∈ files w ∨ hlsDir_of streamId w ∉ denied w →
     spawn_enoent w = true →
     let w' := snd (run (startStream streamId) w) in
     let pid := length (children w) in
     status_of streamId w' = Some live
     ∧ recordingProcesses w' !! streamId = Some pid
     ∧ child_state <$> children w' !! pid = Some SpawnFailed
     ∧ status_of streamId (child_exits pid w') = Some live
     ∧ recordingProcesses (child_exits pid w') !! streamId = None).
Proof.
  intros Hs Hlive. split.
  - intros Hnew Hden. cbv zeta.
    rewrite (startStream_mkdir_fails _ _ _ Hs Hlive Hnew Hden). cbn [fst snd].
    unfold status_of. rewrite (update_live_row _ _ _ Hs).
    repeat split; reflexivity.
  - intros Hdir Hspawn. cbv zeta.
    pose proof (startStream_status _ _ _ Hs) as Hst. cbn [fire] in Hst.
    destruct (startStream_world _ _ _ Hs Hlive Hdir)
      as (_ & Hmap & Hch & _).
    set (w' := snd (run (startStream streamId) w)) in *.
    assert (Hchild : children w' !! length (children w)
                     = Some (mkChild streamId
                               ("rtmp://localhost:1935/live/" +:+ ingest_key s)
                               (path_join (hlsDir_of streamId w) "index.m3u8")
                               (path_join (RECORDINGS_PATH (cfg w))
                                  (streamId +:+ ".mp4")) SpawnFailed)).
    { rewrite Hch, Hspawn. apply list_lookup_middle. reflexivity. }
    repeat split.
    + exact Hst.
    + rewrite Hmap. apply lookup_insert_eq.
    + rewrite Hchild. reflexivity.
    + unfold status_of, find_stream. rewrite child_exits_streams. exact Hst.
    + unfold child_exits. rewrite Hchild. cbn [child_state child_stream].
      unfold ffmpeg_on_error. fields. apply lookup_delete_eq.
Qed.

Lemma start_resource_failure_witness :
  (find_stream "s1" world_readonly = Some example_stream
   ∧ status example_stream ≠ live
   ∧ (hlsDir_of "s1" world_readonly ∉ files world_readonly)
   ∧ (hlsDir_of "s1" world_readonly ∈ denied world_readonly)
   ∧ status_of "s1" (snd (run (startStream "s1") world_readonly)) = Some live)
  ∧ (find_stream "s1" world_no_ffmpeg = Some example_stream
     ∧ (hlsDir_of "s1" world_no_ffmpeg ∉ denied world_no_ffmpeg)
     ∧ spawn_enoent world_no_ffmpeg = true
     ∧ recordingProcesses
         (child_exits 0 (snd (run (startStream "s1") world_no_ffmpeg))) !! "s1"
       = None
     ∧ status_of "s1"
         (child_exits 0 (snd (run (startStream "s1") world_no_ffmpeg)))
       = Some live).
Proof.
  assert (H2 : status example_stream ≠ live) by discriminate.
  split.
  - assert (H1 : find_stream "s1" world_readonly = Some example_stream)
      by reflexivity.
    assert (H3 : hlsDir_of "s1" world_readonly ∉ files world_readonly)
      by (vm_compute; set_solver).
    assert (H4 : hlsDir_of "s1" world_readonly ∈ denied world_readonly)
      by (vm_compute; set_solver).
    split; [exact H1 |]. split; [exact H2 |]. split; [exact H3 |].
    split; [exact H4 |].
    destruct (start_resource_failure "s1" world_readonly example_stream H1 H2)
      as (Hfail & _).
    apply (Hfail H3 H4).
  - assert (H1 : find_stream "s1" world_no_ffmpeg = Some example_stream)
      by reflexivity.
    assert (H3 : hlsDir_of "s1" world_no_ffmpeg ∉ denied world_no_ffmpeg)
      by (vm_compute; set_solver).
    assert (H4 : spawn_enoent world_no_ffmpeg = true) by reflexivity.
    split; [exact H1 |]. split; [exact H3 |]. split; [exact H4 |].
    destruct (start_resource_failure "s1" world_no_ffmpeg example_stream H1 H2)
      as (_ & Hspawn).
    destruct (Hspawn (or_intror H3) H4) as (_ & _ & _ & Hst & Hmap).
    split; [exact Hmap | exact Hst].
Defined.

(** ** Stopping twice *)

Lemma stopStream_row (streamId : string) (w : World) (s : Stream) :
  find_stream streamId w = Some s →
  find_stream streamId (fire (stop streamId) w)
  = Some (update_updated_at_column (db_now w)
            (set_ended (elapsed_seconds (start_time s) (js_now w)) (db_now w) s)).
Proof.
  intros Hs. cbn [fire]. unfold find_stream.
  destruct (stopStream_world _ _ _ Hs) as (Hst & _). rewrite Hst.
  rewrite find_update_streams by auto with streams.
  fold (find_stream streamId w). rewrite Hs. cbn [fmap option_fmap option_map].
  rewrite update_row_hit by exact (find_has_id _ _ _ Hs). reflexivity.
Qed.

(** C5, as stated, fails on [world_live]: the second [stopStream] is not
    rejected, it returns normally. *)
Lemma second_stop_is_not_rejected :
  let w1 := snd (run (stopStream "s1") world_live) in
  fst (run (stopStream "s1") world_live) = Ok tt
  ∧ status_of "s1" w1 = Some ended
  ∧ fst (run (stopStream "s1") w1) = Ok tt
  ∧ status_of "s1" (snd (run (stopStream "s1") w1)) = Some ended.
Proof. evaluate. Qed.

(** C5, amended.  [stopStream] called twice in sequence on the same stream
    leaves the stream 'ended' after the first call; the second call is not
    rejected either: it returns normally (as long as no observer's [send]
    throws) and leaves the stream 'ended'.  Stopping is safe when no
    process handle exists: the call returns normally, and the handle map
    and the children are left as they are. *)
Theorem stopStream_twice
    (streamId : string) (w : World) (s : Stream) (js db : Timestamp) :
  find_stream streamId w = Some s → sends_ok w →
  let w1 := snd (run (stopStream streamId) w) in
  let w2 := snd (run (stopStream streamId) (with_clocks js db w1)) in
  fst (run (stopStream streamId) w) = Ok tt
  ∧ status_of streamId w1 = Some ended
  ∧ fst (run (stopStream streamId) (with_clocks js db w1)) = Ok tt
  ∧ status_of streamId w2 = Some ended
  ∧ (recordingProcesses w !! streamId = None →
     recordingProcesses w1 = recordingProcesses w ∧ children w1 = children w).
Proof.
  intros Hs Hok. cbv zeta.
  destruct (stopStream_world _ _ _ Hs) as (_ & Hmap & Hch & _ & _ & Hres).
  destruct (Hres Hok) as (Hr1 & Hok1).
  pose proof (stopStream_row _ _ _ Hs) as Hrow1. cbn [fire] in Hrow1.
  set (w1 := snd (run (stopStream streamId) w)) in *.
  assert (Hs1 : find_stream streamId (with_clocks js db w1)
                = Some (update_updated_at_column (db_now w)
                          (set_ended (elapsed_seconds (start_time s) (js_now w))
                             (db_now w) s))) by exact Hrow1.
  destruct (stopStream_world _ _ _ Hs1) as (_ & _ & _ & _ & _ & Hres2).
  destruct (Hres2 Hok1) as (Hr2 & _).
  split; [exact Hr1 |]. split.
  { unfold status_of. rewrite Hrow1. reflexivity. }
  split; [exact Hr2 |]. split.
  { exact (stopStream_status _ _ _ Hs1). }
  intros Hnone. split.
  - rewrite Hmap. apply delete_id. exact Hnone.
  - rewrite Hch, Hnone. reflexivity.
Qed.

Lemma stopStream_twice_witness :
  find_stream "s1" world_created = Some example_stream
  ∧ sends_ok world_created
  ∧ recordingProcesses world_created !! "s1" = None
  ∧ fst (run (stopStream "s1")
           (with_clocks 2000 2000 (snd (run (stopStream "s1") world_created))))
    = Ok tt
  ∧ recordingProcesses (snd (run (stopStream "s1") world_created))
    = recordingProcesses world_created.
Proof.
  assert (H1 : find_stream "s1" world_created = Some example_stream)
    by reflexivity.
  assert (H2 : sends_ok world_created) by constructor.
  assert (H3 : recordingProcesses world_created !! "s1" = None) by reflexivity.
  split; [exact H1 |]. split; [exact H2 |]. split; [exact H3 |].
  destruct (stopStream_twice "s1" world_created example_stream 2000 2000 H1 H2)
    as (_ & _ & Hsecond & _ & Hsafe).
  split; [exact Hsecond | exact (proj1 (Hsafe H3))].
Defined.

(** ** Timing fields *)

Lemma written_app streamId column (w w' : World) (l : list Effect) :
  trace w' = trace w ++ l →
  written streamId column w'
  = (written streamId column w
     + length (List.filter (writes_column streamId column) l))%nat.
Proof.
  intros H. unfold written. rewrite H, List.filter_app, List.length_app.
  reflexivity.
Qed.

Lemma startStream_row (streamId : string) (w : World) (s : Stream) :
  find_stream streamId w = Some s → status s ≠ live →
  ∃ s1, find_stream streamId (fire (start streamId) w) = Some s1
        ∧ status s1 = live ∧ start_time s1 = Some (db_now w)
        ∧ end_time s1 = end_time s ∧ duration s1 = duration s.
Proof.
  intros Hs Hlive. cbn [fire].
  assert (Hgo : ∀ Hdir : hlsDir_of streamId w ∈ files w
                         ∨ hlsDir_of streamId w ∉ denied w,
             ∃ s1, find_stream streamId (snd (run (startStream streamId) w))
                   = Some s1
                   ∧ status s1 = live ∧ start_time s1 = Some (db_now w)
                   ∧ end_time s1 = end_time s ∧ duration s1 = duration s).
  { intros Hdir.
    destruct (startStream_world _ _ _ Hs Hlive Hdir) as (Hst & _).
    unfold find_stream. rewrite Hst.
    rewrite !find_update_streams by auto with streams.
    fold (find_stream streamId w). rewrite Hs.
    cbn [fmap option_fmap option_map].
    rewrite !update_row_hit
      by (rewrite ?has_id_update_row by auto with streams;
          exact (find_has_id _ _ _ Hs)).
    eexists. split; [reflexivity |]. repeat split; reflexivity. }
  destruct (decide (hlsDir_of streamId w ∈ files w)) as [Hex | Hex];
    [apply Hgo; left; exact Hex |].
  destruct (decide (hlsDir_of streamId w ∈ denied w)) as [Hden | Hden];
    [| apply Hgo; right; exact Hden].
  rewrite (startStream_mkdir_fails _ _ _ Hs Hlive Hex Hden). cbn [snd].
  rewrite (update_live_row _ _ _ Hs).
  eexists. split; [reflexivity |]. repeat split; reflexivity.
Qed.

Lemma startStream_writes (streamId : string) (w : World) (s : Stream) :
  find_stream streamId w = Some s → status s ≠ live →
  let w1 := fire (start streamId) w in
  written streamId "start_time" w1 = S (written streamId "start_time" w)
  ∧ written streamId "end_time" w1 = written streamId "end_time" w
  ∧ written streamId "duration" w1 = written streamId "duration" w.
Proof.
  intros Hs Hlive. cbv zeta. cbn [fire].
  assert (Hgo : ∀ Hdir : hlsDir_of streamId w ∈ files w
                         ∨ hlsDir_of streamId w ∉ denied w,
             let w1 := snd (run (startStream streamId) w) in
             written streamId "start_time" w1
             = S (written streamId "start_time" w)
             ∧ written streamId "end_time" w1 = written streamId "end_time" w
             ∧ written streamId "duration" w1 = written streamId "duration" w).
  { intros Hdir. cbv zeta.
    destruct (startStream_world _ _ _ Hs Hlive Hdir) as (_ & _ & _ & Htr & _).
    rewrite !(written_app _ _ _ _ _ Htr).
    rewrite !List.filter_app, !List.length_app.
    destruct (bool_decide (hlsDir_of streamId w ∈ files w));
      cbn [List.filter writes_column existsb length app];
      rewrite !String.eqb_refl; cbn; repeat split; lia. }
  destruct (decide (hlsDir_of streamId w ∈ files w)) as [Hex | Hex];
    [apply Hgo; left; exact Hex |].
  destruct (decide (hlsDir_of streamId w ∈ denied w)) as [Hden | Hden];
    [| apply Hgo; right; exact Hden].
  rewrite (startStream_mkdir_fails _ _ _ Hs Hlive Hex Hden). cbn [snd].
  assert (Htr : trace (snd (update_streams streamId ["status"; "start_time"]
                              set_live w))
                = trace w ++ [SqlUpdate streamId ["status"; "start_time"]])
    by reflexivity.
  rewrite !(written_app _ _ _ _ _ Htr).
  cbn [List.filter writes_column existsb length]. rewrite !String.eqb_refl.
  cbn. repeat split; lia.
Qed.

Lemma stopStream_writes (streamId : string) (w : World) (s : Stream) :
  find_stream streamId w = Some s →
  let w1 := fire (stop streamId) w in
  written streamId "start_time" w1 = written streamId "start_time" w
  ∧ written streamId "end_time" w1 = S (written streamId "end_time" w)
  ∧ written streamId "duration" w1 = S (written streamId "duration" w).
Proof.
  intros Hs. cbv zeta. cbn [fire].
  destruct (stopStream_world _ _ _ Hs) as (_ & _ & _ & Htr & _).
  rewrite !(written_app _ _ _ _ _ Htr).
  rewrite !List.filter_app, !List.length_app.
  destruct (recordingProcesses w !! streamId);
    destruct (recording_path s); try destruct (offload_configured w);
    cbn [List.filter writes_column existsb length app];
    rewrite !String.eqb_refl; cbn; repeat split; lia.
Qed.

Lemma unpublish_row (ingestKey : string) (w : World) (row : Stream) :
  find_by_ingest_key ingestKey w = Some row →
  find_stream (Stream_id row) w = Some row →
  find_stream (Stream_id row) (fire (ingest_ended ingestKey) w)
  = Some (update_updated_at_column (db_now w)
            (set_ended (elapsed_seconds (start_time row) (js_now w))
               (db_now w) row)).
Proof.
  intros Hk Hs. cbn [fire]. rewrite (unpublish_run _ _ _ Hk).
  unfold find_stream. fields.
  rewrite find_update_streams by auto with streams.
  fold (find_stream (Stream_id row) w). rewrite Hs.
  cbn [fmap option_fmap option_map].
  rewrite update_row_hit by apply has_id_refl. reflexivity.
Qed.

(** C6, as stated, fails.  The stream ["s1"] of [world_ended] has completed
    its lifecycle with a duration of 4 seconds; a further [stopStream]
    writes [end_time] and [duration] a second time (now 8 seconds), and a
    further [startStream] writes [start_time] a second time.  And when
    [Date.now()] and the database's NOW() differ, the duration is not
    [end_time] minus [start_time]: with the stop of [world_live] at
    [Date.now()] = 5999 and NOW() = 6000 the duration is 4 seconds for an
    [end_time] 5 seconds after [start_time]. *)
Lemma timing_fields_are_rewritten :
  written "s1" "end_time" world_ended = 1%nat
  ∧ duration <$> find_stream "s1" world_ended = Some (Some 4)
  ∧ written "s1" "end_time" (fire (stop "s1") world_ended) = 2%nat
  ∧ written "s1" "duration" (fire (stop "s1") world_ended) = 2%nat
  ∧ duration <$> find_stream "s1" (fire (stop "s1") world_ended)
    = Some (Some 8)
  ∧ written "s1" "start_time" (fire (start "s1") world_ended) = 2%nat
  ∧ (let w := fire (stop "s1") (with_clocks 5999 6000 world_live) in
     start_time <$> find_stream "s1" w = Some (Some 1000)
     ∧ end_time <$> find_stream "s1" w = Some (Some 6000)
     ∧ duration <$> find_stream "s1" w = Some (Some 4)
     ∧ (6000 - 1000) / 1000 = 5).
Proof. evaluate. Qed.

(** C6, amended.  In the lifecycle start, then stop, of a stream that is
    not live, [start_time] is written once, by the start, with NOW(), and
    [end_time] and [duration] are written once, by the stop.  Every
    [stopStream] and every ingest [/unpublish] leaves [start_time] as it
    is and records [end_time] = NOW() and [duration] =
    floor(([Date.now()] - [start_time]) / 1000), or 0 if [start_time] was
    never set; that is [end_time] minus [start_time] in whole seconds when
    the two clocks read the same instant. *)
Theorem timing_fields
    (streamId : string) (w : World) (s : Stream) (js db : Timestamp) :
  find_stream streamId w = Some s → status s ≠ live →
  let w1 := fire (start streamId) w in
  let w2 := fire (stop streamId) (with_clocks js db w1) in
  written streamId "start_time" w2 = S (written streamId "start_time" w)
  ∧ written streamId "end_time" w2 = S (written streamId "end_time" w)
  ∧ written streamId "duration" w2 = S (written streamId "duration" w)
  ∧ (∃ s2, find_stream streamId w2 = Some s2
           ∧ status s2 = ended
           ∧ start_time s2 = Some (db_now w)
           ∧ end_time s2 = Some db
           ∧ duration s2 = Some ((js - db_now w) / 1000)
           ∧ (js = db → duration s2 = Some ((db - db_now w) / 1000)))
  ∧ (∀ w0 s0, find_stream streamId w0 = Some s0 →
       ∃ s', find_stream streamId (fire (stop streamId) w0) = Some s'
             ∧ start_time s' = start_time s0
             ∧ end_time s' = Some (db_now w0)
             ∧ duration s'
               = Some match start_time s0 with
                      | Some t => (js_now w0 - t) / 1000
                      | None => 0
                      end)
  ∧ (∀ w0 ingestKey row,
       find_by_ingest_key ingestKey w0 = Some row →
       find_stream (Stream_id row) w0 = Some row →
       ∃ s', find_stream (Stream_id row) (fire (ingest_ended ingestKey) w0)
             = Some s'
             ∧ start_time s' = start_time row
             ∧ end_time s' = Some (db_now w0)
             ∧ duration s'
               = Some match start_time row with
                      | Some t => (js_now w0 - t) / 1000
                      | None => 0
                      end).
Proof.
  intros Hs Hlive. cbv zeta.
  destruct (startStream_row _ _ _ Hs Hlive)
    as (s1 & Hs1 & Hst1 & Hstart1 & _ & _).
  destruct (startStream_writes _ _ _ Hs Hlive) as (Ha & Hb & Hc).
  set (w1 := fire (start streamId) w) in *.
  assert (Hs1' : find_stream streamId (with_clocks js db w1) = Some s1)
    by exact Hs1.
  destruct (stopStream_writes _ _ _ Hs1') as (Ha' & Hb' & Hc').
  pose proof (stopStream_row _ _ _ Hs1') as Hrow.
  split; [rewrite Ha'; exact Ha |].
  split; [rewrite Hb'; f_equal; exact Hb |].
  split; [rewrite Hc'; f_equal; exact Hc |].
  split.
  { eexists. split; [exact Hrow |].
    cbn [status start_time end_time duration update_updated_at_column
         set_ended with_clocks db_now js_now].
    rewrite Hstart1. cbn [elapsed_seconds].
    repeat split; try reflexivity. intros ->. reflexivity. }
  split.
  - intros w0 s0 Hs0. eexists. split; [apply (stopStream_row _ _ _ Hs0) |].
    repeat split; reflexivity.
  - intros w0 ingestKey row Hk Hrow0. eexists.
    split; [apply (unpublish_row _ _ _ Hk Hrow0) |].
    repeat split; reflexivity.
Qed.

Lemma timing_fields_witness :
  find_stream "s1" world_created = Some example_stream
  ∧ status example_stream ≠ live
  ∧ written "s1" "start_time"
      (fire (stop "s1")
         (with_clocks 5000 5000 (fire (start "s1") world_created)))
    = S (written "s1" "start_time" world_created)
  ∧ written "s1" "end_time"
      (fire (stop "s1")
         (with_clocks 5000 5000 (fire (start "s1") world_created)))
    = S (written "s1" "end_time" world_created).
Proof.
  assert (H1 : find_stream "s1" world_created = Some example_stream)
    by reflexivity.
  assert (H2 : status example_stream ≠ live) by discriminate.
  split; [exact H1 |]. split; [exact H2 |].
  destruct (timing_fields "s1" world_created example_stream 5000 5000 H1 H2)
    as (Ha & Hb & _).
  split; [exact Ha | exact Hb].
Defined.

(** ** The subprocess ends by itself *)

(** C7, as stated, fails on [world_live]: when the child of the live
    stream ["s1"] ends, the handle is removed, but the stream stays 'live'
    (it does not become 'error') and no lifecycle event is logged. *)
Lemma child_exit_leaves_stream_live :
  status_of "s1" world_live = Some live
  ∧ recordingProcesses world_live !! "s1" = Some O
  ∧ recordingProcesses (child_exits 0 world_live) !! "s1" = None
  ∧ status_of "s1" (child_exits 0 world_live) = Some live
  ∧ stream_events (child_exits 0 world_live) = stream_events world_live.
Proof. evaluate. Qed.

(** C7, amended.  If the recording subprocess of a stream ends
    unexpectedly, the handle of that stream is removed from the handle
    map, without any external stop call; the table of streams (so the
    state, which stays 'live'), the lifecycle events and the observers are
    left as they are. *)
Theorem child_exit_effects (pid : nat) (w : World) (c : ChildProcess) :
  children w !! pid = Some c → child_state c ≠ Exited →
  let w' := child_exits pid w in
  recordingProcesses w' !! child_stream c = None
  ∧ streams w' = streams w
  ∧ (∀ streamId, status_of streamId w' = status_of streamId w)
  ∧ stream_events w' = stream_events w
  ∧ clients w' = clients w
  ∧ trace w' = trace w
  ∧ child_state <$> children w' !! pid = Some Exited.
Proof.
  intros Hc Hst. cbv zeta.
  assert (Hlt : (pid < length (children w))%nat)
    by (apply lookup_lt_Some in Hc; exact Hc).
  unfold child_exits, status_of, find_stream. rewrite Hc.
  unfold ffmpeg_on_close, ffmpeg_on_error.
  destruct (child_state c) eqn:Hs; try congruence; fields;
    (repeat split; try reflexivity;
     [ apply lookup_delete_eq
     | rewrite list_lookup_insert_eq by exact Hlt; reflexivity ]).
Qed.

Lemma child_exit_effects_witness :
  children world_live !! O
  = Some (mkChild "s1" "rtmp://localhost:1935/live/k1"
            ["storage"; "hls"; "s1"; "index.m3u8"]
            ["storage"; "recordings"; "s1.mp4"] Running)
  ∧ Running ≠ Exited
  ∧ recordingProcesses (child_exits 0 world_live) !! "s1" = None
  ∧ streams (child_exits 0 world_live) = streams world_live.
Proof.
  assert (H1 : children world_live !! O
               = Some (mkChild "s1" "rtmp://localhost:1935/live/k1"
                         ["storage"; "hls"; "s1"; "index.m3u8"]
                         ["storage"; "recordings"; "s1.mp4"] Running))
    by reflexivity.
  assert (H2 : Running ≠ Exited) by discriminate.
  split; [exact H1 |]. split; [exact H2 |].
  destruct (child_exit_effects O world_live _ H1 H2) as (Ha & Hb & _).
  split; [exact Ha | exact Hb].
Defined.

(** The listener deletes by stream id, whatever child ended: the 'close'
    of a child that was stopped before a restart takes the handle of the
    new child away. *)
Example late_close_drops_new_handle :
  let w := fire (start "s1") world_ended in
  recordingProcesses w !! "s1" = Some 1%nat
  ∧ child_state <$> children w !! O = Some Terminating
  ∧ recordingProcesses (child_exits 0 w) !! "s1" = None
  ∧ alive "s1" (child_exits 0 w) = 1%nat.
Proof. evaluate. Qed.

(** ** Metadata *)

(** C10.  [updateStreamMetadata] returns normally, also for an unknown
    stream id, and then the table is left as it is.  The row of a known
    stream gets exactly the given metadata and keeps its state, timing,
    artifact paths, viewer counts and every other column the handlers
    write; [updated_at], which the claim does not list, is refreshed by
    the table's trigger.  The rows of other streams, the events and the
    handle map are left as they are. *)
Theorem updateStreamMetadata_frame
    (streamId : string) (meta : Json) (w : World) :
  let w' := snd (run (updateStreamMetadata streamId meta) w) in
  fst (run (updateStreamMetadata streamId meta) w) = Ok tt
  ∧ (∀ s, find_stream streamId w = Some s →
       ∃ s', find_stream streamId w' = Some s'
             ∧ metadata s' = meta
             ∧ status s' = status s
             ∧ start_time s' = start_time s
             ∧ end_time s' = end_time s
             ∧ duration s' = duration s
             ∧ recording_path s' = recording_path s
             ∧ hls_path s' = hls_path s
             ∧ thumbnail_path s' = thumbnail_path s
             ∧ viewer_count s' = viewer_count s
             ∧ max_viewers s' = max_viewers s
             ∧ Stream_id s' = Stream_id s
             ∧ user_id s' = user_id s
             ∧ title s' = title s
             ∧ description s' = description s
             ∧ ingest_key s' = ingest_key s
             ∧ created_at s' = created_at s)
  ∧ (find_stream streamId w = None → streams w' = streams w)
  ∧ (∀ other, other ≠ streamId → find_stream other w' = find_stream other w)
  ∧ length (streams w') = length (streams w)
  ∧ stream_events w' = stream_events w
  ∧ recordingProcesses w' = recordingProcesses w.
Proof.
  cbv zeta. unfold updateStreamMetadata. run_prog. fields.
  split; [reflexivity |]. split.
  { intros s Hs. unfold find_stream in *. fields.
    rewrite find_update_streams by auto with streams. rewrite Hs.
    cbn [fmap option_fmap option_map].
    rewrite update_row_hit by exact (find_has_id _ _ _ Hs).
    eexists. split; [reflexivity |]. repeat split; reflexivity. }
  split.
  { unfold find_stream. fields. intros Hnone.
    induction (streams w) as [| s l IH]; [reflexivity |].
    cbn [List.find] in Hnone. cbn [map].
    destruct (has_id streamId s) eqn:Hid; [discriminate |].
    rewrite (update_row_miss _ _ _ _ Hid), (IH Hnone). reflexivity. }
  split.
  { intros other Hne. unfold find_stream. fields.
    rewrite find_update_streams by auto with streams.
    destruct (List.find (has_id other) (streams w)) as [s |] eqn:Hf;
      [| reflexivity].
    cbn [fmap option_fmap option_map]. rewrite update_row_miss; [reflexivity |].
    apply find_has_id in Hf. apply has_id_eq in Hf.
    unfold has_id. apply String.eqb_neq. congruence. }
  split; [apply length_map |]. split; reflexivity.
Qed.

Lemma updateStreamMetadata_frame_witness :
  find_stream "s1" world_live
  = Some (set_paths ["storage"; "recordings"; "s1.mp4"]
            ["storage"; "hls"; "s1"; "index.m3u8"] 1000
            (update_updated_at_column 1000 (set_live 1000 example_stream)))
  ∧ ∃ s', find_stream "s1"
            (snd (run (updateStreamMetadata "s1" (JObj [("quizEnabled", JBool true)]))
                    world_live)) = Some s'
          ∧ metadata s' = JObj [("quizEnabled", JBool true)]
          ∧ status s' = live.
Proof.
  assert (H1 : find_stream "s1" world_live
               = Some (set_paths ["storage"; "recordings"; "s1.mp4"]
                         ["storage"; "hls"; "s1"; "index.m3u8"] 1000
                         (update_updated_at_column 1000
                            (set_live 1000 example_stream))))
    by reflexivity.
  split; [exact H1 |].
  destruct (updateStreamMetadata_frame "s1" (JObj [("quizEnabled", JBool true)])
              world_live) as (_ & Hrow & _).
  destruct (Hrow _ H1) as (s' & Hs' & Hmeta & Hst & _).
  exists s'. split; [exact Hs' |]. split; [exact Hmeta | exact Hst].
Defined.

(** ** [deleteStream] *)

Lemma find_after_delete id (l : list Stream) :
  List.find (has_id id) (List.filter (λ s, negb (has_id id s)) l) = None.
Proof.
  induction l as [| s l IH]; [reflexivity |]. cbn [List.filter].
  destruct (has_id id s) eqn:Hid; cbn [negb]; [exact IH |].
  cbn [List.find]. rewrite Hid. exact IH.
Qed.

Ltac delete_exec Hs :=
  unfold deleteStream; rewrite run_bind, getStream_run, Hs;
  unfold stopRecording; run_prog.

(** C8, as stated, fails on [world_protected], where the recording of the
    live stream ["s1"] exists and cannot be removed: [deleteStream]
    throws that error after it has stopped the recording, and the
    persisted record is still there. *)
Lemma protected_recording_blocks_deletion :
  fst (run (deleteStream "s1") world_protected)
  = Err (FsError "EACCES" ["storage"; "recordings"; "s1.mp4"])
  ∧ status_of "s1" (snd (run (deleteStream "s1") world_protected)) = Some live
  ∧ recordingProcesses world_protected !! "s1" = Some O
  ∧ recordingProcesses (snd (run (deleteStream "s1") world_protected)) !! "s1"
    = None.
Proof. evaluate. Qed.

(** C8, amended.  [deleteStream] on an unknown stream id fails with
    "Stream not found".  On an existing stream it stops the recording if
    there is a handle, then removes the recording file and the HLS
    directory, then removes the persisted record, in that order; an
    artifact that is already missing is skipped.  A removal that throws
    is not caught: [deleteStream] throws that error after the recording
    has been stopped, and the persisted record stays. *)
Theorem deleteStream_order (streamId : string) (w : World) :
  (find_stream streamId w = None →
   run (deleteStream streamId) w = (Err NotFound, w))
  ∧ (∀ s, find_stream streamId w = Some s →
       (∀ p, recording_path s = Some p → p ∉ denied w) →
       (∀ m, hls_path s = Some m → path_dirname m ∉ denied w) →
       let w' := snd (run (deleteStream streamId) w) in
       fst (run (deleteStream streamId) w) = Ok tt
       ∧ trace w'
         = trace w
           ++ match recordingProcesses w !! streamId with
              | Some pid => [Kill pid]
              | None => []
              end
           ++ match recording_path s with
              | Some p => if bool_decide (p ∈ files w) then [Unlink p] else []
              | None => []
              end
           ++ match hls_path s with
              | Some m =>
                  if bool_decide (path_dirname m ∈ files_after_unlink s w)
                  then [Rm (path_dirname m)] else []
              | None => []
              end
           ++ [SqlDelete streamId]
       ∧ find_stream streamId w' = None
       ∧ recordingProcesses w' !! streamId = None
       ∧ (∀ p, recording_path s = Some p → p ∉ files w')
       ∧ (∀ m, hls_path s = Some m → path_dirname m ∉ files w'))
  ∧ (∀ s p, find_stream streamId w = Some s →
       recording_path s = Some p → p ∈ files w → p ∈ denied w →
       let w' := snd (run (deleteStream streamId) w) in
       fst (run (deleteStream streamId) w) = Err (FsError "EACCES" p)
       ∧ find_stream streamId w' = Some s
       ∧ recordingProcesses w' !! streamId = None)
  ∧ (∀ s m, find_stream streamId w = Some s →
       (∀ p, recording_path s = Some p → p ∉ files w) →
       hls_path s = Some m →
       path_dirname m ∈ files w → path_dirname m ∈ denied w →
       let w' := snd (run (deleteStream streamId) w) in
       fst (run (deleteStream streamId) w)
       = Err (FsError "EACCES" (path_dirname m))
       ∧ find_stream streamId w' = Some s
       ∧ recordingProcesses w' !! streamId = None).
Proof.
  split; [| split; [| split]].
  - intros Hs. unfold deleteStream. rewrite run_bind, getStream_run, Hs.
    reflexivity.
  - intros s Hs Hrec Hhls. cbv zeta. unfold files_after_unlink.
    delete_exec Hs.
    destruct (recordingProcesses w !! streamId) as [pid |] eqn:Hh;
      run_prog; fields.
    all: destruct (recording_path s) as [p |] eqn:Hp; run_prog; fields.
    all: try match goal with
             | |- context [bool_decide (?p' ∈ files ?w')] =>
                 destruct (bool_decide (p' ∈ files w')) eqn:Hpf;
                 run_prog; fields
             end.
    all: try (unfold unlinkSync; fields;
              rewrite (bool_decide_eq_false_2 _ (Hrec _ eq_refl)), Hpf;
              run_prog; fields).
    all: destruct (hls_path s) as [m |] eqn:Hm; run_prog; fields.
    all: try match goal with
             | |- context [bool_decide (path_dirname ?m' ∈ ?X)] =>
                 destruct (bool_decide (path_dirname m' ∈ X)) eqn:Hmf;
                 run_prog; fields
             end.
    all: try (unfold rmSync; fields;
              rewrite (bool_decide_eq_false_2 _ (Hhls _ eq_refl));
              run_prog; fields).
    all: unfold find_stream; fields; rewrite find_after_delete.
    all: rewrite <- ?app_assoc; cbn [app].
    all: split; [reflexivity |]. all: split; [reflexivity |].
    all: split; [reflexivity |].
    all: split; [first [apply lookup_delete_eq | exact Hh] |].
    all: try apply bool_decide_eq_false in Hpf.
    all: try apply bool_decide_eq_false in Hmf.
    all: split; intros ? Heq; simplify_eq; set_solver.
  - intros s p Hs Hp Hpf Hpd. cbv zeta. delete_exec Hs.
    destruct (recordingProcesses w !! streamId) as [pid |] eqn:Hh;
      run_prog; fields.
    all: rewrite Hp; run_prog; fields.
    all: rewrite (bool_decide_eq_true_2 _ Hpf); run_prog.
    all: unfold unlinkSync; fields; rewrite (bool_decide_eq_true_2 _ Hpd).
    all: unfold find_stream; fields.
    all: split; [reflexivity |]. all: split; [exact Hs |].
    all: first [apply lookup_delete_eq | exact Hh].
  - intros s m Hs Hrec Hm Hmf Hmd. cbv zeta. delete_exec Hs.
    destruct (recordingProcesses w !! streamId) as [pid |] eqn:Hh;
      run_prog; fields.
    all: destruct (recording_path s) as [p |] eqn:Hp; run_prog; fields.
    all: try rewrite (bool_decide_eq_false_2 _ (Hrec _ eq_refl)); run_prog; fields.
    all: rewrite Hm; run_prog; fields.
    all: rewrite (bool_decide_eq_true_2 _ Hmf); run_prog.
    all: unfold rmSync; fields; rewrite (bool_decide_eq_true_2 _ Hmd).
    all: unfold find_stream; fields.
    all: split; [reflexivity |]. all: split; [exact Hs |].
    all: first [apply lookup_delete_eq | exact Hh].
Qed.

Lemma deleteStream_order_witness :
  find_stream "s1" world_live
  = Some (set_paths ["storage"; "recordings"; "s1.mp4"]
            ["storage"; "hls"; "s1"; "index.m3u8"] 1000
            (update_updated_at_column 1000 (set_live 1000 example_stream)))
  ∧ fst (run (deleteStream "s1") world_live) = Ok tt
  ∧ find_stream "s1" (snd (run (deleteStream "s1") world_live)) = None.
Proof.
  assert (H1 : find_stream "s1" world_live
               = Some (set_paths ["storage"; "recordings"; "s1.mp4"]
                         ["storage"; "hls"; "s1"; "index.m3u8"] 1000
                         (update_updated_at_column 1000
                            (set_live 1000 example_stream))))
    by reflexivity.
  split; [exact H1 |].
  destruct (deleteStream_order "s1" world_live) as (_ & Hok & _).
  destruct (Hok _ H1) as (Hr & _ & Hgone & _).
  - intros p _. vm_compute. set_solver.
  - intros m _. vm_compute. set_solver.
  - split; [exact Hr | exact Hgone].
Defined.

(** ** Broadcast *)

Lemma forEach_send_delivers message cs c :
  Forall can_send cs → c ∈ cs → readyState c = OPEN → link c = Delivers →
  set_received (received c ++ [message]) c ∈ snd (forEach_send message cs).
Proof.
  intros Hok Hin Ho Hl. induction Hok as [| c0 cs Hc0 Hcs IH];
    [inversion Hin |].
  cbn [forEach_send]. apply elem_of_cons in Hin as [<- | Hin].
  - rewrite (bool_decide_eq_true_2 _ Ho). unfold ws_send. rewrite Hl.
    destruct (forEach_send message cs). cbn [snd]. left.
  - specialize (IH Hin).
    destruct (bool_decide (readyState c0 = OPEN)) eqn:Ho0.
    + apply bool_decide_eq_true in Ho0. unfold can_send in Hc0.
      specialize (Hc0 Ho0).
      unfold ws_send. destruct (link c0); try congruence;
        destruct (forEach_send message cs); cbn [snd] in *; right; exact IH.
    + destruct (forEach_send message cs); cbn [snd] in *; right; exact IH.
Qed.

Lemma forEach_send_skips message cs c :
  c ∈ cs → readyState c ≠ OPEN → c ∈ snd (forEach_send message cs).
Proof.
  intros Hin Ho. induction cs as [| c0 cs IH]; [inversion Hin |].
  cbn [forEach_send]. apply elem_of_cons in Hin as [<- | Hin].
  - rewrite (bool_decide_eq_false_2 _ Ho).
    destruct (forEach_send message cs). cbn [snd]. left.
  - specialize (IH Hin).
    destruct (bool_decide (readyState c0 = OPEN)).
    + unfold ws_send. destruct (link c0);
        try (destruct (forEach_send message cs); cbn [snd] in *; right;
             exact IH).
      cbn [snd]. right. exact Hin.
    + destruct (forEach_send message cs); cbn [snd] in *; right; exact IH.
Qed.

Lemma forEach_send_marks message cs c :
  Forall can_send cs → c ∈ cs → readyState c = OPEN → link c = ErrorEvent →
  set_error_pending c ∈ snd (forEach_send message cs).
Proof.
  intros Hok Hin Ho Hl. induction Hok as [| c0 cs Hc0 Hcs IH];
    [inversion Hin |].
  cbn [forEach_send]. apply elem_of_cons in Hin as [<- | Hin].
  - rewrite (bool_decide_eq_true_2 _ Ho). unfold ws_send. rewrite Hl.
    destruct (forEach_send message cs). cbn [snd]. left.
  - specialize (IH Hin).
    destruct (bool_decide (readyState c0 = OPEN)) eqn:Ho0.
    + apply bool_decide_eq_true in Ho0. unfold can_send in Hc0.
      specialize (Hc0 Ho0).
      unfold ws_send. destruct (link c0); try congruence;
        destruct (forEach_send message cs); cbn [snd] in *; right; exact IH.
    + destruct (forEach_send message cs); cbn [snd] in *; right; exact IH.
Qed.

(** [send] throws on [c]: the loop ends there. *)
Lemma forEach_send_throws message l1 c l2 :
  Forall can_send l1 → readyState c = OPEN → link c = Throws →
  forEach_send message (l1 ++ c :: l2)
  = (Err (SendError (ws_id c)), snd (forEach_send message l1) ++ c :: l2).
Proof.
  intros Hok Ho Hl. induction Hok as [| c0 cs Hc0 Hcs IH]; cbn [forEach_send app].
  - rewrite (bool_decide_eq_true_2 _ Ho). unfold ws_send. rewrite Hl.
    reflexivity.
  - destruct (bool_decide (readyState c0 = OPEN)) eqn:Ho0.
    + apply bool_decide_eq_true in Ho0. unfold can_send in Hc0.
      specialize (Hc0 Ho0).
      unfold ws_send. destruct (link c0); try congruence;
        rewrite IH; destruct (forEach_send message cs); reflexivity.
    + rewrite IH. destruct (forEach_send message cs); reflexivity.
Qed.

(** The 'error' listeners take the marked observers out of the set. *)
Lemma deliver_error_events_clients (l : list WebSocket) (w : World) :
  clients
    (fold_left (λ w' c, if error_pending c then ws_on_error (ws_id c) w' else w')
       l w)
  = List.filter
      (λ c, forallb (λ p, negb (error_pending p && Nat.eqb (ws_id c) (ws_id p))) l)
      (clients w).
Proof.
  revert w. induction l as [| p l IH]; intros w; cbn [fold_left forallb].
  - induction (clients w) as [| c cs IHc]; [reflexivity |].
    cbn [List.filter]. rewrite <- IHc. reflexivity.
  - rewrite IH. destruct (error_pending p); cbn [andb negb].
    + unfold ws_on_error, clients_delete. fields.
      induction (clients w) as [| c cs IHc]; [reflexivity |].
      cbn [List.filter]. destruct (Nat.eqb (ws_id c) (ws_id p)); cbn [negb andb].
      * exact IHc.
      * cbn [List.filter]. rewrite IHc. reflexivity.
    + reflexivity.
Qed.

Lemma deliver_error_events_removes (w : World) (p c' : WebSocket) :
  p ∈ clients w → error_pending p = true →
  c' ∈ clients (deliver_error_events w) → ws_id c' ≠ ws_id p.
Proof.
  intros Hp Hpend Hc'. unfold deliver_error_events in Hc'.
  rewrite deliver_error_events_clients in Hc'.
  apply list_elem_of_In, filter_In in Hc' as [_ Hall].
  rewrite forallb_forall in Hall.
  apply list_elem_of_In in Hp. specialize (Hall p Hp).
  rewrite Hpend in Hall. cbn [andb] in Hall.
  apply negb_true_iff, Nat.eqb_neq in Hall. exact Hall.
Qed.

(** C9, as stated, fails on [world_observed], where [send] throws on the
    second of three observers: the broadcast throws, the third observer
    receives nothing, and the second observer is still in the set. *)
Lemma throwing_send_stops_the_broadcast :
  let w' := snd (broadcast "stream_started" JNull world_observed) in
  fst (broadcast "stream_started" JNull world_observed) = Err (SendError 2)
  ∧ map (λ c, (ws_id c, length (received c))) (clients w')
    = [(1, 1); (2, 0); (3, 0)]%nat
  ∧ map ws_id (clients (deliver_error_events w')) = [1; 2; 3]%nat.
Proof. evaluate. Qed.

(** C9, amended.  [broadcast] sends to the observers whose connection is
    open, in the order of the set, and leaves the others in the set
    untouched.  When no [send] throws, the broadcast returns normally,
    every open observer whose connection works receives the message, and
    an observer whose send fails through its 'error' event is removed
    from the set by that event's listener (not by [broadcast]).  When
    [send] throws on an observer, [broadcast] throws that error: the
    observers before it are served, the observers after it are not, and
    the throwing observer stays in the set. *)
Theorem broadcast_delivery (type : string) (data : Json) (w : World) :
  let message := mkMessage type data (js_now w) in
  let w1 := snd (broadcast type data w) in
  (sends_ok w →
   fst (broadcast type data w) = Ok tt
   ∧ (∀ c, c ∈ clients w → readyState c = OPEN → link c = Delivers →
        set_received (received c ++ [message]) c ∈ clients w1)
   ∧ (∀ c, c ∈ clients w → readyState c = OPEN → link c = ErrorEvent →
        ∀ c', c' ∈ clients (deliver_error_events w1) → ws_id c' ≠ ws_id c))
  ∧ (∀ c, c ∈ clients w → readyState c ≠ OPEN → c ∈ clients w1)
  ∧ (∀ l1 c l2,
       clients w = l1 ++ c :: l2 → Forall can_send l1 →
       readyState c = OPEN → link c = Throws →
       fst (broadcast type data w) = Err (SendError (ws_id c))
       ∧ clients w1 = snd (forEach_send message l1) ++ c :: l2)
  ∧ length (clients w1) = length (clients w).
Proof.
  cbv zeta. rewrite broadcast_eq. cbn [fst snd]. fields.
  split; [| split; [| split]].
  - intros Hok. split; [apply forEach_send_ok; exact Hok |].
    split; [intros c; apply forEach_send_delivers; exact Hok |].
    intros c Hin Ho Hl c' Hc'.
    pose proof (forEach_send_marks (mkMessage type data (js_now w)) _ _
                  Hok Hin Ho Hl) as Hmark.
    apply (deliver_error_events_removes _ (set_error_pending c) c') in Hc';
      [exact Hc' | exact Hmark | reflexivity].
  - intros c. apply forEach_send_skips.
  - intros l1 c l2 Hcs Hok Ho Hl. rewrite Hcs.
    rewrite (forEach_send_throws _ _ _ _ Hok Ho Hl). split; reflexivity.
  - generalize (mkMessage type data (js_now w)) as message.
    intros message. induction (clients w) as [| c cs IH]; [reflexivity |].
    cbn [forEach_send]. destruct (bool_decide (readyState c = OPEN)).
    + unfold ws_send. destruct (link c);
        try (destruct (forEach_send message cs); cbn [snd length] in *;
             rewrite IH; reflexivity).
      reflexivity.
    + destruct (forEach_send message cs); cbn [snd length] in *.
      rewrite IH; reflexivity.
Qed.

Lemma broadcast_delivery_witness :
  sends_ok world_broken_link
  ∧ fst (broadcast "stream_ended" JNull world_broken_link) = Ok tt
  ∧ (∀ c', c' ∈ clients (deliver_error_events
                           (snd (broadcast "stream_ended" JNull
                                   world_broken_link))) →
           ws_id c' ≠ 2%nat).
Proof.
  assert (H1 : sends_ok world_broken_link).
  { repeat constructor; intros _; discriminate. }
  split; [exact H1 |].
  destruct (broadcast_delivery "stream_ended" JNull world_broken_link)
    as (Hgood & _).
  destruct (Hgood H1) as (Hr & _ & Hgone).
  split; [exact Hr |].
  intros c'. apply (Hgone (example_observer 2 ErrorEvent)).
  - right. left.
  - reflexivity.
  - reflexivity.
Defined.

(** * Further properties *)

(** ** [createStream]: insertion and lookup *)

Lemma find_app_none {A : Type} (f : A → bool) (l l' : list A) :
  List.find f l = None → List.find f (l ++ l') = List.find f l'.
Proof.
  induction l as [| a l IH]; simpl; [reflexivity |].
  destruct (f a); [discriminate | exact IH].
Qed.

Lemma find_app_some {A : Type} (f : A → bool) (l l' : list A) (a : A) :
  List.find f l = Some a → List.find f (l ++ l') = Some a.
Proof.
  induction l as [| b l IH]; simpl; [discriminate |].
  destruct (f b); [trivial | exact IH].
Qed.

Lemma find_none_existsb {A : Type} (f : A → bool) (l : list A) :
  List.find f l = None → existsb f l = false.
Proof.
  induction l as [| a l IH]; simpl; [reflexivity |].
  destruct (f a); [discriminate | exact IH].
Qed.

Lemma existsb_find_some {A : Type} (f : A → bool) (l : list A) :
  existsb f l = true → List.find f l ≠ None.
Proof.
  induction l as [| a l IH]; simpl; [discriminate |].
  destruct (f a); [discriminate | exact IH].
Qed.

(** The run of [createStream] when the id and the key are free. *)
Lemma createStream_run (d : StreamData) (w : World) :
  find_stream (gen_random_uuid w (uuid_calls w)) w = None →
  find_by_ingest_key (sd_ingestKey d) w = None →
  run (createStream d) w
  = (Ok (mkStream (gen_random_uuid w (uuid_calls w)) (sd_userId d) (sd_title d)
           (sd_description d) (sd_ingestKey d) created None None None 0 0
           None None None (metadata_or_empty (sd_metadata d))
           (db_now w) (db_now w)),
     emit (SqlInsertStream (gen_random_uuid w (uuid_calls w)))
       (with_streams
          (λ l, l ++ [mkStream (gen_random_uuid w (uuid_calls w)) (sd_userId d)
                        (sd_title d) (sd_description d) (sd_ingestKey d) created
                        None None None 0 0 None None None
                        (metadata_or_empty (sd_metadata d)) (db_now w) (db_now w)])
          (with_uuid_calls S w))).
Proof.
  intros Hid Hkey. unfold find_stream, find_by_ingest_key in *.
  apply find_none_existsb in Hid. apply find_none_existsb in Hkey.
  unfold createStream, await. cbn [run]. unfold insert_into_streams.
  cbn [Stream_id ingest_key]. rewrite Hid, Hkey. reflexivity.
Qed.

Lemma createStream_found (d : StreamData) (w : World) :
  find_stream (gen_random_uuid w (uuid_calls w)) w = None →
  find_by_ingest_key (sd_ingestKey d) w = None →
  let row := mkStream (gen_random_uuid w (uuid_calls w)) (sd_userId d)
               (sd_title d) (sd_description d) (sd_ingestKey d) created
               None None None 0 0 None None None
               (metadata_or_empty (sd_metadata d)) (db_now w) (db_now w) in
  find_stream (Stream_id row) (snd (run (createStream d) w)) = Some row
  ∧ find_by_ingest_key (sd_ingestKey d) (snd (run (createStream d) w))
    = Some row.
Proof.
  intros Hid Hkey. cbv zeta. rewrite (createStream_run d w Hid Hkey).
  unfold find_stream, find_by_ingest_key in *. cbn [snd]. fields.
  cbn [Stream_id]. split.
  - rewrite (find_app_none _ _ _ Hid). cbn [List.find]. unfold has_id.
    cbn [Stream_id]. rewrite String.eqb_refl. reflexivity.
  - rewrite (find_app_none _ _ _ Hkey). cbn [List.find].
    unfold has_ingest_key. cbn [ingest_key]. rewrite String.eqb_refl.
    reflexivity.
Qed.

(** The INSERT when the id or the key is taken. *)
Lemma insert_into_streams_rejected (d : StreamData) (meta : Json) (w : World) :
  find_stream (gen_random_uuid w (uuid_calls w)) w ≠ None
  ∨ find_by_ingest_key (sd_ingestKey d) w ≠ None →
  ∃ constraint,
    insert_into_streams d meta w
    = (Err (SqlError constraint), with_uuid_calls S w).
Proof.
  intros H. unfold find_stream, find_by_ingest_key in H.
  unfold insert_into_streams. cbn [Stream_id ingest_key].
  destruct (existsb (has_id _) (streams w)) eqn:Hid; [eexists; reflexivity |].
  destruct (existsb (has_ingest_key _) (streams w)) eqn:Hkey;
    [eexists; reflexivity |].
  exfalso. destruct H as [H | H]; apply H.
  - destruct (List.find _ _) eqn:Hf; [| reflexivity].
    apply find_existsb in Hf. congruence.
  - destruct (List.find (has_ingest_key _) _) as [s |] eqn:Hf; [| reflexivity].
    apply find_some in Hf.
    assert (existsb (has_ingest_key (sd_ingestKey d)) (streams w) = true)
      by (apply existsb_exists; exists s; tauto).
    congruence.
Qed.

(** X1.  [createStream], when the id drawn by the database and the ingest
    key are not in the table: the call returns the new row, which is
    'created', has no start time, end time, duration or artifact path and
    carries the given user, title, key and metadata (an empty object when
    none is given); [getStream] on its id and the lookup of the ingest
    callbacks on its key return that row afterwards, and every other
    lookup is answered as before. *)
Theorem createStream_round_trip (d : StreamData) (w : World) :
  find_stream (gen_random_uuid w (uuid_calls w)) w = None →
  find_by_ingest_key (sd_ingestKey d) w = None →
  ∃ row,
    let w' := snd (run (createStream d) w) in
    fst (run (createStream d) w) = Ok row
    ∧ Stream_id row = gen_random_uuid w (uuid_calls w)
    ∧ user_id row = sd_userId d ∧ title row = sd_title d
    ∧ ingest_key row = sd_ingestKey d
    ∧ metadata row = metadata_or_empty (sd_metadata d)
    ∧ status row = created
    ∧ start_time row = None ∧ end_time row = None ∧ duration row = None
    ∧ recording_path row = None ∧ hls_path row = None
    ∧ run (getStream (Stream_id row)) w' = (Ok (Some row), w')
    ∧ find_by_ingest_key (sd_ingestKey d) w' = Some row
    ∧ (∀ other, other ≠ Stream_id row →
         find_stream other w' = find_stream other w)
    ∧ (∀ key, key ≠ sd_ingestKey d →
         find_by_ingest_key key w' = find_by_ingest_key key w).
Proof.
  intros Hid Hkey. eexists. cbv zeta.
  rewrite (createStream_run d w Hid Hkey). cbn [fst snd].
  do 12 (split; [reflexivity |]).
  rewrite getStream_run. unfold find_stream, find_by_ingest_key in *. fields.
  cbn [Stream_id].
  split; [| split; [| split]].
  - rewrite (find_app_none _ _ _ Hid). cbn [List.find]. unfold has_id.
    cbn [Stream_id]. rewrite String.eqb_refl. reflexivity.
  - rewrite (find_app_none _ _ _ Hkey). cbn [List.find].
    unfold has_ingest_key. cbn [ingest_key]. rewrite String.eqb_refl.
    reflexivity.
  - intros other Hother.
    destruct (List.find (has_id other) (streams w)) as [s |] eqn:Hf.
    + apply find_app_some. exact Hf.
    + rewrite (find_app_none _ _ _ Hf). cbn [List.find]. unfold has_id.
      cbn [Stream_id].
      destruct (String.eqb_spec (gen_random_uuid w (uuid_calls w)) other);
        [congruence | reflexivity].
  - intros key Hother.
    destruct (List.find (has_ingest_key key) (streams w)) as [s |] eqn:Hf.
    + apply find_app_some. exact Hf.
    + rewrite (find_app_none _ _ _ Hf). cbn [List.find]. unfold has_ingest_key.
      cbn [ingest_key].
      destruct (String.eqb_spec (sd_ingestKey d) key);
        [congruence | reflexivity].
Qed.

Lemma createStream_round_trip_witness :
  ∃ row,
    fst (run (createStream (mkStreamData "u2" "Second" None "k2" None))
           world_live) = Ok row
    ∧ Stream_id row = "s2" ∧ status row = created
    ∧ find_by_ingest_key "k2"
        (snd (run (createStream (mkStreamData "u2" "Second" None "k2" None))
                world_live)) = Some row.
Proof.
  destruct (createStream_round_trip (mkStreamData "u2" "Second" None "k2" None)
              world_live) as (row & H); [reflexivity | reflexivity |].
  cbv zeta in H. exists row. tauto.
Defined.

(** X2.  [createStream] with an ingest key that a stream already has, or
    when the id drawn is taken: the INSERT is rejected, the call throws
    that error, and the two tables and the trace of effects are left as
    they were. *)
Theorem createStream_conflict (d : StreamData) (w : World) :
  find_stream (gen_random_uuid w (uuid_calls w)) w ≠ None
  ∨ find_by_ingest_key (sd_ingestKey d) w ≠ None →
  let w' := snd (run (createStream d) w) in
  (∃ constraint, fst (run (createStream d) w) = Err (SqlError constraint))
  ∧ streams w' = streams w
  ∧ stream_events w' = stream_events w
  ∧ trace w' = trace w.
Proof.
  intros H. cbv zeta. unfold createStream, await. cbn [run].
  destruct (insert_into_streams_rejected d
              (metadata_or_empty (sd_metadata d)) w H) as (constraint & Hrun).
  rewrite Hrun. cbn [fst snd].
  split; [exists constraint; reflexivity |].
  repeat split; reflexivity.
Qed.

Lemma createStream_conflict_witness :
  (∃ constraint,
     fst (run (createStream (mkStreamData "u2" "Other" None "k1" None))
            world_live) = Err (SqlError constraint))
  ∧ streams (snd (run (createStream (mkStreamData "u2" "Other" None "k1" None))
                    world_live)) = streams world_live.
Proof.
  destruct (createStream_conflict (mkStreamData "u2" "Other" None "k1" None)
              world_live) as (H1 & H2 & _).
  - right. vm_compute. discriminate.
  - split; [exact H1 | exact H2].
Defined.

(** ** The primary key and the unique ingest key *)

Lemma set_live_keeps_key : keeps_key set_live.
Proof. intros now s; reflexivity. Qed.
Lemma set_ended_keeps_key d : keeps_key (set_ended d).
Proof. intros now s; reflexivity. Qed.
Lemma set_paths_keeps_key rec hls : keeps_key (set_paths rec hls).
Proof. intros now s; reflexivity. Qed.
Lemma set_metadata_keeps_key m : keeps_key (set_metadata m).
Proof. intros now s; reflexivity. Qed.

Lemma update_streams_keys id cols assign :
  keeps_id assign → keeps_key assign →
  keeps keys_kept (update_streams id cols assign).
Proof.
  intros Hid Hkey w. unfold keys_kept. cbn [update_streams snd]. fields.
  rewrite !map_map. split; apply map_ext; intros s; unfold update_row;
    destruct (has_id id s); cbn; auto.
Qed.

(** A primitive that leaves a part of the world alone, by cases on what
    it finds. *)
Ltac frame_prim :=
  intros ?w; try rewrite broadcast_eq; unfold_prims;
  repeat match goal with
         | |- context [if ?b then _ else _] => destruct b
         end;
  fields; auto.

#[local] Hint Resolve set_live_keeps_id set_ended_keeps_id set_paths_keeps_id
  set_metadata_keeps_id set_live_keeps_key set_ended_keeps_key
  set_paths_keeps_key set_metadata_keeps_key update_streams_keys : keeps.
#[local] Hint Extern 1 (keeps keys_kept _) =>
  unfold keeps, keys_kept; frame_prim : keeps.
#[local] Hint Extern 1 (keeps same_tables _) =>
  unfold keeps, same_tables; frame_prim : keeps.

Lemma keys_kept_refl w : keys_kept w w.
Proof. split; reflexivity. Qed.

Lemma keys_kept_trans w1 w2 w3 :
  keys_kept w1 w2 → keys_kept w2 w3 → keys_kept w1 w3.
Proof. unfold keys_kept. intros [-> ->] [-> ->]. auto. Qed.

Lemma same_tables_refl w : same_tables w w.
Proof. split; reflexivity. Qed.

Lemma same_tables_trans w1 w2 w3 :
  same_tables w1 w2 → same_tables w2 w3 → same_tables w1 w3.
Proof. unfold same_tables. intros [-> ->] [-> ->]. auto. Qed.

Lemma run_keys_kept {A : Type} (p : Prog A) (w : World) :
  respects keys_kept p → keys_kept w (snd (run p w)).
Proof.
  apply run_respects; [apply keys_kept_refl | apply keys_kept_trans].
Qed.

Lemma run_same_tables {A : Type} (p : Prog A) (w : World) :
  respects same_tables p → same_tables w (snd (run p w)).
Proof.
  apply run_respects; [apply same_tables_refl | apply same_tables_trans].
Qed.

Lemma startStream_keys id : respects keys_kept (startStream id).
Proof.
  unfold startStream, getStream, startRecording, logStreamEvent.
  walk_respects.
Qed.

Lemma stopStream_keys id : respects keys_kept (stopStream id).
Proof.
  unfold stopStream, getStream, stopRecording, logStreamEvent.
  walk_respects.
Qed.

Lemma publish_keys key : respects keys_kept (publish key).
Proof. unfold publish. walk_respects. Qed.

Lemma unpublish_keys key : respects keys_kept (unpublish key).
Proof. unfold unpublish. walk_respects. Qed.

Lemma fire_keys_kept t w : keys_kept w (fire t w).
Proof.
  destruct t; cbn [fire].
  - apply run_keys_kept, startStream_keys.
  - apply run_keys_kept, stopStream_keys.
  - apply run_keys_kept, publish_keys.
  - apply run_keys_kept, unpublish_keys.
  - unfold keys_kept. rewrite child_exits_streams. auto.
  - split; reflexivity.
Qed.

Lemma fire_all_keys_kept ts w : keys_kept w (fire_all ts w).
Proof.
  revert w. induction ts as [| t ts IH]; intros w; cbn [fire_all fold_left].
  - apply keys_kept_refl.
  - eapply keys_kept_trans; [apply fire_keys_kept | apply IH].
Qed.

Lemma keys_kept_unique w w' : keys_kept w w' → unique_streams w → unique_streams w'.
Proof. unfold keys_kept, unique_streams. intros [-> ->]. trivial. Qed.

(** The run of [deleteStream], split at its last statement: what comes
    before the DELETE stops the recording and leaves the two tables
    alone. *)
Lemma deleteStream_split (streamId : string) (w : World) (s : Stream) :
  find_stream streamId w = Some s →
  ∃ (r0 : Result unit) w0,
    same_tables w w0
    ∧ recordingProcesses w0 = delete streamId (recordingProcesses w)
    ∧ children w0
      = match recordingProcesses w !! streamId with
        | Some pid => children (snd (kill pid w))
        | None => children w
        end
    ∧ run (deleteStream streamId) w
      = match r0 with
        | Ok _ => delete_from_streams streamId w0
        | Err e => (Err e, w0)
        end.
Proof.
  intros Hs. unfold deleteStream. rewrite run_bind, getStream_run, Hs.
  set (rec_part := match recording_path s with
                   | Some recording => _ | None => _ end).
  set (hls_part := match hls_path s with
                   | Some manifest => _ | None => _ end).
  set (R := λ a b : World, same_tables a b ∧ same_processes a b).
  assert (Hstop : same_tables w (snd (run (stopRecording streamId) w))
                  ∧ recordingProcesses (snd (run (stopRecording streamId) w))
                    = delete streamId (recordingProcesses w)
                  ∧ children (snd (run (stopRecording streamId) w))
                    = match recordingProcesses w !! streamId with
                      | Some pid => children (snd (kill pid w))
                      | None => children w
                      end
                  ∧ fst (run (stopRecording streamId) w) = Ok tt).
  { unfold stopRecording. run_prog.
    destruct (recordingProcesses w !! streamId) as [pid |] eqn:Hh; run_prog;
      fields; repeat split; try reflexivity.
    symmetry. apply delete_id. exact Hh. }
  destruct Hstop as (T1 & M1 & C1 & R1).
  rewrite run_bind. destruct (run (stopRecording streamId) w) as [r1 w1].
  cbn [fst snd] in *. subst r1.
  assert (Hrec : respects R rec_part).
  { subst rec_part R. destruct (recording_path s); unfold sync; cbn [bind];
      repeat first [ apply respects_Ret
                   | apply respects_Sync;
                       [unfold keeps, same_tables, same_processes; frame_prim
                       | intros []] ]. }
  assert (Hhls : respects R hls_part).
  { subst hls_part R. destruct (hls_path s); unfold sync; cbn [bind];
      repeat first [ apply respects_Ret
                   | apply respects_Sync;
                       [unfold keeps, same_tables, same_processes; frame_prim
                       | intros []] ]. }
  assert (Hrun : ∀ (p : Prog unit) a, respects R p → R a (snd (run p a))).
  { intros p a Hp. refine (run_respects R _ _ p a Hp); subst R.
    - intros x. repeat split.
    - unfold same_tables, same_processes.
      intros x y z [[-> ->] [-> ->]] [[-> ->] [-> ->]]. auto. }
  subst R. unfold same_processes in Hrun.
  rewrite run_bind. destruct (Hrun rec_part w1 Hrec) as (T2 & M2 & C2).
  destruct (run rec_part w1) as [[[] | e2] w2]; cbn [fst snd] in *.
  - rewrite run_bind. destruct (Hrun hls_part w2 Hhls) as (T3 & M3 & C3).
    destruct (run hls_part w2) as [[[] | e3] w3]; cbn [fst snd] in *.
    + exists (Ok tt), w3. split; [| split; [| split]].
      * eauto using same_tables_trans.
      * congruence.
      * congruence.
      * unfold await. cbn [run]. destruct (delete_from_streams streamId w3)
          as [[[] | e] w4]; reflexivity.
    + exists (Err e3), w3.
      split; [| split; [| split]]; [| congruence | congruence | reflexivity].
      eauto using same_tables_trans.
  - exists (Err e2), w2.
    split; [| split; [| split]]; [| congruence | congruence | reflexivity].
    eauto using same_tables_trans.
Qed.

Lemma NoDup_map_filter {A B : Type} (f : A → B) (g : A → bool) (l : list A) :
  NoDup (map f l) → NoDup (map f (List.filter g l)).
Proof.
  induction l as [| a l IH]; cbn; [trivial |].
  intros H. apply NoDup_cons in H as [Hnotin Hnd].
  destruct (g a); cbn; [| auto].
  apply NoDup_cons. split; [| auto].
  intros Hin. apply Hnotin.
  apply list_elem_of_In, in_map_iff in Hin as (x & <- & Hx).
  apply filter_In in Hx as [Hx _].
  apply list_elem_of_In, in_map. exact Hx.
Qed.

(** X3.  The primary key and the unique ingest key hold in every world the
    code reaches: if no two rows share an id and no two rows share an
    ingest key, that is still so after [createStream] (whether it inserts
    or is rejected), after every sequence of start, stop, publish,
    unpublish and process-exit triggers, after [updateStreamMetadata] and
    after [deleteStream]. *)
Theorem unique_streams_kept (w : World) :
  unique_streams w →
  (∀ d, unique_streams (snd (run (createStream d) w)))
  ∧ (∀ ts, unique_streams (fire_all ts w))
  ∧ (∀ id m, unique_streams (snd (run (updateStreamMetadata id m) w)))
  ∧ (∀ id, unique_streams (snd (run (deleteStream id) w))).
Proof.
  intros Hu. split; [| split; [| split]].
  - intros d. unfold createStream, await. cbn [run].
    unfold insert_into_streams. cbn [Stream_id ingest_key].
    destruct (existsb (has_id _) (streams w)) eqn:Hid; [exact Hu |].
    destruct (existsb (has_ingest_key _) (streams w)) eqn:Hkey; [exact Hu |].
    destruct Hu as [Hids Hkeys]. unfold unique_streams. cbn [snd]. fields.
    rewrite !map_app. cbn [map Stream_id ingest_key].
    split; apply NoDup_app; (split; [assumption |]);
      (split; [| apply NoDup_singleton]); intros x Hx Hx';
      apply list_elem_of_singleton in Hx'; subst x;
      apply list_elem_of_In, in_map_iff in Hx as (s & Heq & Hin).
    + assert (existsb (has_id (gen_random_uuid w (uuid_calls w))) (streams w)
              = true); [| congruence].
      apply existsb_exists. exists s. split; [exact Hin |].
      unfold has_id. rewrite Heq. apply String.eqb_refl.
    + assert (existsb (has_ingest_key (sd_ingestKey d)) (streams w) = true);
        [| congruence].
      apply existsb_exists. exists s. split; [exact Hin |].
      unfold has_ingest_key. rewrite Heq. apply String.eqb_refl.
  - intros ts. apply (keys_kept_unique w); [apply fire_all_keys_kept | exact Hu].
  - intros id m. apply (keys_kept_unique w); [| exact Hu].
    apply run_keys_kept. unfold updateStreamMetadata. walk_respects.
  - intros id. destruct (find_stream id w) as [s |] eqn:Hs.
    + destruct (deleteStream_split id w s Hs) as (r0 & w0 & [Ht _] & _ & _ & Hrun).
      rewrite Hrun. destruct Hu as [Hids Hkeys]. rewrite <- Ht in Hids, Hkeys.
      destruct r0; [| split; assumption].
      unfold unique_streams. cbn [delete_from_streams snd]. fields.
      split; apply NoDup_map_filter; assumption.
    + unfold deleteStream. rewrite run_bind, getStream_run, Hs. exact Hu.
Qed.

Lemma unique_streams_kept_witness :
  unique_streams world_live
  ∧ unique_streams
      (fire_all [stop "s1"; ingest_begun "k1"; start "s1"] world_live).
Proof.
  assert (H : unique_streams world_live).
  { split; vm_compute; apply NoDup_singleton. }
  split; [exact H |].
  destruct (unique_streams_kept world_live H) as (_ & Hts & _). apply Hts.
Defined.

(** ** The handle map and the children *)

Lemma stopStream_not_found (streamId : string) (w : World) :
  find_stream streamId w = None →
  run (stopStream streamId) w = (Err NotFound, w).
Proof.
  intros Hs. unfold stopStream. rewrite run_bind, getStream_run, Hs.
  reflexivity.
Qed.

(** What [startStream] does to the handle map and to the children:
    nothing, or one new child whose handle it registers. *)
Lemma startStream_processes (streamId : string) (w : World) :
  let w' := snd (run (startStream streamId) w) in
  same_processes w w'
  ∨ ∃ c, recordingProcesses w'
         = <[streamId := length (children w)]> (recordingProcesses w)
         ∧ children w' = children w ++ [c]
         ∧ child_stream c = streamId
         ∧ child_state c = (if spawn_enoent w then SpawnFailed else Running).
Proof.
  cbv zeta. destruct (find_stream streamId w) as [s |] eqn:Hs.
  - destruct (decide (status s = live)) as [Hlive | Hlive].
    + left. rewrite (startStream_live_rejected _ _ _ Hs Hlive). split; reflexivity.
    + destruct (decide (hlsDir_of streamId w ∈ files w)) as [Hex | Hex].
      * right.
        destruct (startStream_world _ _ _ Hs Hlive (or_introl Hex))
          as (_ & Hmap & Hch & _).
        eexists. split; [exact Hmap |]. split; [exact Hch |].
        split; reflexivity.
      * destruct (decide (hlsDir_of streamId w ∈ denied w)) as [Hden | Hden].
        -- left. rewrite (startStream_mkdir_fails _ _ _ Hs Hlive Hex Hden).
           split; reflexivity.
        -- right.
           destruct (startStream_world _ _ _ Hs Hlive (or_intror Hden))
             as (_ & Hmap & Hch & _).
           eexists. split; [exact Hmap |]. split; [exact Hch |].
           split; reflexivity.
  - left. rewrite (startStream_not_found _ _ Hs). split; reflexivity.
Qed.

Lemma handles_ok_same (w w' : World) :
  same_processes w w' → handles_ok w → handles_ok w'.
Proof.
  intros [Hm Hc] Hok id pid H. unfold handle_ok. rewrite Hm in H. rewrite Hc.
  exact (Hok id pid H).
Qed.

Lemma handles_ok_spawn (w w' : World) (streamId : string) (c : ChildProcess) :
  handles_ok w →
  recordingProcesses w'
  = <[streamId := length (children w)]> (recordingProcesses w) →
  children w' = children w ++ [c] →
  child_stream c = streamId →
  child_state c = Running ∨ child_state c = SpawnFailed →
  handles_ok w'.
Proof.
  intros Hok Hm Hc Hcs Hst id pid H. unfold handle_ok. rewrite Hm in H.
  rewrite Hc. destruct (decide (id = streamId)) as [-> | Hne].
  - rewrite lookup_insert_eq in H. injection H as <-. exists c.
    split; [| split; assumption].
    rewrite lookup_app_r by lia. rewrite Nat.sub_diag. reflexivity.
  - rewrite lookup_insert_ne in H by congruence.
    destruct (Hok id pid H) as (c' & Hc' & Hrest). exists c'.
    split; [| exact Hrest]. apply lookup_app_l_Some. exact Hc'.
Qed.

Lemma handles_ok_killed (w w' : World) (streamId : string) :
  handles_ok w →
  recordingProcesses w' = delete streamId (recordingProcesses w) →
  children w'
  = match recordingProcesses w !! streamId with
    | Some pid => children (snd (kill pid w))
    | None => children w
    end →
  handles_ok w'.
Proof.
  intros Hok Hm Hc id pid H. unfold handle_ok. rewrite Hm in H.
  apply lookup_delete_Some in H as [Hne H].
  destruct (Hok id pid H) as (c' & Hc' & Hcs' & Hst'). exists c'.
  split; [| split; assumption]. rewrite Hc.
  destruct (recordingProcesses w !! streamId) as [pid0 |] eqn:Hh;
    [| exact Hc'].
  destruct (Hok _ _ Hh) as (c0 & Hc0 & Hcs0 & _).
  assert (pid0 ≠ pid) by (intros ->; congruence).
  cbn [kill snd]. fields. rewrite Hc0.
  destruct (child_state c0); try exact Hc'.
  rewrite list_lookup_insert_ne by assumption. exact Hc'.
Qed.

Lemma handles_ok_exit (pid : nat) (w : World) :
  handles_ok w → handles_ok (child_exits pid w).
Proof.
  intros Hok. unfold child_exits.
  destruct (children w !! pid) as [c |] eqn:Hc; [| exact Hok].
  assert (Hgo : handles_ok
                  (with_recordingProcesses (delete (child_stream c))
                     (with_children (<[pid := set_child_state Exited c]>) w))).
  { intros id pid' H. unfold handle_ok. revert H. fields. intros H.
    apply lookup_delete_Some in H as [Hne H].
    destruct (Hok id pid' H) as (c' & Hc' & Hcs' & Hst'). exists c'.
    split; [| split; assumption].
    rewrite list_lookup_insert_ne; [exact Hc' |]. intros ->. congruence. }
  destruct (child_state c); try exact Hgo. exact Hok.
Qed.

#[local] Hint Extern 1 (keeps outside_kept _) =>
  unfold keeps, outside_kept; frame_prim : keeps.

Lemma outside_kept_refl w : outside_kept w w.
Proof. repeat split. Qed.

Lemma outside_kept_trans w1 w2 w3 :
  outside_kept w1 w2 → outside_kept w2 w3 → outside_kept w1 w3.
Proof.
  unfold outside_kept. intros (-> & -> & -> & ->) (-> & -> & -> & ->). auto.
Qed.

Lemma publish_outside key : respects outside_kept (publish key).
Proof. unfold publish. walk_respects. Qed.

Lemma unpublish_outside key : respects outside_kept (unpublish key).
Proof. unfold unpublish. walk_respects. Qed.

Lemma run_outside_kept {A : Type} (p : Prog A) (w : World) :
  respects outside_kept p → outside_kept w (snd (run p w)).
Proof.
  apply run_respects; [apply outside_kept_refl | apply outside_kept_trans].
Qed.

Lemma outside_same_processes w w' : outside_kept w w' → same_processes w w'.
Proof. intros (H1 & H2 & _). split; assumption. Qed.

Lemma fire_handles_ok (t : Trigger) (w : World) :
  handles_ok w → handles_ok (fire t w).
Proof.
  intros Hok. destruct t as [id | id | key | key | pid | js db]; cbn [fire].
  - destruct (startStream_processes id w) as [Hsame | (c & Hm & Hc & Hcs & Hst)].
    + exact (handles_ok_same _ _ Hsame Hok).
    + apply (handles_ok_spawn w _ id c Hok Hm Hc Hcs).
      rewrite Hst. destruct (spawn_enoent w); auto.
  - destruct (find_stream id w) as [s |] eqn:Hs.
    + destruct (stopStream_world _ _ _ Hs) as (_ & Hm & Hc & _).
      exact (handles_ok_killed w _ id Hok Hm Hc).
    + rewrite (stopStream_not_found _ _ Hs). exact Hok.
  - apply (handles_ok_same w); [| exact Hok].
    apply outside_same_processes, run_outside_kept, publish_outside.
  - apply (handles_ok_same w); [| exact Hok].
    apply outside_same_processes, run_outside_kept, unpublish_outside.
  - apply handles_ok_exit. exact Hok.
  - exact Hok.
Qed.

(** X4.  Every handle of the handle map refers to a child process of its
    own stream that has neither been signalled nor ended.  If that is so
    (as it is when the map is empty), it is still so after every sequence
    of start, stop, publish, unpublish and process-exit triggers, and
    after [deleteStream]: a stop or a deletion removes the handle of the
    child it signals, and the exit of a child removes the handle of its
    stream. *)
Theorem handles_refer_to_running_children (w : World) :
  handles_ok w →
  (∀ ts, handles_ok (fire_all ts w))
  ∧ (∀ streamId, handles_ok (snd (run (deleteStream streamId) w))).
Proof.
  intros Hok. split.
  - intros ts. revert w Hok.
    induction ts as [| t ts IH]; intros w Hok; cbn [fire_all fold_left];
      [exact Hok |].
    apply IH. apply fire_handles_ok. exact Hok.
  - intros id. destruct (find_stream id w) as [s |] eqn:Hs.
    + destruct (deleteStream_split id w s Hs) as (r0 & w0 & _ & Hm & Hc & Hrun).
      rewrite Hrun. pose proof (handles_ok_killed w w0 id Hok Hm Hc) as Hok0.
      destruct r0; [| exact Hok0].
      apply (handles_ok_same w0); [split; reflexivity | exact Hok0].
    + unfold deleteStream. rewrite run_bind, getStream_run, Hs. exact Hok.
Qed.

Lemma handles_refer_to_running_children_witness :
  handles_ok world_created
  ∧ handles_ok
      (fire_all [start "s1"; ingest_ended "k1"; start "s1"; process_exited 0]
         world_created).
Proof.
  assert (H : handles_ok world_created).
  { intros id pid Hh. vm_compute in Hh. discriminate. }
  split; [exact H |].
  apply (proj1 (handles_refer_to_running_children world_created H)).
Defined.

(** X5.  The ingest callbacks [/publish] and [/unpublish] act on the
    database only: whatever the key, they leave the handle map, the child
    processes, the files and the observers as they are, and neither spawn
    nor signal a process.  So the end of the ingest marks the stream
    'ended' while its recorder keeps running under its handle. *)
Theorem ingest_callbacks_act_on_the_database_only (key : string) (w : World) :
  outside_kept w (snd (run (publish key) w))
  ∧ outside_kept w (snd (run (unpublish key) w))
  ∧ process_effects (snd (run (publish key) w)) = process_effects w
  ∧ process_effects (snd (run (unpublish key) w)) = process_effects w
  ∧ (∀ row pid,
       find_by_ingest_key key w = Some row →
       find_stream (Stream_id row) w = Some row →
       recordingProcesses w !! Stream_id row = Some pid →
       let w' := snd (run (unpublish key) w) in
       status_of (Stream_id row) w' = Some ended
       ∧ recordingProcesses w' !! Stream_id row = Some pid
       ∧ children w' !! pid = children w !! pid).
Proof.
  split; [apply run_outside_kept, publish_outside |].
  split; [apply run_outside_kept, unpublish_outside |].
  split; [| split].
  - destruct (find_by_ingest_key key w) as [row |] eqn:Hk.
    + rewrite (publish_run _ _ _ Hk). unfold process_effects. fields.
      rewrite !List.filter_app. cbn. rewrite !app_nil_r. reflexivity.
    + rewrite (publish_unknown_key _ _ Hk). reflexivity.
  - destruct (find_by_ingest_key key w) as [row |] eqn:Hk.
    + rewrite (unpublish_run _ _ _ Hk). unfold process_effects. fields.
      rewrite !List.filter_app. cbn. rewrite !app_nil_r. reflexivity.
    + rewrite (unpublish_unknown_key _ _ Hk). reflexivity.
  - intros row pid Hk Hs Hh. cbv zeta.
    pose proof (unpublish_row _ _ _ Hk Hs) as Hrow. cbn [fire] in Hrow.
    destruct (run_outside_kept _ w (unpublish_outside key)) as (Hm & Hc & _).
    unfold status_of. rewrite Hrow, Hm, Hc. auto.
Qed.

Lemma ingest_callbacks_act_on_the_database_only_witness :
  find_by_ingest_key "k1" world_live <> None
  ∧ status_of "s1" (snd (run (unpublish "k1") world_live)) = Some ended
  ∧ recordingProcesses (snd (run (unpublish "k1") world_live)) !! "s1"
    = Some O.
Proof.
  split; [vm_compute; discriminate |].
  destruct (ingest_callbacks_act_on_the_database_only "k1" world_live)
    as (_ & _ & _ & _ & H).
  destruct (H (set_paths ["storage"; "recordings"; "s1.mp4"]
                 ["storage"; "hls"; "s1"; "index.m3u8"] 1000
                 (update_updated_at_column 1000 (set_live 1000 example_stream)))
              O) as (H1 & H2 & _); [reflexivity | reflexivity | reflexivity |].
  split; [exact H1 | exact H2].
Defined.

(** ** One stream and the others *)

Lemma find_update_other id other assign now (l : list Stream) :
  keeps_id assign → other ≠ id →
  List.find (has_id other) (map (update_row id assign now) l)
  = List.find (has_id other) l.
Proof.
  intros Hk Hne. rewrite find_update_streams by exact Hk.
  destruct (List.find (has_id other) l) as [s |] eqn:Hf; [| reflexivity].
  cbn. f_equal. apply update_row_miss.
  apply find_has_id, has_id_eq in Hf. unfold has_id. rewrite Hf.
  apply String.eqb_neq. exact Hne.
Qed.

Lemma find_filter_other id other (l : list Stream) :
  other ≠ id →
  List.find (has_id other) (List.filter (λ s, negb (has_id id s)) l)
  = List.find (has_id other) l.
Proof.
  intros Hne. induction l as [| s l IH]; [reflexivity |]. cbn [List.filter].
  destruct (has_id id s) eqn:Hid; cbn [negb List.find].
  - rewrite IH. apply has_id_eq in Hid. unfold has_id at 2. rewrite Hid.
    rewrite (proj2 (String.eqb_neq id other)) by congruence. reflexivity.
  - rewrite IH. reflexivity.
Qed.

Lemma events_of_app_other id other type data now (w w' : World) :
  other ≠ id →
  stream_events w' = stream_events w ++ [mkStreamEvent id type data now] →
  events_of other w' = events_of other w.
Proof.
  intros Hne H. unfold events_of. rewrite H, List.filter_app.
  cbn [List.filter ev_stream_id].
  rewrite (proj2 (String.eqb_neq id other)) by congruence. apply app_nil_r.
Qed.

Lemma events_filter_other id other (l : list StreamEvent) :
  other ≠ id →
  List.filter (λ e, String.eqb (ev_stream_id e) other)
    (List.filter (λ e, negb (String.eqb (ev_stream_id e) id)) l)
  = List.filter (λ e, String.eqb (ev_stream_id e) other) l.
Proof.
  intros Hne. induction l as [| e l IH]; [reflexivity |]. cbn [List.filter].
  destruct (String.eqb_spec (ev_stream_id e) id) as [Heq | Hneq];
    cbn [negb List.filter].
  - rewrite IH, Heq.
    rewrite (proj2 (String.eqb_neq id other)) by congruence. reflexivity.
  - rewrite IH. reflexivity.
Qed.

Lemma others_kept_refl id w : others_kept id w w.
Proof. intros other _. auto. Qed.

Lemma startStream_others (streamId : string) (w : World) :
  others_kept streamId w (snd (run (startStream streamId) w)).
Proof.
  destruct (find_stream streamId w) as [s |] eqn:Hs;
    [| rewrite (startStream_not_found _ _ Hs); apply others_kept_refl].
  destruct (decide (status s = live)) as [Hlive | Hlive];
    [rewrite (startStream_live_rejected _ _ _ Hs Hlive); apply others_kept_refl |].
  assert (Hgo : hlsDir_of streamId w ∈ files w ∨ hlsDir_of streamId w ∉ denied w →
                others_kept streamId w (snd (run (startStream streamId) w))).
  { intros Hdir other Hne.
    destruct (startStream_world _ _ _ Hs Hlive Hdir)
      as (Hst & Hmap & _ & _ & Hev & _).
    split; [| split].
    - unfold find_stream. rewrite Hst.
      rewrite !find_update_other by auto with streams. reflexivity.
    - rewrite Hmap. apply lookup_insert_ne. congruence.
    - exact (events_of_app_other _ _ _ _ _ _ _ Hne Hev). }
  destruct (decide (hlsDir_of streamId w ∈ files w)) as [Hex | Hex]; [auto |].
  destruct (decide (hlsDir_of streamId w ∈ denied w)) as [Hden | Hden]; [| auto].
  rewrite (startStream_mkdir_fails _ _ _ Hs Hlive Hex Hden).
  intros other Hne. cbn [update_streams snd]. unfold find_stream, events_of.
  fields. rewrite find_update_other by auto with streams. auto.
Qed.

Lemma stopStream_others (streamId : string) (w : World) :
  others_kept streamId w (snd (run (stopStream streamId) w)).
Proof.
  destruct (find_stream streamId w) as [s |] eqn:Hs;
    [| rewrite (stopStream_not_found _ _ Hs); apply others_kept_refl].
  intros other Hne.
  destruct (stopStream_world _ _ _ Hs) as (Hst & Hmap & _ & _ & Hev & _).
  split; [| split].
  - unfold find_stream. rewrite Hst.
    rewrite find_update_other by auto with streams. reflexivity.
  - rewrite Hmap. apply lookup_delete_ne. congruence.
  - exact (events_of_app_other _ _ _ _ _ _ _ Hne Hev).
Qed.

Lemma deleteStream_others (streamId : string) (w : World) :
  others_kept streamId w (snd (run (deleteStream streamId) w)).
Proof.
  destruct (find_stream streamId w) as [s |] eqn:Hs.
  - destruct (deleteStream_split _ _ _ Hs)
      as (r0 & w0 & [Hst Hev] & Hmap & _ & Hrun).
    rewrite Hrun. intros other Hne. unfold find_stream, events_of.
    destruct r0; cbn [delete_from_streams snd]; fields; rewrite Hst, Hev, Hmap.
    + rewrite find_filter_other, events_filter_other by assumption.
      split; [reflexivity |]. split; [| reflexivity].
      apply lookup_delete_ne. congruence.
    + split; [reflexivity |]. split; [| reflexivity].
      apply lookup_delete_ne. congruence.
  - unfold deleteStream. rewrite run_bind, getStream_run, Hs.
    apply others_kept_refl.
Qed.

(** X6.  An operation on one stream leaves the others alone: after
    [startStream], [stopStream], [updateStreamMetadata] or [deleteStream]
    on a stream, and after [/publish] or [/unpublish] for its ingest key,
    whether the operation returns or throws, every other stream has the
    row, the handle and the logged events it had before. *)
Theorem operations_leave_other_streams_alone (streamId : string) (w : World) :
  others_kept streamId w (snd (run (startStream streamId) w))
  ∧ others_kept streamId w (snd (run (stopStream streamId) w))
  ∧ (∀ m, others_kept streamId w
            (snd (run (updateStreamMetadata streamId m) w)))
  ∧ others_kept streamId w (snd (run (deleteStream streamId) w))
  ∧ (∀ key row, find_by_ingest_key key w = Some row →
       Stream_id row = streamId →
       others_kept streamId w (snd (run (publish key) w))
       ∧ others_kept streamId w (snd (run (unpublish key) w))).
Proof.
  split; [apply startStream_others |].
  split; [apply stopStream_others |].
  split; [| split; [apply deleteStream_others |]].
  - intros m other Hne. unfold updateStreamMetadata, await.
    cbn [run update_streams snd]. unfold find_stream, events_of. fields.
    rewrite find_update_other by auto with streams. auto.
  - intros key row Hk <-. split; intros other Hne.
    + rewrite (publish_run _ _ _ Hk). unfold find_stream, events_of. fields.
      rewrite find_update_other by auto with streams.
      rewrite List.filter_app. cbn [List.filter ev_stream_id].
      rewrite (proj2 (String.eqb_neq (Stream_id row) other)) by congruence.
      rewrite app_nil_r. auto.
    + rewrite (unpublish_run _ _ _ Hk). unfold find_stream, events_of. fields.
      rewrite find_update_other by auto with streams.
      rewrite List.filter_app. cbn [List.filter ev_stream_id].
      rewrite (proj2 (String.eqb_neq (Stream_id row) other)) by congruence.
      rewrite app_nil_r. auto.
Qed.

Lemma operations_leave_other_streams_alone_witness :
  find_by_ingest_key "k1" world_created = Some example_stream
  ∧ Stream_id example_stream = "s1"
  ∧ others_kept "s1" world_created (snd (run (publish "k1") world_created)).
Proof.
  split; [reflexivity |]. split; [reflexivity |].
  destruct (operations_leave_other_streams_alone "s1" world_created)
    as (_ & _ & _ & _ & H).
  apply (H "k1" example_stream); reflexivity.
Defined.

(** ** Unknown streams *)

(** X7.  An unknown stream changes nothing.  [startStream] and
    [stopStream] on an id that is not in the table throw "Stream not
    found"; [/publish] with a key that no stream has answers 403 "Invalid
    ingest key" and [/unpublish] answers 200 "OK"; in all four cases the
    world is left exactly as it was: no row, event, handle, process or
    observer is touched. *)
Theorem unknown_stream_changes_nothing (streamId key : string) (w : World) :
  find_stream streamId w = None →
  find_by_ingest_key key w = None →
  run (startStream streamId) w = (Err (Error "Stream not found"), w)
  ∧ run (stopStream streamId) w = (Err (Error "Stream not found"), w)
  ∧ run (publish key) w = (Ok (mkResponse 403 "Invalid ingest key"), w)
  ∧ run (unpublish key) w = (Ok (mkResponse 200 "OK"), w).
Proof.
  intros Hs Hk.
  split; [exact (startStream_not_found _ _ Hs) |].
  split; [exact (stopStream_not_found _ _ Hs) |].
  split; [exact (publish_unknown_key _ _ Hk) |].
  exact (unpublish_unknown_key _ _ Hk).
Qed.

Lemma unknown_stream_changes_nothing_witness :
  run (stopStream "s9") world_live = (Err (Error "Stream not found"), world_live)
  ∧ run (publish "k9") world_live
    = (Ok (mkResponse 403 "Invalid ingest key"), world_live).
Proof.
  destruct (unknown_stream_changes_nothing "s9" "k9" world_live)
    as (_ & H2 & H3 & _); [reflexivity | reflexivity |].
  split; [exact H2 | exact H3].
Defined.

(** ** [stopStream] and the durable archive *)

#[local] Hint Extern 1 (keeps same_files _) =>
  unfold keeps, same_files; frame_prim : keeps.

Lemma stopStream_files id : respects same_files (stopStream id).
Proof.
  unfold stopStream, getStream, stopRecording, logStreamEvent.
  walk_respects.
Qed.

(** X8.  [stopStream] hands the recording to the storage service exactly
    when the stream has a recording path and S3_BUCKET or MINIO_ENDPOINT
    is set, once, with that path and the stream id.  The outcome of the
    upload is not looked at: whether it fails or the file is missing, the
    stream is 'ended', [stopStream] returns normally (as long as no
    observer's [send] throws), and no file is removed or created. *)
Theorem stopStream_offload (streamId : string) (w : World) (s : Stream) :
  find_stream streamId w = Some s →
  let w' := snd (run (stopStream streamId) w) in
  uploads w'
  = uploads w
    ++ match recording_path s with
       | Some p => if offload_configured w then [Upload p streamId] else []
       | None => []
       end
  ∧ files w' = files w
  ∧ status_of streamId w' = Some ended
  ∧ (sends_ok w → fst (run (stopStream streamId) w) = Ok tt).
Proof.
  intros Hs. cbv zeta.
  destruct (stopStream_world _ _ _ Hs) as (_ & _ & _ & Htr & _ & Hres).
  split; [| split; [| split]].
  - unfold uploads. rewrite Htr, !List.filter_app.
    destruct (recordingProcesses w !! streamId);
      destruct (recording_path s); try destruct (offload_configured w);
      cbn [List.filter is_upload app]; rewrite ?app_nil_r; reflexivity.
  - refine (run_respects same_files _ _ _ w (stopStream_files streamId));
      unfold same_files; [reflexivity | congruence].
  - exact (stopStream_status _ _ _ Hs).
  - intros Hok. exact (proj1 (Hres Hok)).
Qed.

Lemma stopStream_offload_witness :
  upload_fails world_archive_down = true
  ∧ (["storage"; "recordings"; "s1.mp4"] ∉ files world_archive_down)
  ∧ fst (run (stopStream "s1") world_archive_down) = Ok tt
  ∧ uploads (snd (run (stopStream "s1") world_archive_down))
    = [Upload ["storage"; "recordings"; "s1.mp4"] "s1"]
  ∧ status_of "s1" (snd (run (stopStream "s1") world_archive_down))
    = Some ended.
Proof.
  split; [reflexivity |]. split; [vm_compute; set_solver |].
  destruct (stopStream_offload "s1" world_archive_down
              (set_paths ["storage"; "recordings"; "s1.mp4"]
                 ["storage"; "hls"; "s1"; "index.m3u8"] 1000
                 (update_updated_at_column 1000 (set_live 1000 example_stream))))
    as (Hup & _ & Hst & Hres); [reflexivity |].
  split; [apply Hres; constructor |]. split; [exact Hup | exact Hst].
Defined.

(** ** A start followed by a stop *)




(** ** [deleteStream]: the events and the ingest key *)

Lemma NoDup_map_eq {A B : Type} (f : A → B) (l : list A) (a b : A) :
  NoDup (map f l) → In a l → In b l → f a = f b → a = b.
Proof.
  induction l as [| x l IH]; cbn; [tauto |].
  intros Hnd. apply NoDup_cons in Hnd as [Hx Hnd].
  intros [-> | Ha] [-> | Hb] Heq; auto.
  - exfalso. apply Hx. rewrite Heq. apply list_elem_of_In, in_map. exact Hb.
  - exfalso. apply Hx. rewrite <- Heq. apply list_elem_of_In, in_map. exact Ha.
Qed.

Lemma events_of_after_delete id (l : list StreamEvent) :
  List.filter (λ e, String.eqb (ev_stream_id e) id)
    (List.filter (λ e, negb (String.eqb (ev_stream_id e) id)) l) = [].
Proof.
  induction l as [| e l IH]; [reflexivity |]. cbn [List.filter].
  destruct (String.eqb (ev_stream_id e) id) eqn:He; cbn [negb List.filter];
    [exact IH | rewrite He; exact IH].
Qed.

(** X10.  When [deleteStream] returns, the events logged for the stream
    are gone with its row (ON DELETE CASCADE), and its ingest key is free
    again: no row answers to the key, and a [createStream] with that key
    is accepted. *)
Theorem deleteStream_cascade
    (streamId : string) (w : World) (s : Stream) (d : StreamData) :
  find_stream streamId w = Some s →
  fst (run (deleteStream streamId) w) = Ok tt →
  unique_streams w →
  let w' := snd (run (deleteStream streamId) w) in
  events_of streamId w' = []
  ∧ run (getStream streamId) w' = (Ok None, w')
  ∧ find_by_ingest_key (ingest_key s) w' = None
  ∧ (sd_ingestKey d = ingest_key s →
     find_stream (gen_random_uuid w' (uuid_calls w')) w' = None →
     ∃ row, fst (run (createStream d) w') = Ok row
            ∧ ingest_key row = ingest_key s ∧ status row = created).
Proof.
  intros Hs Hr [_ Hkeys]. cbv zeta.
  destruct (deleteStream_split _ _ _ Hs) as (r0 & w0 & [Hst Hev] & _ & _ & Hrun).
  rewrite Hrun in *. destruct r0 as [[] | e]; [| discriminate].
  assert (Hgone : find_by_ingest_key (ingest_key s)
                    (snd (delete_from_streams streamId w0)) = None).
  { unfold find_by_ingest_key. cbn [delete_from_streams snd]. fields.
    rewrite Hst.
    destruct (List.find _ _) as [s' |] eqn:Hf; [exfalso | reflexivity].
    apply find_some in Hf as [Hin Hkey]. apply filter_In in Hin as [Hin Hid].
    assert (s' = s); [| subst s'].
    { apply (NoDup_map_eq ingest_key (streams w)); auto.
      - apply find_some in Hs. tauto.
      - apply String.eqb_eq. exact Hkey. }
    rewrite (find_has_id _ _ _ Hs) in Hid. discriminate. }
  split; [| split; [| split]].
  - unfold events_of. cbn [delete_from_streams snd]. fields.
    apply events_of_after_delete.
  - rewrite getStream_run. unfold find_stream.
    cbn [delete_from_streams snd]. fields. rewrite find_after_delete.
    reflexivity.
  - exact Hgone.
  - intros Hkey Hid. rewrite <- Hkey in Hgone.
    rewrite (createStream_run d _ Hid Hgone). eexists.
    split; [reflexivity |]. split; [exact Hkey | reflexivity].
Qed.

Lemma deleteStream_cascade_witness :
  let w' := snd (run (deleteStream "s1") world_ended) in
  fst (run (deleteStream "s1") world_ended) = Ok tt
  ∧ events_of "s1" world_ended <> []
  ∧ events_of "s1" w' = []
  ∧ ∃ row, fst (run (createStream (mkStreamData "u1" "Again" None "k1" None)) w')
           = Ok row ∧ ingest_key row = "k1" ∧ status row = created.
Proof.
  cbv zeta.
  assert (H1 : fst (run (deleteStream "s1") world_ended) = Ok tt)
    by (vm_compute; reflexivity).
  split; [exact H1 |]. split; [vm_compute; discriminate |].
  destruct (deleteStream_cascade "s1" world_ended
              (update_updated_at_column 5000
                 (set_ended 4 5000
                    (set_paths ["storage"; "recordings"; "s1.mp4"]
                       ["storage"; "hls"; "s1"; "index.m3u8"] 1000
                       (update_updated_at_column 1000
                          (set_live 1000 example_stream)))))
              (mkStreamData "u1" "Again" None "k1" None))
    as (Hev & _ & _ & Hcreate).
  - vm_compute. reflexivity.
  - exact H1.
  - split; vm_compute; apply NoDup_singleton.
  - split; [exact Hev |]. apply Hcreate; vm_compute; reflexivity.
Defined.

(** ** [getUserStreams] *)

#[local] Instance newest_first_total : Total newest_first.
Proof. intros a b. unfold newest_first. lia. Qed.

#[local] Instance newest_first_trans : Transitive newest_first.
Proof. intros a b c. unfold newest_first. lia. Qed.






(** ** [getStreamAnalytics] *)

Lemma fold_insert_counts (g : string → Z) (ts : list string) (m : gmap string Z)
    (t : string) :
  fold_left (λ (acc : gmap string Z) row, <[fst row := snd row]> acc)
    (map (λ t, (t, g t)) ts) m !! t
  = if bool_decide (t ∈ ts) then Some (g t) else m !! t.
Proof.
  revert m. induction ts as [| t0 ts IH]; intros m; cbn [map fold_left fst snd].
  - rewrite bool_decide_eq_false_2 by apply not_elem_of_nil. reflexivity.
  - rewrite IH. destruct (decide (t ∈ ts)) as [Hin | Hin].
    + rewrite !bool_decide_eq_true_2; [reflexivity | | exact Hin].
      apply elem_of_cons. right. exact Hin.
    + rewrite (bool_decide_eq_false_2 _ Hin).
      destruct (decide (t = t0)) as [-> | Hne].
      * rewrite lookup_insert_eq. rewrite bool_decide_eq_true_2; [reflexivity |].
        apply elem_of_cons. left. reflexivity.
      * rewrite lookup_insert_ne by congruence.
        rewrite bool_decide_eq_false_2; [reflexivity |].
        intros H. apply elem_of_cons in H as [H | H]; congruence.
Qed.

Lemma count_zero_not_in (t : string) (evs : list StreamEvent) :
  length (List.filter (has_event_type t) evs) = O ↔ t ∉ map event_type evs.
Proof.
  induction evs as [| e evs IH]; cbn [List.filter map].
  - split; [intros _; apply not_elem_of_nil | reflexivity].
  - unfold has_event_type at 1.
    destruct (String.eqb_spec (event_type e) t) as [Heq | Hne]; cbn [length].
    + split; [discriminate |]. intros H. exfalso. apply H.
      apply elem_of_cons. left. congruence.
    + rewrite IH. split.
      * intros H Hin. apply elem_of_cons in Hin as [Hin | Hin]; congruence.
      * intros H Hin. apply H. apply elem_of_cons. right. exact Hin.
Qed.

(** X12.  [getStreamAnalytics] only reads.  For every event type, the
    [events] object holds the number of events of that type logged for
    the stream, and has no entry for a type without events.  [duration],
    [maxViewers] and [currentViewers] are those of the row, a NULL
    duration being read as 0; for an unknown stream id nothing is thrown:
    the three numbers are 0. *)
Theorem getStreamAnalytics_counts (streamId : string) (w : World) :
  ∃ analytics,
    run (getStreamAnalytics streamId) w = (Ok analytics, w)
    ∧ (∀ type,
         an_events analytics !! type
         = match length (List.filter (has_event_type type)
                           (events_of streamId w)) with
           | O => None
           | n => Some (Z.of_nat n)
           end)
    ∧ match find_stream streamId w with
      | Some s =>
          an_duration analytics = default 0 (duration s)
          ∧ an_maxViewers analytics = max_viewers s
          ∧ an_currentViewers analytics = viewer_count s
      | None =>
          an_duration analytics = 0
          ∧ an_maxViewers analytics = 0
          ∧ an_currentViewers analytics = 0
      end.
Proof.
  set (events :=
         fold_left (λ (acc : gmap string Z) row, <[fst row := snd row]> acc)
           (map (λ t, (t, Z.of_nat (length (List.filter (has_event_type t)
                                              (events_of streamId w)))))
              (remove_dups (map event_type (events_of streamId w)))) ∅).
  exists (match find_stream streamId w with
          | Some s =>
              mkAnalytics (default 0 (duration s)) (max_viewers s)
                (viewer_count s) events
          | None => mkAnalytics 0 0 0 events
          end).
  split; [| split].
  - unfold getStreamAnalytics, await, select_event_counts, select_counters.
    cbn [run bind]. unfold find_stream. rewrite <- filter_head_find.
    destruct (List.filter (has_id streamId) (streams w)) as [| s rest];
      reflexivity.
  - intros type.
    assert (Hev : an_events
                    (match find_stream streamId w with
                     | Some s =>
                         mkAnalytics (default 0 (duration s)) (max_viewers s)
                           (viewer_count s) events
                     | None => mkAnalytics 0 0 0 events
                     end) = events)
      by (destruct (find_stream streamId w); reflexivity).
    rewrite Hev. subst events.
    rewrite (fold_insert_counts
               (λ t, Z.of_nat (length (List.filter (has_event_type t)
                                         (events_of streamId w))))).
    destruct (length (List.filter (has_event_type type) (events_of streamId w)))
      as [| n] eqn:Hn.
    + rewrite bool_decide_eq_false_2; [apply lookup_empty |].
      rewrite elem_of_remove_dups. apply count_zero_not_in. exact Hn.
    + rewrite bool_decide_eq_true_2; [reflexivity |].
      rewrite elem_of_remove_dups.
      destruct (decide (type ∈ map event_type (events_of streamId w)))
        as [Hin | Hin]; [exact Hin |].
      apply count_zero_not_in in Hin. congruence.
  - destruct (find_stream streamId w); repeat split; reflexivity.
Qed.

(** ** [StreamManager.cleanup] *)

Lemma kill_children_lookup (pid i : nat) (w : World) (c : ChildProcess) :
  children w !! i = Some c →
  children (snd (kill pid w)) !! i
  = Some (if bool_decide (i = pid ∧ child_state c = Running)
          then set_child_state Terminating c else c).
Proof.
  intros Hc. cbn [kill snd]. fields.
  destruct (decide (i = pid)) as [-> | Hne].
  - rewrite Hc. destruct (child_state c) eqn:Hst.
    + rewrite list_lookup_insert_eq by (apply lookup_lt_Some in Hc; exact Hc).
      rewrite bool_decide_eq_true_2 by auto. reflexivity.
    + rewrite bool_decide_eq_false_2 by (intros [_ ?]; congruence). exact Hc.
    + rewrite bool_decide_eq_false_2 by (intros [_ ?]; congruence). exact Hc.
    + rewrite bool_decide_eq_false_2 by (intros [_ ?]; congruence). exact Hc.
  - rewrite bool_decide_eq_false_2 by (intros [? _]; congruence).
    destruct (children w !! pid) as [c0 |]; [| exact Hc].
    destruct (child_state c0); try exact Hc.
    rewrite list_lookup_insert_ne by congruence. exact Hc.
Qed.

Lemma kill_entries (entries : list (string * nat)) (w : World) :
  let w' := snd (run (forEach entries (λ entry, sync (kill (snd entry)))) w) in
  fst (run (forEach entries (λ entry, sync (kill (snd entry)))) w) = Ok tt
  ∧ same_tables w w'
  ∧ recordingProcesses w' = recordingProcesses w
  ∧ process_effects w'
    = process_effects w ++ map (λ entry, Kill (snd entry)) entries
  ∧ (∀ i c, children w !! i = Some c →
       children w' !! i
       = Some (if bool_decide (i ∈ map snd entries ∧ child_state c = Running)
               then set_child_state Terminating c else c)).
Proof.
  revert w. induction entries as [| [id pid] entries IH]; intros w; cbv zeta.
  - cbn [forEach run fst snd map]. rewrite app_nil_r.
    repeat split. intros i c Hc.
    rewrite bool_decide_eq_false_2; [exact Hc |].
    intros [H _]. apply not_elem_of_nil in H. exact H.
  - cbn [forEach]. rewrite run_bind. cbn [snd].
    set (w1 := snd (kill pid w)).
    assert (Hk : run (sync (kill pid)) w = (Ok tt, w1)) by reflexivity.
    rewrite Hk.
    destruct (IH w1) as (Hr & [Hst Hev] & Hm & Hp & Hc). cbv zeta in *.
    split; [exact Hr |].
    split; [unfold same_tables; rewrite Hst, Hev; split; reflexivity |].
    split; [rewrite Hm; reflexivity |]. split.
    + rewrite Hp. subst w1. unfold process_effects. cbn [kill snd]. fields.
      rewrite List.filter_app. cbn [List.filter is_process_effect map snd].
      rewrite <- app_assoc. reflexivity.
    + intros i c Hi. pose proof (kill_children_lookup pid i w c Hi) as H1.
      fold w1 in H1. rewrite (Hc i _ H1). f_equal. cbn [map snd].
      destruct (decide (i = pid)) as [-> | Hne];
        destruct (decide (child_state c = Running)) as [Hrun | Hrun].
      * rewrite (bool_decide_eq_true_2 (pid = pid ∧ _)) by auto.
        rewrite bool_decide_eq_false_2 by (cbn; intros [_ ?]; congruence).
        rewrite bool_decide_eq_true_2; [reflexivity |].
        split; [apply elem_of_cons; left; reflexivity | exact Hrun].
      * rewrite (bool_decide_eq_false_2 (pid = pid ∧ _)) by tauto.
        rewrite !bool_decide_eq_false_2 by tauto. reflexivity.
      * rewrite (bool_decide_eq_false_2 (i = pid ∧ _)) by tauto.
        destruct (decide (i ∈ map snd entries)) as [Hin | Hin].
        -- rewrite !bool_decide_eq_true_2; [reflexivity | | auto].
           split; [apply elem_of_cons; right; exact Hin | exact Hrun].
        -- rewrite !bool_decide_eq_false_2; [reflexivity | | tauto].
           intros [H _]. apply elem_of_cons in H as [H | H]; congruence.
      * rewrite (bool_decide_eq_false_2 (i = pid ∧ _)) by tauto.
        rewrite !bool_decide_eq_false_2 by tauto. reflexivity.
Qed.

Lemma streamManager_cleanup_run (w : World) :
  run streamManager_cleanup w
  = (Ok tt,
     with_recordingProcesses (λ _, ∅)
       (snd (run (forEach (map_to_list (recordingProcesses w))
                    (λ entry, sync (kill (snd entry)))) w))).
Proof.
  unfold streamManager_cleanup. rewrite run_bind.
  change (run (sync recordingProcesses_entries) w)
    with (Ok (map_to_list (recordingProcesses w)), w).
  cbv iota beta. rewrite run_bind.
  destruct (kill_entries (map_to_list (recordingProcesses w)) w) as (Hr & _).
  destruct (run (forEach _ _) w) as [r1 w1]. cbn [fst snd] in *. subst r1.
  reflexivity.
Qed.

(** X13.  [StreamManager.cleanup], the shutdown hook: it returns
    normally and leaves the handle map empty.  Every child that had a
    handle and was running has been sent SIGTERM; the children without a
    handle are not signalled, so a recorder whose handle was overwritten
    or dropped keeps running.  The database is not written: a stream that
    was 'live' is still 'live' after the shutdown. *)
Theorem streamManager_cleanup_effects (w : World) :
  let w' := snd (run streamManager_cleanup w) in
  fst (run streamManager_cleanup w) = Ok tt
  ∧ recordingProcesses w' = ∅
  ∧ streams w' = streams w
  ∧ stream_events w' = stream_events w
  ∧ (∀ streamId pid c,
       recordingProcesses w !! streamId = Some pid →
       children w !! pid = Some c →
       children w' !! pid
       = Some (if bool_decide (child_state c = Running)
               then set_child_state Terminating c else c))
  ∧ (∀ pid c,
       children w !! pid = Some c →
       (∀ streamId, recordingProcesses w !! streamId ≠ Some pid) →
       children w' !! pid = Some c).
Proof.
  cbv zeta. rewrite streamManager_cleanup_run.
  destruct (kill_entries (map_to_list (recordingProcesses w)) w)
    as (_ & [Hst Hev] & Hm & _ & Hc). cbv zeta in *.
  set (w1 := snd (run (forEach _ _) w)) in *. fields.
  split; [reflexivity |]. split; [reflexivity |].
  split; [exact Hst |]. split; [exact Hev |]. split.
  - intros id pid c Hh Hi. rewrite (Hc _ _ Hi). f_equal.
    assert (Hin : pid ∈ map snd (map_to_list (recordingProcesses w))).
    { apply list_elem_of_In, in_map_iff. exists (id, pid).
      split; [reflexivity |]. apply list_elem_of_In, elem_of_map_to_list.
      exact Hh. }
    destruct (decide (child_state c = Running)) as [Hrun | Hrun].
    + rewrite !bool_decide_eq_true_2 by auto. reflexivity.
    + rewrite !bool_decide_eq_false_2 by tauto. reflexivity.
  - intros pid c Hi Hno. rewrite (Hc _ _ Hi).
    rewrite bool_decide_eq_false_2; [reflexivity |].
    intros [Hin _]. apply list_elem_of_In, in_map_iff in Hin as ([id p] & Heq & Hin).
    cbn in Heq. subst p. apply list_elem_of_In, elem_of_map_to_list in Hin.
    exact (Hno id Hin).
Qed.

Lemma streamManager_cleanup_effects_witness :
  recordingProcesses world_live !! "s1" = Some O
  ∧ status_of "s1" (snd (run streamManager_cleanup world_live)) = Some live
  ∧ children (snd (run streamManager_cleanup world_live)) !! O
    = Some (mkChild "s1" "rtmp://localhost:1935/live/k1"
              ["storage"; "hls"; "s1"; "index.m3u8"]
              ["storage"; "recordings"; "s1.mp4"] Terminating).
Proof.
  split; [reflexivity |].
  destruct (streamManager_cleanup_effects world_live)
    as (_ & _ & Hst & _ & Hc & _).
  split.
  - unfold status_of, find_stream. rewrite Hst. reflexivity.
  - rewrite (Hc "s1" O
               (mkChild "s1" "rtmp://localhost:1935/live/k1"
                  ["storage"; "hls"; "s1"; "index.m3u8"]
                  ["storage"; "recordings"; "s1.mp4"] Running));
      reflexivity.
Defined.

(** ** [ensureDirectories] *)







(** ** Recorders without a handle *)

Lemma orphan_same (pid : nat) (w w' : World) :
  same_processes w w' → orphan pid w → orphan pid w'.
Proof. intros [Hm Hc] [Hrun Hno]. unfold orphan. rewrite Hm, Hc. auto. Qed.

Lemma orphan_spawn (pid : nat) (w w' : World) (streamId : string)
    (c : ChildProcess) :
  orphan pid w →
  recordingProcesses w'
  = <[streamId := length (children w)]> (recordingProcesses w) →
  children w' = children w ++ [c] →
  orphan pid w'.
Proof.
  intros [(c0 & Hc0 & Hrun) Hno] Hm Hc. split.
  - exists c0. split; [| exact Hrun]. rewrite Hc.
    apply lookup_app_l_Some. exact Hc0.
  - intros id. rewrite Hm. destruct (decide (id = streamId)) as [-> | Hne].
    + rewrite lookup_insert_eq. intros [= Heq].
      apply lookup_lt_Some in Hc0. lia.
    + rewrite lookup_insert_ne by congruence. apply Hno.
Qed.

Lemma orphan_killed (pid : nat) (w w' : World) (streamId : string) :
  orphan pid w →
  recordingProcesses w' = delete streamId (recordingProcesses w) →
  children w'
  = match recordingProcesses w !! streamId with
    | Some pid0 => children (snd (kill pid0 w))
    | None => children w
    end →
  orphan pid w'.
Proof.
  intros [(c0 & Hc0 & Hrun) Hno] Hm Hc. split.
  - exists c0. split; [| exact Hrun]. rewrite Hc.
    destruct (recordingProcesses w !! streamId) as [pid0 |] eqn:Hh;
      [| exact Hc0].
    rewrite (kill_children_lookup pid0 pid w c0 Hc0).
    rewrite bool_decide_eq_false_2; [reflexivity |].
    intros [-> _]. exact (Hno _ Hh).
  - intros id. rewrite Hm. intros H.
    apply lookup_delete_Some in H as [_ H]. exact (Hno _ H).
Qed.

Lemma orphan_exit (pid pid' : nat) (w : World) :
  pid' ≠ pid → orphan pid w → orphan pid (child_exits pid' w).
Proof.
  intros Hne [(c0 & Hc0 & Hrun) Hno]. unfold child_exits.
  destruct (children w !! pid') as [c |] eqn:Hc; [| split; eauto].
  assert (Hgo : orphan pid
                  (with_recordingProcesses (delete (child_stream c))
                     (with_children (<[pid' := set_child_state Exited c]>) w))).
  { split.
    - exists c0. fields. split; [| exact Hrun].
      rewrite list_lookup_insert_ne by congruence. exact Hc0.
    - intros id. fields. intros H.
      apply lookup_delete_Some in H as [_ H]. exact (Hno _ H). }
  destruct (child_state c); try exact Hgo. split; eauto.
Qed.

Lemma fire_orphan (pid : nat) (t : Trigger) (w : World) :
  t ≠ process_exited pid → orphan pid w → orphan pid (fire t w).
Proof.
  intros Ht Ho. destruct t as [id | id | key | key | pid' | js db];
    cbn [fire].
  - destruct (startStream_processes id w) as [Hsame | (c & Hm & Hc & _)].
    + exact (orphan_same _ _ _ Hsame Ho).
    + exact (orphan_spawn _ _ _ _ _ Ho Hm Hc).
  - destruct (find_stream id w) as [s |] eqn:Hs.
    + destruct (stopStream_world _ _ _ Hs) as (_ & Hm & Hc & _).
      exact (orphan_killed _ _ _ _ Ho Hm Hc).
    + rewrite (stopStream_not_found _ _ Hs). exact Ho.
  - apply (orphan_same pid w); [| exact Ho].
    apply outside_same_processes, run_outside_kept, publish_outside.
  - apply (orphan_same pid w); [| exact Ho].
    apply outside_same_processes, run_outside_kept, unpublish_outside.
  - apply orphan_exit; [congruence | exact Ho].
  - exact Ho.
Qed.

(** X15.  A recorder that has lost its handle is out of reach.  If a
    child is running and no handle refers to it, then after every
    sequence of start, stop, publish and unpublish triggers and of exits
    of other children it is still running and still without a handle;
    [deleteStream] and the shutdown hook [StreamManager.cleanup] do not
    signal it either.  This is how a recorder gets there: a start on a
    stream that is not live while its former recorder is still running
    under its handle registers the new child in place of the old one. *)
Theorem orphaned_recorder_keeps_running (pid : nat) (w : World) :
  (orphan pid w →
   (∀ ts, Forall (λ t, t ≠ process_exited pid) ts → orphan pid (fire_all ts w))
   ∧ (∀ streamId, orphan pid (snd (run (deleteStream streamId) w)))
   ∧ (∃ c, children (snd (run streamManager_cleanup w)) !! pid = Some c
           ∧ child_state c = Running))
  ∧ (∀ streamId s c,
       find_stream streamId w = Some s → status s ≠ live →
       hlsDir_of streamId w ∈ files w ∨ hlsDir_of streamId w ∉ denied w →
       handles_ok w →
       recordingProcesses w !! streamId = Some pid →
       children w !! pid = Some c → child_state c = Running →
       orphan pid (snd (run (startStream streamId) w))).
Proof.
  split.
  - intros Ho. split; [| split].
    + intros ts Hts. revert w Ho.
      induction Hts as [| t ts Ht _ IH]; intros w Ho; cbn [fire_all fold_left];
        [exact Ho |].
      apply IH. apply fire_orphan; assumption.
    + intros id. destruct (find_stream id w) as [s |] eqn:Hs.
      * destruct (deleteStream_split id w s Hs)
          as (r0 & w0 & _ & Hm & Hc & Hrun).
        rewrite Hrun. pose proof (orphan_killed _ _ _ _ Ho Hm Hc) as Ho0.
        destruct r0; [| exact Ho0].
        apply (orphan_same pid w0); [split; reflexivity | exact Ho0].
      * unfold deleteStream. rewrite run_bind, getStream_run, Hs. exact Ho.
    + destruct Ho as [(c & Hc & Hrun) Hno]. exists c.
      rewrite streamManager_cleanup_run. fields.
      destruct (kill_entries (map_to_list (recordingProcesses w)) w)
        as (_ & _ & _ & _ & Hch).
      cbv zeta in Hch. rewrite (Hch _ _ Hc).
      rewrite bool_decide_eq_false_2; [auto |].
      intros [Hin _].
      apply list_elem_of_In, in_map_iff in Hin as ([id p] & Heq & Hin).
      cbn in Heq. subst p. apply list_elem_of_In, elem_of_map_to_list in Hin.
      exact (Hno id Hin).
  - intros id s c Hs Hlive Hdir Hok Hh Hc Hrun.
    destruct (startStream_world _ _ _ Hs Hlive Hdir) as (_ & Hm & Hch & _).
    split.
    + exists c. split; [| exact Hrun]. rewrite Hch.
      apply lookup_app_l_Some. exact Hc.
    + intros id'. rewrite Hm. destruct (decide (id' = id)) as [-> | Hne].
      * rewrite lookup_insert_eq. intros [= Heq].
        apply lookup_lt_Some in Hc. lia.
      * rewrite lookup_insert_ne by congruence. intros H.
        destruct (Hok _ _ H) as (c' & Hc' & Hcs' & _).
        destruct (Hok _ _ Hh) as (c'' & Hc'' & Hcs'' & _).
        congruence.
Qed.

Lemma orphaned_recorder_keeps_running_witness :
  let w1 := fire_all [ingest_ended "k1"; start "s1"] world_live in
  orphan O w1
  ∧ orphan O (fire_all [stop "s1"; start "s1"; stop "s1"] w1)
  ∧ spawned "s1" w1 = 2%nat.
Proof.
  cbv zeta.
  assert (Ho : orphan O (fire_all [ingest_ended "k1"; start "s1"] world_live)).
  { split.
    - eexists. split; [vm_compute; reflexivity | reflexivity].
    - intros id H. vm_compute in H.
      destruct (decide (id = "s1")) as [-> | Hne].
      + vm_compute in H. discriminate.
      + change (({[ "s1" := 1%nat ]} : gmap string nat) !! id = Some O) in H.
        rewrite lookup_singleton_ne in H by congruence. discriminate. }
  split; [exact Ho |]. split; [| vm_compute; reflexivity].
  destruct (orphaned_recorder_keeps_running O
              (fire_all [ingest_ended "k1"; start "s1"] world_live))
    as (H & _).
  destruct (H Ho) as (Hts & _). apply Hts.
  repeat constructor; discriminate.
Defined.

(** ** WebSocket connections and client messages *)

Lemma send_to_ids ws message cs :
  map ws_id (snd (send_to ws message cs)) = map ws_id cs.
Proof.
  induction cs as [| c cs IH]; [reflexivity |]. cbn [send_to].
  destruct (has_ws_id ws c).
  - destruct (bool_decide (readyState c = OPEN)); [| reflexivity].
    unfold ws_send. destruct (link c); reflexivity.
  - destruct (send_to ws message cs) as [r cs']. cbn [snd map] in *.
    rewrite IH. reflexivity.
Qed.

Lemma send_to_others ws message cs i c :
  cs !! i = Some c → ws_id c ≠ ws →
  snd (send_to ws message cs) !! i = Some c.
Proof.
  revert i. induction cs as [| c0 cs IH]; intros i Hi Hne; [discriminate |].
  cbn [send_to]. destruct (has_ws_id ws c0) eqn:Hid.
  - assert (Hsame : ∀ c0', (c0' :: cs) !! i = Some c).
    { intros c0'. destruct i as [| i]; [| exact Hi].
      cbn in Hi. injection Hi as ->. unfold has_ws_id in Hid.
      apply Nat.eqb_eq in Hid. congruence. }
    destruct (bool_decide (readyState c0 = OPEN)); [| apply Hsame].
    unfold ws_send. destruct (link c0); apply Hsame.
  - destruct (send_to ws message cs) as [r cs'] eqn:Hsend. cbn [snd] in *.
    destruct i as [| i]; [exact Hi |]. cbn. apply IH; assumption.
Qed.

Lemma send_to_absent ws message cs :
  existsb (has_ws_id ws) cs = false → send_to ws message cs = (Ok tt, cs).
Proof.
  induction cs as [| c cs IH]; [reflexivity |]. cbn [existsb send_to].
  intros H. apply orb_false_iff in H as [Hc Hcs]. rewrite Hc, (IH Hcs).
  reflexivity.
Qed.



Lemma with_clients_same (w : World) : with_clients (λ _, clients w) w = w.
Proof. destruct w; reflexivity. Qed.




Lemma sendToClient_clients ws type data w :
  sendToClient ws type data w
  = (fst (send_to ws (mkMessage type data (js_now w)) (clients w)),
     with_clients
       (λ _, snd (send_to ws (mkMessage type data (js_now w)) (clients w))) w).
Proof.
  unfold sendToClient.
  destruct (send_to ws (mkMessage type data (js_now w)) (clients w)).
  reflexivity.
Qed.

Lemma send_to_first ws message cs c :
  List.find (has_ws_id ws) cs = Some c →
  readyState c = OPEN → link c = Delivers →
  List.find (has_ws_id ws) (snd (send_to ws message cs))
  = Some (set_received (received c ++ [message]) c).
Proof.
  intros Hf Ho Hl. induction cs as [| c0 cs IH]; [discriminate |].
  cbn [List.find send_to] in *. destruct (has_ws_id ws c0) eqn:Hid.
  - injection Hf as ->. rewrite (bool_decide_eq_true_2 _ Ho).
    unfold ws_send. rewrite Hl. cbn [snd List.find].
    unfold has_ws_id in *. cbn [ws_id set_received]. rewrite Hid. reflexivity.
  - destruct (send_to ws message cs) as [r cs']. cbn [snd List.find] in *.
    rewrite Hid. apply IH. exact Hf.
Qed.

(** X17.  A message of a client never changes who is in the set, never
    touches another client, and changes nothing in the world beyond the
    sender's socket; nothing leaves the listener, whatever the data
    (unparsable data, [null], a [send] that throws).  Only a message
    whose [type] is 'ping' is answered: any other message leaves the
    world as it is, and a ping from an open socket whose [send] works is
    answered with one 'pong' carrying the time, sent to that socket
    alone. *)
Theorem client_message_effects (ws : nat) (parsed : option Json) (w : World) :
  let w' := ws_on_message ws parsed w in
  map ws_id (clients w') = map ws_id (clients w)
  ∧ (∀ i c, clients w !! i = Some c → ws_id c ≠ ws → clients w' !! i = Some c)
  ∧ with_clients (λ _, clients w) w' = w
  ∧ (is_ping parsed = false → w' = w)
  ∧ (∀ c, is_ping parsed = true →
       List.find (has_ws_id ws) (clients w) = Some c →
       readyState c = OPEN → link c = Delivers →
       List.find (has_ws_id ws) (clients w')
       = Some (set_received (received c ++ [pong (js_now w)]) c)).
Proof.
  cbv zeta. unfold ws_on_message, try_catch, handleClientMessage, message_type.
  assert (Hsend : ∀ type data,
            let w' := snd (sendToClient ws type data w) in
            map ws_id (clients w') = map ws_id (clients w)
            ∧ (∀ i c, clients w !! i = Some c → ws_id c ≠ ws →
                      clients w' !! i = Some c)
            ∧ with_clients (λ _, clients w) w' = w).
  { intros type data. cbv zeta. rewrite sendToClient_clients. cbn [snd]. fields.
    split; [apply send_to_ids |]. split; [intros i c; apply send_to_others |].
    destruct w; reflexivity. }
  assert (Hsame : map ws_id (clients w) = map ws_id (clients w)
                  ∧ (∀ i c, clients w !! i = Some c → ws_id c ≠ ws →
                            clients w !! i = Some c)
                  ∧ with_clients (λ _, clients w) w = w).
  { split; [reflexivity |]. split; [auto | apply with_clients_same]. }
  destruct parsed as [message |]; cbn [snd is_ping];
    [| destruct Hsame as (H1 & H2 & H3); repeat split; auto; discriminate].
  destruct message as [| b | n | s | items | members]; cbn [snd is_string];
    try (destruct Hsame as (H1 & H2 & H3); repeat split; auto; discriminate).
  destruct (is_string "ping" (get_property "type" members)); cbn [snd].
  - destruct (Hsend "pong" (JObj [("timestamp", JNum (js_now w))]))
      as (H1 & H2 & H3).
    split; [exact H1 |]. split; [exact H2 |]. split; [exact H3 |].
    split; [discriminate |].
    intros c _ Hf Ho Hl. rewrite sendToClient_clients. cbn [snd]. fields.
    apply send_to_first; assumption.
  - destruct Hsame as (H1 & H2 & H3). repeat split; auto; discriminate.
Qed.

Lemma client_message_effects_witness :
  is_ping (Some (JObj [("type", JStr "ping")])) = true
  ∧ List.find (has_ws_id 3)
      (clients (ws_on_message 3 (Some (JObj [("type", JStr "ping")]))
                  world_observed))
    = Some (set_received [pong 1000] (example_observer 3 Delivers)).
Proof.
  split; [reflexivity |].
  destruct (client_message_effects 3 (Some (JObj [("type", JStr "ping")]))
              world_observed) as (_ & _ & _ & _ & H).
  apply (H (example_observer 3 Delivers)); reflexivity.
Defined.

(** ** routes/streams.ts: the owner check *)

Ltac route_lookup Hs :=
  rewrite run_bind, getStream_run, Hs; cbv iota beta.



(** X19.  For the owner of the stream the routes add nothing to the
    methods of [StreamManager]: [POST /:id/start], [POST /:id/stop] and
    [DELETE /:id] run [startStream], [stopStream] and [deleteStream],
    answer 200 when the method returns and pass its exception on when it
    throws (a start on a live stream ends in "Stream is already live",
    not in a response); [GET /:id] answers with the row and
    [GET /:id/analytics] with the result of [getStreamAnalytics]. *)
Theorem routes_delegate_for_the_owner (streamId : string) (w : World) (s : Stream) :
  find_stream streamId w = Some s →
  run (post_start (user_id s) streamId) w
  = match run (startStream streamId) w with
    | (Ok _, w') =>
        (Ok (mkHttpResponse 200
               (status_body "Stream started successfully" streamId "live")), w')
    | (Err e, w') => (Err e, w')
    end
  ∧ run (post_stop (user_id s) streamId) w
    = match run (stopStream streamId) w with
      | (Ok _, w') =>
          (Ok (mkHttpResponse 200
                 (status_body "Stream stopped successfully" streamId "ended")),
           w')
      | (Err e, w') => (Err e, w')
      end
  ∧ run (delete_stream (user_id s) streamId) w
    = match run (deleteStream streamId) w with
      | (Ok _, w') =>
          (Ok (mkHttpResponse 200
                 (deleted_body "Stream deleted successfully" streamId)), w')
      | (Err e, w') => (Err e, w')
      end
  ∧ run (get_stream (user_id s) streamId) w
    = (Ok (mkHttpResponse 200 (stream_body s)), w)
  ∧ run (get_analytics (user_id s) streamId) w
    = match run (getStreamAnalytics streamId) w with
      | (Ok analytics, w') =>
          (Ok (mkHttpResponse 200 (analytics_body analytics)), w')
      | (Err e, w') => (Err e, w')
      end
  ∧ (status s = live →
     run (post_start (user_id s) streamId) w
     = (Err (Error "Stream is already live"), w)).
Proof.
  intros Hs.
  assert (Hstart : run (post_start (user_id s) streamId) w
                   = match run (startStream streamId) w with
                     | (Ok _, w') =>
                         (Ok (mkHttpResponse 200
                                (status_body "Stream started successfully"
                                   streamId "live")), w')
                     | (Err e, w') => (Err e, w')
                     end).
  { unfold post_start. route_lookup Hs. rewrite String.eqb_refl. cbn [negb].
    rewrite run_bind. destruct (run (startStream streamId) w) as [[[] | e] w'];
      reflexivity. }
  split; [exact Hstart |]. split; [| split; [| split; [| split]]].
  - unfold post_stop. route_lookup Hs. rewrite String.eqb_refl. cbn [negb].
    rewrite run_bind. destruct (run (stopStream streamId) w) as [[[] | e] w'];
      reflexivity.
  - unfold delete_stream. route_lookup Hs. rewrite String.eqb_refl. cbn [negb].
    rewrite run_bind. destruct (run (deleteStream streamId) w) as [[[] | e] w'];
      reflexivity.
  - unfold get_stream. route_lookup Hs. rewrite String.eqb_refl. reflexivity.
  - unfold get_analytics. route_lookup Hs. rewrite String.eqb_refl. cbn [negb].
    rewrite run_bind.
    destruct (run (getStreamAnalytics streamId) w) as [[a | e] w'];
      reflexivity.
  - intros Hlive. rewrite Hstart.
    rewrite (startStream_live_rejected _ _ _ Hs Hlive). reflexivity.
Qed.

Lemma routes_delegate_for_the_owner_witness :
  run (post_start "u1" "s1") world_live
  = (Err (Error "Stream is already live"), world_live)
  ∧ fst (run (post_stop "u1" "s1") world_live)
    = Ok (mkHttpResponse 200
            (status_body "Stream stopped successfully" "s1" "ended")).
Proof.
  destruct (routes_delegate_for_the_owner "s1" world_live
              (set_paths ["storage"; "recordings"; "s1.mp4"]
                 ["storage"; "hls"; "s1"; "index.m3u8"] 1000
                 (update_updated_at_column 1000 (set_live 1000 example_stream)))
              eq_refl) as (_ & Hstop & _ & _ & _ & Hlive).
  split; [apply Hlive; reflexivity |].
  cbn [user_id set_paths update_updated_at_column set_live example_stream]
    in Hstop.
  rewrite Hstop. vm_compute. reflexivity.
Defined.

(** ** [GET /]: pagination *)




(** ** [PUT /:id/quiz-questions] *)

Lemma get_set_property (key key' : string) (value : Json)
    (members : list (string * Json)) :
  get_property key (set_property key' value members)
  = if String.eqb key' key then Some value else get_property key members.
Proof.
  unfold get_property.
  induction members as [| [k v] members IH]; cbn [set_property List.find fst].
  - destruct (String.eqb key' key); reflexivity.
  - destruct (String.eqb_spec k key') as [-> | Hne]; cbn [List.find fst].
    + destruct (String.eqb key' key); reflexivity.
    + destruct (String.eqb_spec k key) as [-> | Hne'].
      * rewrite (proj2 (String.eqb_neq key' key)) by congruence. reflexivity.
      * exact IH.
Qed.

(** X21.  [PUT /:id/quiz-questions].  The body is validated before the
    stream is looked up: an invalid body is answered 400 with the
    validator's message, whatever the stream id, and nothing changes.
    For a valid body sent by the owner the answer is 200 with the number
    of questions; the metadata of the stream becomes an object in which
    [quizQuestions] is the list of questions, [quizEnabled] says whether
    there is at least one and [quizUpdatedAt] is the time, and every
    other key of the old metadata keeps its value; the state of the
    stream is not touched, and the other streams are left alone. *)
Theorem put_quiz_questions_merges
    (joi : Joi) (body : Json) (user streamId : string) (w : World) :
  (∀ message, updateQuizSchema joi body = inl message →
     run (put_quiz_questions joi user streamId body) w
     = (Ok (mkHttpResponse 400 (error_body message)), w))
  ∧ (∀ questions s,
       updateQuizSchema joi body = inr questions →
       find_stream streamId w = Some s → user_id s = user →
       let w' := snd (run (put_quiz_questions joi user streamId body) w) in
       fst (run (put_quiz_questions joi user streamId body) w)
       = Ok (mkHttpResponse 200
               (quiz_body "Quiz questions updated successfully" streamId
                  (Z.of_nat (length questions)) (0 <? length questions)%nat))
       ∧ (∃ s' members,
            find_stream streamId w' = Some s'
            ∧ metadata s' = JObj members
            ∧ get_property "quizQuestions" members = Some (JArr questions)
            ∧ get_property "quizEnabled" members
              = Some (JBool (0 <? length questions)%nat)
            ∧ get_property "quizUpdatedAt" members = Some (JNum (js_now w))
            ∧ (∀ key, key ≠ "quizQuestions" → key ≠ "quizEnabled" →
                 key ≠ "quizUpdatedAt" →
                 get_property key members
                 = get_property key (own_properties (metadata s)))
            ∧ status s' = status s ∧ start_time s' = start_time s
            ∧ ingest_key s' = ingest_key s)
       ∧ others_kept streamId w w').
Proof.
  split.
  - intros message Hq. unfold put_quiz_questions. rewrite Hq. reflexivity.
  - intros questions s Hq Hs Hu. cbv zeta. unfold put_quiz_questions.
    rewrite Hq. cbv iota beta. route_lookup Hs.
    rewrite Hu, String.eqb_refl. cbn [negb].
    unfold updateStreamMetadata, sync, await.
    cbn [bind run Date_now update_streams fst snd].
    split; [reflexivity |]. split.
    + unfold find_stream. fields.
      rewrite find_update_streams by auto with streams.
      fold (find_stream streamId w). rewrite Hs.
      cbn [fmap option_fmap option_map].
      rewrite update_row_hit by exact (find_has_id _ _ _ Hs).
      eexists. eexists. split; [reflexivity |].
      cbn [metadata update_updated_at_column set_metadata].
      split; [reflexivity |].
      rewrite !get_set_property. cbn [String.eqb Ascii.eqb Bool.eqb].
      split; [reflexivity |]. split; [reflexivity |]. split; [reflexivity |].
      split; [| repeat split; reflexivity].
      intros key H1 H2 H3. rewrite !get_set_property.
      rewrite !(proj2 (String.eqb_neq _ key)) by congruence. reflexivity.
    + intros other Hne. unfold find_stream, events_of. fields.
      rewrite find_update_other by auto with streams. auto.
Qed.

Lemma put_quiz_questions_merges_witness :
  let body := JObj [("questions", JArr [JStr "q1"])] in
  let w' := snd (run (put_quiz_questions example_joi "u1" "s1" body) world_live) in
  updateQuizSchema example_joi body = inr [JStr "q1"]
  ∧ fst (run (put_quiz_questions example_joi "u1" "s1" body) world_live)
    = Ok (mkHttpResponse 200
            (quiz_body "Quiz questions updated successfully" "s1" 1 true))
  ∧ status_of "s1" w' = Some live.
Proof.
  cbv zeta. split; [reflexivity |].
  destruct (put_quiz_questions_merges example_joi
              (JObj [("questions", JArr [JStr "q1"])]) "u1" "s1" world_live)
    as (_ & H).
  assert (Hs1 : find_stream "s1" world_live
                = Some (set_paths ["storage"; "recordings"; "s1.mp4"]
                          ["storage"; "hls"; "s1"; "index.m3u8"] 1000
                          (update_updated_at_column 1000
                             (set_live 1000 example_stream))))
    by (vm_compute; reflexivity).
  destruct (H [JStr "q1"] _ eq_refl Hs1 eq_refl)
    as (Hr & (s' & members & Hs' & _ & _ & _ & _ & _ & Hst & _) & _).
  split; [exact Hr |]. unfold status_of. rewrite Hs'. cbn. rewrite Hst.
  reflexivity.
Defined.

(** ** [POST /]: a new stream and its ingest URL *)

(** X22.  [POST /].  An invalid body is answered 400 and nothing changes.
    For a valid body, when the id and the fresh ingest key are free, the
    answer is 201 with the new row, which belongs to the caller and is
    'created'.  The ingest URL of the answer ends in the ingest key: the
    key resolves to the new stream in the ingest callbacks, and when the
    stream is started the recorder is told to read that very URL.  If
    the key is taken the handler throws and no row is added. *)
Theorem post_streams_ingest_url
    (joi : Joi) (PORT : option string) (user : string) (body : Json)
    (ingestKey : string) (w : World) :
  (∀ message, createStreamSchema joi body = inl message →
     run (post_streams joi PORT user body ingestKey) w
     = (Ok (mkHttpResponse 400 (error_body message)), w))
  ∧ (∀ value, createStreamSchema joi body = inr value →
       find_stream (gen_random_uuid w (uuid_calls w)) w = None →
       find_by_ingest_key ingestKey w = None →
       let w1 := snd (run (post_streams joi PORT user body ingestKey) w) in
       ∃ row playbackUrl,
         fst (run (post_streams joi PORT user body ingestKey) w)
         = Ok (mkHttpResponse 201
                 (created_body "Stream created successfully" row
                    ("rtmp://localhost:1935/live/" +:+ ingestKey) playbackUrl))
         ∧ user_id row = user ∧ title row = cb_title value
         ∧ status row = created
         ∧ find_stream (Stream_id row) w1 = Some row
         ∧ find_by_ingest_key ingestKey w1 = Some row
         ∧ (hlsDir_of (Stream_id row) w1 ∈ files w1
            ∨ hlsDir_of (Stream_id row) w1 ∉ denied w1 →
            ∃ c, children (snd (run (startStream (Stream_id row)) w1))
                 = children w1 ++ [c]
                 ∧ child_input c = "rtmp://localhost:1935/live/" +:+ ingestKey))
  ∧ (∀ value, createStreamSchema joi body = inr value →
       find_by_ingest_key ingestKey w ≠ None →
       (∃ e, fst (run (post_streams joi PORT user body ingestKey) w) = Err e)
       ∧ streams (snd (run (post_streams joi PORT user body ingestKey) w))
         = streams w).
Proof.
  split; [| split].
  - intros message Hv. unfold post_streams. rewrite Hv. reflexivity.
  - intros value Hv Hid Hkey. cbv zeta. unfold post_streams. rewrite Hv.
    cbv iota beta. rewrite run_bind.
    set (d := mkStreamData user (cb_title value) (cb_description value)
                ingestKey (cb_metadata value)).
    assert (Hkey' : find_by_ingest_key (sd_ingestKey d) w = None) by exact Hkey.
    destruct (createStream_found d w Hid Hkey') as (Hs1 & Hk1).
    rewrite (createStream_run d w Hid Hkey') in *. cbn [fst snd run] in *.
    eexists. eexists. split; [reflexivity |].
    split; [reflexivity |]. split; [reflexivity |]. split; [reflexivity |].
    split; [exact Hs1 |]. split; [exact Hk1 |].
    intros Hdir.
    destruct (startStream_world _ _ _ Hs1 ltac:(discriminate) Hdir)
      as (_ & _ & Hch & _).
    eexists. split; [exact Hch | reflexivity].
  - intros value Hv Hkey. unfold post_streams. rewrite Hv. cbv iota beta.
    rewrite run_bind.
    set (d := mkStreamData user (cb_title value) (cb_description value)
                ingestKey (cb_metadata value)).
    unfold createStream, await. cbn [run].
    destruct (insert_into_streams_rejected d
                (metadata_or_empty (sd_metadata d)) w (or_intror Hkey))
      as (constraint & Hrun).
    rewrite Hrun. cbn [fst snd].
    split; [eexists; reflexivity | reflexivity].
Qed.

Lemma post_streams_ingest_url_witness :
  let body := JObj [("title", JStr "Second")] in
  let w1 := snd (run (post_streams example_joi None "u2" body "k2") world_live) in
  createStreamSchema example_joi body = inr (mkCreateStreamBody "Second" None None)
  ∧ ∃ row playbackUrl,
      fst (run (post_streams example_joi None "u2" body "k2") world_live)
      = Ok (mkHttpResponse 201
              (created_body "Stream created successfully" row
                 "rtmp://localhost:1935/live/k2" playbackUrl))
      ∧ find_by_ingest_key "k2" w1 = Some row.
Proof.
  cbv zeta. split; [reflexivity |].
  destruct (post_streams_ingest_url example_joi None "u2"
              (JObj [("title", JStr "Second")]) "k2" world_live)
    as (_ & H & _).
  destruct (H (mkCreateStreamBody "Second" None None) eq_refl)
    as (row & url & Hr & _ & _ & _ & _ & Hk & _);
    [vm_compute; reflexivity | vm_compute; reflexivity |].
  exists row, url. split; [exact Hr | exact Hk].
Defined.

(** ** StorageService *)

Lemma count_slash_app (a b : string) :
  count_slash (a +:+ b) = (count_slash a + count_slash b)%nat.
Proof.
  induction a as [| c a IH]; [reflexivity |].
  change (String c a +:+ b) with (String c (a +:+ b)). cbn [count_slash].
  rewrite IH. lia.
Qed.

Lemma split_slash_pieces (text : string) :
  split_slash text ≠ [] ∧ Forall (λ piece, count_slash piece = O) (split_slash text).
Proof.
  induction text as [| c text [Hne IH]]; cbn [split_slash].
  - split; [discriminate | repeat constructor].
  - destruct (is_slash c) eqn:Hc.
    + split; [discriminate |]. constructor; [reflexivity | exact IH].
    + destruct (split_slash text) as [| piece pieces]; [contradiction |].
      split; [discriminate |].
      apply Forall_cons in IH as [Hp Hps]. constructor; [| exact Hps].
      cbn [count_slash]. rewrite Hc, Hp. reflexivity.
Qed.

Lemma count_slash_concat (pieces : list string) :
  Forall (λ piece, count_slash piece = O) pieces →
  count_slash (String.concat "/" pieces) = (length pieces - 1)%nat.
Proof.
  induction 1 as [| piece pieces Hp Hps IH]; [reflexivity |].
  cbn [String.concat]. destruct pieces as [| piece' pieces].
  - rewrite Hp. reflexivity.
  - rewrite !count_slash_app, Hp, IH. cbn [count_slash length]. cbn. lia.
Qed.

Lemma last_two_segments_slashes (cloudUrl : string) :
  (count_slash (last_two_segments cloudUrl) ≤ 1)%nat.
Proof.
  unfold last_two_segments. destruct (split_slash_pieces cloudUrl) as [_ Hall].
  rewrite count_slash_concat by (apply Forall_drop; exact Hall).
  rewrite length_drop. lia.
Qed.

Lemma string_app_assoc (a b c : string) : (a +:+ b) +:+ c = a +:+ (b +:+ c).
Proof.
  induction a as [| x a IH]; [reflexivity |].
  change (String x a +:+ b) with (String x (a +:+ b)).
  change (String x (a +:+ b) +:+ c) with (String x ((a +:+ b) +:+ c)).
  rewrite IH. reflexivity.
Qed.

Lemma split_slash_cons (c : Ascii.ascii) (text : string) :
  is_slash c = false →
  ∃ piece pieces,
    split_slash text = piece :: pieces
    ∧ split_slash (String c text) = String c piece :: pieces.
Proof.
  intros Hc. cbn [split_slash]. rewrite Hc.
  destruct (split_slash_pieces text) as [Hne _].
  destruct (split_slash text) as [| piece pieces]; [contradiction |].
  eauto.
Qed.

Lemma split_slash_app (a b : string) :
  split_slash (a +:+ "/" +:+ b) = split_slash a ++ split_slash b.
Proof.
  induction a as [| c a IH]; [reflexivity |].
  change (String c a +:+ "/" +:+ b) with (String c (a +:+ "/" +:+ b)).
  - destruct (is_slash c) eqn:Hc.
    + cbn [split_slash]. rewrite Hc, IH. reflexivity.
    + destruct (split_slash_cons c a Hc) as (p & ps & Ha & Hca).
      destruct (split_slash_cons c (a +:+ "/" +:+ b) Hc) as (q & qs & Hab & Hcab).
      rewrite Hca, Hcab. rewrite IH, Ha in Hab. injection Hab as <- <-.
      reflexivity.
Qed.

Lemma split_slash_piece (text : string) :
  count_slash text = O → split_slash text = [text].
Proof.
  induction text as [| c text IH]; cbn [count_slash split_slash];
    [reflexivity |].
  destruct (is_slash c); [discriminate |]. cbn [Nat.add].
  intros H. rewrite (IH H). reflexivity.
Qed.

Lemma split_slash_last_two (pre a b : string) :
  count_slash a = O → count_slash b = O →
  last_two_segments (pre +:+ "/" +:+ a +:+ "/" +:+ b) = a +:+ "/" +:+ b.
Proof.
  intros Ha Hb. unfold last_two_segments.
  rewrite !split_slash_app, (split_slash_piece a Ha), (split_slash_piece b Hb).
  rewrite drop_app_length'; [reflexivity |].
  rewrite !List.length_app. cbn [length]. lia.
Qed.

Lemma object_name_slashes (folder streamId : string) (localPath : Path) :
  (2 ≤ count_slash (object_name folder streamId localPath))%nat.
Proof.
  unfold object_name. rewrite !count_slash_app. cbn [count_slash]. cbn. lia.
Qed.

Lemma object_name_not_last_two folder streamId localPath cloudUrl :
  object_name folder streamId localPath ≠ last_two_segments cloudUrl.
Proof.
  intros H. pose proof (object_name_slashes folder streamId localPath) as H2.
  pose proof (last_two_segments_slashes cloudUrl) as H1.
  rewrite H in H2. lia.
Qed.

(** X23.  [uploadRecording].  A missing local file makes it throw
    "Recording file not found" before anything is sent.  With the S3
    credentials set the file goes to S3, also when MinIO is configured;
    with only MinIO configured the bucket (MINIO_BUCKET, or
    "livestreams") is created if it is missing, the object is stored
    under [recordings/<streamId>/<file name>] and the URL returned is
    [<endpoint>:<port>/<bucket>/<object name>], the port being 9000 when
    MINIO_PORT is not set.  With no store configured it returns [null]
    and stores nothing; when the store fails, the error is thrown again
    and nothing is stored.  [uploadThumbnail] never throws. *)
Theorem uploadRecording_outcomes
    (env : StorageEnv) (fsys : gset Path) (localPath : Path)
    (streamId : string) (c : Cloud) :
  let name := object_name "recordings" streamId localPath in
  let bucketName := env_or (MINIO_BUCKET env) "livestreams" in
  (localPath ∉ fsys →
   storage_uploadRecording env fsys localPath streamId c
   = (Err (Error "Recording file not found"), c))
  ∧ (localPath ∈ fsys → useS3 env = false → useMinio env = false →
     storage_uploadRecording env fsys localPath streamId c = (Ok None, c))
  ∧ (localPath ∈ fsys → useS3 env = true ∨ useMinio env = true →
     cloud_down c = true →
     storage_uploadRecording env fsys localPath streamId c
     = (Err UploadError, c))
  ∧ (localPath ∈ fsys → useS3 env = true → cloud_down c = false →
     ∃ bucket c',
       storage_uploadRecording env fsys localPath streamId c
       = (Ok (Some (s3_location c bucket name)), c')
       ∧ (bucket, name) ∈ s3_objects c'
       ∧ minio_objects c' = minio_objects c)
  ∧ (localPath ∈ fsys → useS3 env = false → useMinio env = true →
     cloud_down c = false →
     ∃ endpoint c',
       env_MINIO_ENDPOINT env = Some endpoint
       ∧ storage_uploadRecording env fsys localPath streamId c
         = (Ok (Some (endpoint +:+ ":" +:+ env_or (MINIO_PORT env) "9000"
                      +:+ "/" +:+ bucketName +:+ "/" +:+ name)), c')
       ∧ bucketName ∈ minio_buckets c'
       ∧ (∀ o, o ∈ minio_objects c'
               ↔ o = (bucketName, name) ∨ o ∈ minio_objects c)
       ∧ s3_objects c' = s3_objects c)
  ∧ (∃ r, fst (storage_uploadThumbnail env fsys localPath streamId c) = Ok r).
Proof.
  cbv zeta. unfold storage_uploadRecording, storage_uploadThumbnail.
  split; [| split; [| split; [| split; [| split]]]].
  - intros H. rewrite (bool_decide_eq_false_2 _ H). reflexivity.
  - intros H H1 H2. rewrite (bool_decide_eq_true_2 _ H), H1, H2. reflexivity.
  - intros H Hcfg Hd. rewrite (bool_decide_eq_true_2 _ H), Hd. cbn [negb].
    destruct (useS3 env); [reflexivity |].
    destruct Hcfg as [Hcfg | Hcfg]; [discriminate |]. rewrite Hcfg. reflexivity.
  - intros H H1 Hd. rewrite (bool_decide_eq_true_2 _ H), H1, Hd. cbn [negb].
    eexists. eexists. split; [reflexivity |]. cbn. split; [set_solver | reflexivity].
  - intros H H1 H2 Hd. rewrite (bool_decide_eq_true_2 _ H), H1, H2, Hd.
    cbn [negb]. unfold minio_url.
    assert (He : ∃ endpoint, env_MINIO_ENDPOINT env = Some endpoint).
    { unfold useMinio in H2. destruct (env_MINIO_ENDPOINT env) as [e |];
        [eauto | discriminate]. }
    destruct He as (endpoint & He). rewrite He. cbn [default from_option id].
    exists endpoint. unfold minio_fPutObject.
    destruct (bool_decide (env_or (MINIO_BUCKET env) "livestreams"
                             ∈ minio_buckets c)) eqn:Hb.
    + rewrite Hd, Hb. eexists. split; [reflexivity |]. split; [reflexivity |].
      apply bool_decide_eq_true in Hb. cbn. split; [exact Hb |].
      split; [set_solver | reflexivity].
    + cbn [minio_makeBucket cloud_down minio_buckets]. rewrite Hd.
      rewrite bool_decide_eq_true_2 by set_solver.
      eexists. split; [reflexivity |]. split; [reflexivity |].
      cbn. split; [set_solver |]. split; [set_solver | reflexivity].
  - destruct (bool_decide (localPath ∈ fsys)); cbn [negb];
      [| eexists; reflexivity].
    destruct (useS3 env); [destruct (cloud_down c); eexists; reflexivity |].
    destruct (useMinio env); [| eexists; reflexivity].
    destruct (minio_fPutObject _ _ c) as [[[] | e] c1]; eexists; reflexivity.
Qed.

Lemma uploadRecording_outcomes_witness :
  (["storage"; "recordings"; "s1.mp4"] : Path)
    ∈ ({[ ["storage"; "recordings"; "s1.mp4"] ]} : gset Path)
  ∧ ∃ c',
      storage_uploadRecording example_storage_env
        {[ ["storage"; "recordings"; "s1.mp4"] ]}
        ["storage"; "recordings"; "s1.mp4"] "s1" example_cloud
      = (Ok (Some "http://minio:9000/livestreams/recordings/s1/s1.mp4"), c')
      ∧ ("livestreams" ∈ minio_buckets c').
Proof.
  assert (H : (["storage"; "recordings"; "s1.mp4"] : Path)
                ∈ ({[ ["storage"; "recordings"; "s1.mp4"] ]} : gset Path))
    by (apply elem_of_singleton; reflexivity).
  split; [exact H |].
  destruct (uploadRecording_outcomes example_storage_env
              {[ ["storage"; "recordings"; "s1.mp4"] ]}
              ["storage"; "recordings"; "s1.mp4"] "s1" example_cloud)
    as (_ & _ & _ & _ & Hminio & _).
  destruct (Hminio H eq_refl eq_refl eq_refl)
    as (endpoint & c' & He & Hrun & Hb & _).
  exists c'. injection He as <-. split; [exact Hrun | exact Hb].
Defined.

(** X24.  [deleteFile] cannot remove what the service uploaded.  The
    object it asks the store to remove is named by the last two
    '/'-separated segments of the URL, so the name has one '/' at most,
    while every object of [uploadRecording] and [uploadThumbnail] is
    stored as [<folder>/<streamId>/<file name>]: whatever URL it is
    given, an uploaded object that is in a store is still there after
    [deleteFile].  In particular the recording that [uploadRecording]
    has just stored in MinIO survives [deleteFile] on the URL that the
    upload returned; for a stream id and a file name without '/', the
    object that is asked for is [<streamId>/<file name>]. *)
Theorem deleteFile_keeps_the_uploads
    (env : StorageEnv) (cloudUrl : string) (c : Cloud)
    (bucket folder streamId : string) (localPath : Path) :
  let name := object_name folder streamId localPath in
  ((bucket, name) ∈ minio_objects c →
   (bucket, name) ∈ minio_objects (storage_deleteFile env cloudUrl c))
  ∧ ((bucket, name) ∈ s3_objects c →
     (bucket, name) ∈ s3_objects (storage_deleteFile env cloudUrl c))
  ∧ (∀ fsys url c1,
       storage_uploadRecording env fsys localPath streamId c = (Ok (Some url), c1) →
       useS3 env = false →
       let stored := (env_or (MINIO_BUCKET env) "livestreams",
                      object_name "recordings" streamId localPath) in
       stored ∈ minio_objects c1
       ∧ stored ∈ minio_objects (storage_deleteFile env url c1))
  ∧ (count_slash streamId = O → count_slash (path_basename localPath) = O →
     last_two_segments (minio_url env bucket name)
     = streamId +:+ "/" +:+ path_basename localPath).
Proof.
  cbv zeta.
  assert (Hminio : ∀ (url : string) (c0 : Cloud) (b f : string),
            (b, object_name f streamId localPath) ∈ minio_objects c0 →
            (b, object_name f streamId localPath)
              ∈ minio_objects (storage_deleteFile env url c0)).
  { intros url c0 b f Hin. unfold storage_deleteFile.
    pose proof (object_name_not_last_two f streamId localPath url) as Hne.
    destruct (useS3 env && includes url "amazonaws.com");
      destruct (cloud_down c0) eqn:Hd; cbn [s3_deleteObject cloud_down];
      rewrite ?Hd; try exact Hin;
      destruct (useMinio env && includes url _); try exact Hin;
      cbn; set_solver. }
  split; [apply Hminio |]. split; [| split].
  - intros Hin. unfold storage_deleteFile.
    pose proof (object_name_not_last_two folder streamId localPath cloudUrl)
      as Hne.
    destruct (useS3 env && includes cloudUrl "amazonaws.com");
      destruct (cloud_down c) eqn:Hd; cbn [s3_deleteObject cloud_down];
      rewrite ?Hd; try exact Hin;
      destruct (useMinio env && includes cloudUrl _); try exact Hin;
      cbn; set_solver.
  - intros fsys url c1 Hup Hs3.
    assert (Hstored : (env_or (MINIO_BUCKET env) "livestreams",
                       object_name "recordings" streamId localPath)
                        ∈ minio_objects c1).
    { unfold storage_uploadRecording in Hup. rewrite Hs3 in Hup.
      destruct (negb (bool_decide (localPath ∈ fsys))); [discriminate |].
      destruct (useMinio env); [| discriminate].
      destruct (cloud_down c) eqn:Hd; [discriminate |].
      unfold minio_fPutObject in Hup.
      destruct (bool_decide (_ ∈ minio_buckets c)) eqn:Hb.
      - rewrite Hd, Hb in Hup. injection Hup as _ <-. cbn. set_solver.
      - cbn [minio_makeBucket cloud_down minio_buckets] in Hup.
        rewrite Hd in Hup. rewrite bool_decide_eq_true_2 in Hup by set_solver.
        injection Hup as _ <-. cbn. set_solver. }
    split; [exact Hstored | apply Hminio; exact Hstored].
  - intros Hid Hbase. unfold minio_url, object_name.
    rewrite <- !string_app_assoc.
    rewrite !(string_app_assoc _ "/" (path_basename localPath)).
    rewrite !(string_app_assoc _ streamId).
    rewrite !(string_app_assoc _ "/" (streamId +:+ _)).
    apply split_slash_last_two; assumption.
Qed.

Lemma deleteFile_keeps_the_uploads_witness :
  let p : Path := ["storage"; "recordings"; "s1.mp4"] in
  let url := "http://minio:9000/livestreams/recordings/s1/s1.mp4" in
  let c1 := snd (storage_uploadRecording example_storage_env {[p]} p "s1"
                   example_cloud) in
  storage_uploadRecording example_storage_env {[p]} p "s1" example_cloud
  = (Ok (Some url), c1)
  ∧ includes url "http://minio" = true
  ∧ last_two_segments url = "s1/s1.mp4"
  ∧ ("livestreams", "recordings/s1/s1.mp4") ∈ minio_objects c1
  ∧ ("livestreams", "recordings/s1/s1.mp4")
      ∈ minio_objects (storage_deleteFile example_storage_env url c1).
Proof.
  cbv zeta.
  assert (Hup : storage_uploadRecording example_storage_env
                  {[ ["storage"; "recordings"; "s1.mp4"] ]}
                  ["storage"; "recordings"; "s1.mp4"] "s1" example_cloud
                = (Ok (Some "http://minio:9000/livestreams/recordings/s1/s1.mp4"),
                   snd (storage_uploadRecording example_storage_env
                          {[ ["storage"; "recordings"; "s1.mp4"] ]}
                          ["storage"; "recordings"; "s1.mp4"] "s1"
                          example_cloud)))
    by (vm_compute; reflexivity).
  split; [exact Hup |]. split; [vm_compute; reflexivity |].
  split; [vm_compute; reflexivity |].
  destruct (deleteFile_keeps_the_uploads example_storage_env "" example_cloud
              "" "" "s1" ["storage"; "recordings"; "s1.mp4"])
    as (_ & _ & H & _).
  exact (H _ _ _ Hup eq_refl).
Defined.

(** ** routes/auth.ts *)

Lemma drop_string_app (a b : string) :
  drop_string (String.length a) (a +:+ b) = b.
Proof. induction a as [| c a IH]; [reflexivity | exact IH]. Qed.

Lemma prefix_app (a b : string) : String.prefix a (a +:+ b) = true.
Proof.
  induction a as [| c a IH]; [destruct b; reflexivity |].
  change (String c a +:+ b) with (String c (a +:+ b)). cbn [String.prefix].
  destruct (Ascii.ascii_dec c c); [exact IH | contradiction].
Qed.

Lemma replace_first_prefix (pattern replacement rest : string) :
  replace_first pattern replacement (pattern +:+ rest) = replacement +:+ rest.
Proof.
  destruct (pattern +:+ rest) eqn:Ht; cbn [replace_first]; rewrite <- Ht;
    rewrite prefix_app, drop_string_app; reflexivity.
Qed.

Lemma filter_none_existsb {A : Type} (f : A → bool) (l : list A) :
  existsb f l = false → List.filter f l = [].
Proof.
  induction l as [| a l IH]; [reflexivity |]. cbn [existsb List.filter].
  intros H. apply orb_false_iff in H as [Ha Hl]. rewrite Ha. exact (IH Hl).
Qed.

Lemma neither_in_use (name mail : string) (l : list User) :
  existsb (λ u, String.eqb (email u) mail || String.eqb (username u) name) l
  = false →
  existsb (λ u, String.eqb (username u) name) l = false
  ∧ existsb (λ u, String.eqb (email u) mail) l = false.
Proof.
  induction l as [| u l IH]; [split; reflexivity |]. cbn [existsb].
  intros H. apply orb_false_iff in H as [Hu Hl].
  apply orb_false_iff in Hu as [Hm Hn]. destruct (IH Hl) as [IHn IHm].
  rewrite Hm, Hn, IHn, IHm. split; reflexivity.
Qed.

Lemma NoDup_map_snoc {A : Type} (f : A → string) (l : list A) (a : A) :
  NoDup (map f l) → existsb (λ x, String.eqb (f x) (f a)) l = false →
  NoDup (map f (l ++ [a])).
Proof.
  intros Hnd Hnew. rewrite map_app. apply NoDup_app.
  split; [exact Hnd |]. split; [| apply NoDup_singleton].
  intros x Hx Hx'. apply list_elem_of_singleton in Hx'. subst x.
  apply list_elem_of_In, in_map_iff in Hx as (y & Heq & Hin).
  assert (existsb (λ x, String.eqb (f x) (f a)) l = true); [| congruence].
  apply existsb_exists. exists y. split; [exact Hin |].
  rewrite Heq. apply String.eqb_refl.
Qed.

(** The run of [/register] for a new user. *)
Lemma register_new (crypto : Crypto) (joi : AuthJoi) (body : Json) (db : AuthDb)
    (name mail password : string) :
  registerSchema joi body = inr (name, mail, password) →
  existsb (λ u, String.eqb (email u) mail || String.eqb (username u) name)
    (users db) = false →
  existsb (λ u, String.eqb (User_id u) (users_uuid db (users_uuid_calls db)))
    (users db) = false →
  register crypto joi body db
  = (Ok (mkAuthResponse 201
           (registered_body "User created successfully"
              (users_uuid db (users_uuid_calls db)) name mail (auth_now db)
              (jwt_sign crypto (users_uuid db (users_uuid_calls db)) name
                 (auth_now db)))),
     mkAuthDb
       (users db
        ++ [mkUser (users_uuid db (users_uuid_calls db)) name mail
              (bcrypt_hash crypto password (salts_drawn db)) (auth_now db)])
       (users_uuid db) (S (users_uuid_calls db)) (S (salts_drawn db))
       (auth_now db)).
Proof.
  intros Hv Hnew Hid. unfold register. rewrite Hv, Hnew.
  unfold insert_into_users. cbn [users users_uuid users_uuid_calls User_id
                                 salts_drawn auth_now].
  rewrite Hid. destruct (neither_in_use _ _ _ Hnew) as [Hn Hm].
  rewrite Hn, Hm. reflexivity.
Qed.

(** X25.  Registration followed by a login.  For a valid body whose email
    and user name are not in use, [/register] answers 201 and stores the
    user with the hash of the password; the answer carries the new id and
    a token for it.  A [/login] with that email and password, at any
    later time, answers 200 "Login successful" with the same id, user
    name and email and a token for that id, and does not write.  (A
    password matches its own hash: the contract of bcrypt.) *)
Theorem register_then_login
    (crypto : Crypto) (joi : AuthJoi) (body body' : Json) (db : AuthDb)
    (name mail password : string) (later : Timestamp) :
  bcrypt_ok crypto →
  registerSchema joi body = inr (name, mail, password) →
  loginSchema joi body' = inr (mail, password) →
  existsb (λ u, String.eqb (email u) mail || String.eqb (username u) name)
    (users db) = false →
  existsb (λ u, String.eqb (User_id u) (users_uuid db (users_uuid_calls db)))
    (users db) = false →
  let id := users_uuid db (users_uuid_calls db) in
  let db1 := snd (register crypto joi body db) in
  fst (register crypto joi body db)
  = Ok (mkAuthResponse 201
          (registered_body "User created successfully" id name mail
             (auth_now db) (jwt_sign crypto id name (auth_now db))))
  ∧ users db1
    = users db
      ++ [mkUser id name mail (bcrypt_hash crypto password (salts_drawn db))
            (auth_now db)]
  ∧ login crypto joi body' (auth_later later db1)
    = (Ok (mkAuthResponse 200
             (login_body "Login successful" id name mail
                (jwt_sign crypto id name later))), auth_later later db1).
Proof.
  intros Hb Hv Hv' Hnew Hid. cbv zeta.
  rewrite (register_new crypto joi body db name mail password Hv Hnew Hid).
  cbn [fst snd users]. split; [reflexivity |]. split; [reflexivity |].
  unfold login. rewrite Hv'. unfold auth_later. cbn [users auth_now].
  rewrite List.filter_app.
  rewrite (filter_none_existsb _ _ (proj2 (neither_in_use _ _ _ Hnew))).
  cbn [List.filter app email]. rewrite String.eqb_refl.
  cbn [password_hash]. rewrite Hb. reflexivity.
Qed.

Lemma register_then_login_witness :
  bcrypt_ok example_crypto
  ∧ login example_crypto example_auth_joi
      (JObj [("email", JStr "ada@example.org"); ("password", JStr "secret1")])
      (auth_later 5000
         (snd (register example_crypto example_auth_joi example_credentials
                 example_auth_db)))
    = (Ok (mkAuthResponse 200
             (login_body "Login successful" "u1" "ada" "ada@example.org"
                "token:u1")),
       auth_later 5000
         (snd (register example_crypto example_auth_joi example_credentials
                 example_auth_db))).
Proof.
  assert (Hb : bcrypt_ok example_crypto).
  { intros password salt. cbn. apply String.eqb_refl. }
  split; [exact Hb |].
  destruct (register_then_login example_crypto example_auth_joi
              example_credentials
              (JObj [("email", JStr "ada@example.org");
                     ("password", JStr "secret1")])
              example_auth_db "ada" "ada@example.org" "secret1" 5000 Hb
              eq_refl eq_refl eq_refl eq_refl) as (_ & _ & H).
  exact H.
Defined.

(** X26.  [/register] keeps the table [users] consistent.  A body that
    the schema rejects is answered 400 and a user name or an email that
    is in use is answered 409 "User already exists", in both cases
    without a write.  Whatever the body, if ids, user names and emails
    were unique in the table they still are afterwards, and the users
    that were there are still there, unchanged. *)
Theorem register_keeps_users_unique
    (crypto : Crypto) (joi : AuthJoi) (body : Json) (db : AuthDb) :
  (∀ message, registerSchema joi body = inl message →
     register crypto joi body db
     = (Ok (mkAuthResponse 400 (auth_error message)), db))
  ∧ (∀ name mail password u,
       registerSchema joi body = inr (name, mail, password) →
       u ∈ users db → email u = mail ∨ username u = name →
       register crypto joi body db
       = (Ok (mkAuthResponse 409 (auth_error "User already exists")), db))
  ∧ (unique_users db → unique_users (snd (register crypto joi body db)))
  ∧ users db `prefix_of` users (snd (register crypto joi body db)).
Proof.
  split; [| split; [| split]].
  - intros message Hv. unfold register. rewrite Hv. reflexivity.
  - intros name mail password u Hv Hin Hu. unfold register. rewrite Hv.
    assert (Hex : existsb (λ u, String.eqb (email u) mail
                                || String.eqb (username u) name) (users db)
                  = true).
    { apply existsb_exists. exists u. split; [apply list_elem_of_In; exact Hin |].
      destruct Hu as [<- | <-]; rewrite String.eqb_refl;
        [reflexivity | apply orb_true_r]. }
    rewrite Hex. reflexivity.
  - intros (Hids & Hnames & Hmails). unfold register.
    destruct (registerSchema joi body) as [message | [[name mail] password]];
      [repeat split; assumption |].
    destruct (existsb _ (users db)); [repeat split; assumption |].
    unfold insert_into_users.
    cbn [users users_uuid users_uuid_calls User_id salts_drawn auth_now].
    destruct (existsb (λ u, String.eqb (User_id u) _) (users db)) eqn:Hid;
      [repeat split; assumption |].
    destruct (existsb (λ u, String.eqb (username u) name) (users db)) eqn:Hn;
      [repeat split; assumption |].
    destruct (existsb (λ u, String.eqb (email u) mail) (users db)) eqn:Hm;
      [repeat split; assumption |].
    unfold unique_users. cbn [snd users].
    split; [| split]; apply NoDup_map_snoc; assumption.
  - unfold register.
    destruct (registerSchema joi body) as [message | [[name mail] password]];
      [reflexivity |].
    destruct (existsb _ (users db)); [reflexivity |].
    unfold insert_into_users.
    cbn [users users_uuid users_uuid_calls User_id salts_drawn auth_now].
    destruct (existsb (λ u, String.eqb (User_id u) _) (users db));
      [reflexivity |].
    destruct (existsb (λ u, String.eqb (username u) name) (users db));
      [reflexivity |].
    destruct (existsb (λ u, String.eqb (email u) mail) (users db));
      [reflexivity |].
    cbn [snd users]. apply prefix_app_r. reflexivity.
Qed.

Lemma register_keeps_users_unique_witness :
  let db1 := snd (register example_crypto example_auth_joi example_credentials
                    example_auth_db) in
  unique_users db1
  ∧ register example_crypto example_auth_joi
      (JObj [("username", JStr "eve"); ("email", JStr "ada@example.org");
             ("password", JStr "secret2")]) db1
    = (Ok (mkAuthResponse 409 (auth_error "User already exists")), db1).
Proof.
  cbv zeta.
  assert (H0 : unique_users example_auth_db)
    by (repeat split; apply NoDup_nil; exact I).
  destruct (register_keeps_users_unique example_crypto example_auth_joi
              example_credentials example_auth_db) as (_ & _ & Hu & _).
  split; [exact (Hu H0) |].
  destruct (register_keeps_users_unique example_crypto example_auth_joi
              (JObj [("username", JStr "eve"); ("email", JStr "ada@example.org");
                     ("password", JStr "secret2")])
              (snd (register example_crypto example_auth_joi
                      example_credentials example_auth_db)))
    as (_ & H409 & _).
  apply (H409 "eve" "ada@example.org" "secret2"
           (mkUser "u1" "ada" "ada@example.org" "hash:secret1" 1000));
    [reflexivity | | left; reflexivity].
  vm_compute. apply list_elem_of_here.
Defined.

(** X27.  [/login] does not tell an unknown email from a wrong password:
    both are answered 401 "Invalid credentials", with the same body, and
    neither writes.  A body that the schema rejects is answered 400.  A
    login never changes the table. *)
Theorem login_failures_look_alike
    (crypto : Crypto) (joi : AuthJoi) (body : Json) (db : AuthDb) :
  (∀ message, loginSchema joi body = inl message →
     login crypto joi body db
     = (Ok (mkAuthResponse 400 (auth_error message)), db))
  ∧ (∀ mail password, loginSchema joi body = inr (mail, password) →
       (∀ u, u ∈ users db → email u ≠ mail) →
       login crypto joi body db
       = (Ok (mkAuthResponse 401 (auth_error "Invalid credentials")), db))
  ∧ (∀ mail password u, loginSchema joi body = inr (mail, password) →
       List.find (λ u, String.eqb (email u) mail) (users db) = Some u →
       bcrypt_compare crypto password (password_hash u) = false →
       login crypto joi body db
       = (Ok (mkAuthResponse 401 (auth_error "Invalid credentials")), db))
  ∧ snd (login crypto joi body db) = db.
Proof.
  split; [| split; [| split]].
  - intros message Hv. unfold login. rewrite Hv. reflexivity.
  - intros mail password Hv Hno. unfold login. rewrite Hv.
    rewrite filter_none_existsb; [reflexivity |].
    destruct (existsb _ (users db)) eqn:Hex; [| reflexivity].
    apply existsb_exists in Hex as (u & Hin & Hu).
    apply String.eqb_eq in Hu. exfalso.
    exact (Hno u (proj2 (list_elem_of_In _ _) Hin) Hu).
  - intros mail password u Hv Hf Hc. unfold login. rewrite Hv.
    rewrite <- filter_head_find in Hf.
    destruct (List.filter _ (users db)) as [| u' rest]; [discriminate |].
    injection Hf as ->. rewrite Hc. reflexivity.
  - unfold login.
    destruct (loginSchema joi body) as [message | [mail password]];
      [reflexivity |].
    destruct (List.filter _ (users db)) as [| u rest]; [reflexivity |].
    destruct (bcrypt_compare crypto password (password_hash u)); reflexivity.
Qed.

Lemma login_failures_look_alike_witness :
  let db1 := snd (register example_crypto example_auth_joi example_credentials
                    example_auth_db) in
  login example_crypto example_auth_joi
    (JObj [("email", JStr "ada@example.org"); ("password", JStr "guess")]) db1
  = (Ok (mkAuthResponse 401 (auth_error "Invalid credentials")), db1)
  ∧ login example_crypto example_auth_joi
      (JObj [("email", JStr "bob@example.org"); ("password", JStr "guess")]) db1
    = (Ok (mkAuthResponse 401 (auth_error "Invalid credentials")), db1).
Proof.
  cbv zeta. split.
  - destruct (login_failures_look_alike example_crypto example_auth_joi
                (JObj [("email", JStr "ada@example.org");
                       ("password", JStr "guess")])
                (snd (register example_crypto example_auth_joi
                        example_credentials example_auth_db)))
      as (_ & _ & H & _).
    apply (H "ada@example.org" "guess"
             (mkUser "u1" "ada" "ada@example.org" "hash:secret1" 1000));
      reflexivity.
  - destruct (login_failures_look_alike example_crypto example_auth_joi
                (JObj [("email", JStr "bob@example.org");
                       ("password", JStr "guess")])
                (snd (register example_crypto example_auth_joi
                        example_credentials example_auth_db)))
      as (_ & H & _).
    apply (H "bob@example.org" "guess"); [reflexivity |].
    intros u Hin. vm_compute in Hin. apply list_elem_of_singleton in Hin.
    subst u. discriminate.
Defined.

(** X28.  [/verify].  Without an Authorization header, or with a header
    that is just "Bearer ", the answer is 401 "No token provided"; a
    token that [jwt.verify] rejects is answered 401 "Invalid token"; a
    valid token of a user that is not in the table is answered 401 "User
    not found"; [/verify] never writes.  The token that [/register] hands
    out, sent back as "Bearer <token>" within seven days, is answered 200
    with the id, user name and email of the new user.  (A token is
    accepted for seven days: the contract of jsonwebtoken.) *)
Theorem verify_outcomes (crypto : Crypto) (db : AuthDb) :
  verify crypto None db
  = (Ok (mkAuthResponse 401 (auth_error "No token provided")), db)
  ∧ verify crypto (Some "Bearer ") db
    = (Ok (mkAuthResponse 401 (auth_error "No token provided")), db)
  ∧ (∀ token, token ≠ "" → jwt_verify crypto token (auth_now db) = None →
       verify crypto (Some ("Bearer " +:+ token)) db
       = (Ok (mkAuthResponse 401 (auth_error "Invalid token")), db))
  ∧ (∀ token userId, token ≠ "" →
       jwt_verify crypto token (auth_now db) = Some userId →
       (∀ u, u ∈ users db → User_id u ≠ userId) →
       verify crypto (Some ("Bearer " +:+ token)) db
       = (Ok (mkAuthResponse 401 (auth_error "User not found")), db))
  ∧ (∀ authorization, snd (verify crypto authorization db) = db)
  ∧ (∀ joi body name mail password later,
       jwt_ok crypto →
       registerSchema joi body = inr (name, mail, password) →
       existsb (λ u, String.eqb (email u) mail || String.eqb (username u) name)
         (users db) = false →
       existsb (λ u, String.eqb (User_id u)
                       (users_uuid db (users_uuid_calls db))) (users db)
       = false →
       auth_now db ≤ later → later < auth_now db + 7 * 24 * 60 * 60 * 1000 →
       jwt_sign crypto (users_uuid db (users_uuid_calls db)) name (auth_now db)
       ≠ "" →
       let db1 := auth_later later (snd (register crypto joi body db)) in
       verify crypto
         (Some ("Bearer "
                +:+ jwt_sign crypto (users_uuid db (users_uuid_calls db)) name
                      (auth_now db))) db1
       = (Ok (mkAuthResponse 200
                (verified_body true (users_uuid db (users_uuid_calls db))
                   name mail)), db1)).
Proof.
  assert (Htoken : ∀ token d, token ≠ "" →
            verify crypto (Some ("Bearer " +:+ token)) d
            = match jwt_verify crypto token (auth_now d) with
              | None => (Ok (mkAuthResponse 401 (auth_error "Invalid token")), d)
              | Some userId =>
                  match List.filter (λ u, String.eqb (User_id u) userId)
                          (users d) with
                  | [] =>
                      (Ok (mkAuthResponse 401 (auth_error "User not found")), d)
                  | user :: _ =>
                      (Ok (mkAuthResponse 200
                             (verified_body true (User_id user) (username user)
                                (email user))), d)
                  end
              end).
  { intros token d Hne. unfold verify. cbn [fmap option_fmap option_map].
    rewrite (replace_first_prefix "Bearer " "" token).
    change ("" +:+ token) with token.
    destruct token as [| c token]; [contradiction |]. reflexivity. }
  split; [reflexivity |]. split; [reflexivity |].
  split; [| split; [| split]].
  - intros token Hne Hv. rewrite (Htoken token db Hne), Hv. reflexivity.
  - intros token userId Hne Hv Hno. rewrite (Htoken token db Hne), Hv.
    rewrite filter_none_existsb; [reflexivity |].
    destruct (existsb _ (users db)) eqn:Hex; [| reflexivity].
    apply existsb_exists in Hex as (u & Hin & Hu).
    apply String.eqb_eq in Hu. exfalso.
    exact (Hno u (proj2 (list_elem_of_In _ _) Hin) Hu).
  - intros authorization. unfold verify.
    destruct (negb (env_set _)); [reflexivity |].
    destruct (jwt_verify crypto _ (auth_now db)); [| reflexivity].
    destruct (List.filter _ (users db)); reflexivity.
  - intros joi body name mail password later Hjwt Hv Hnew Hid Hle Hlt Hne.
    cbv zeta. rewrite (Htoken _ _ Hne).
    rewrite (register_new crypto joi body db name mail password Hv Hnew Hid).
    unfold auth_later. cbn [snd auth_now users].
    rewrite (Hjwt _ _ _ _ Hle Hlt).
    rewrite List.filter_app, (filter_none_existsb _ _ Hid).
    cbn [List.filter app User_id]. rewrite String.eqb_refl. reflexivity.
Qed.

Lemma verify_outcomes_witness :
  jwt_ok example_crypto
  ∧ verify example_crypto (Some "Bearer token:u1")
      (auth_later 5000
         (snd (register example_crypto example_auth_joi example_credentials
                 example_auth_db)))
    = (Ok (mkAuthResponse 200 (verified_body true "u1" "ada" "ada@example.org")),
       auth_later 5000
         (snd (register example_crypto example_auth_joi example_credentials
                 example_auth_db)))
  ∧ verify example_crypto (Some "Bearer nonsense") example_auth_db
    = (Ok (mkAuthResponse 401 (auth_error "Invalid token")), example_auth_db).
Proof.
  assert (Hj : jwt_ok example_crypto).
  { intros userId name issued now _ _. cbn [example_crypto jwt_verify jwt_sign].
    rewrite (prefix_app "token:" userId).
    exact (f_equal Some (drop_string_app "token:" userId)). }
  split; [exact Hj |].
  destruct (verify_outcomes example_crypto example_auth_db)
    as (_ & _ & Hbad & _ & _ & Hgood).
  split.
  - apply (Hgood example_auth_joi example_credentials "ada" "ada@example.org"
             "secret1" 5000 Hj); try reflexivity; try discriminate.
  - apply (Hbad "nonsense"); [discriminate | reflexivity].
Defined.
